(** * congress-scraper: the bill transformation engine (src/tasks/transformBill.js)

    A shallow embedding of the action deduplicator, the action classifier,
    the vote-outcome state machine, the title classifier and the history
    summariser, followed by the properties the specification states about
    them.

    The later modules and sections cover more of the code: the outcomes and
    the invariants of the classifier, the record that [transformGovInfoBill]
    returns, the related bills, [transformNode], the keys of the bucket, and
    the sitemap differ of src/tasks/processBillTypeUpdate.js
    ([validateRecord], [fetchValidIndexes], [processIndexUpdates] and
    [queueIndexUpdates]).

    Conventions of the embedding.
    - JavaScript strings are [string]s of 8-bit code units; case mapping and
      the character classes of regular expressions are those of ASCII.
    - JavaScript objects built by the code are [gmap string jsval]; a key
      bound to [JUndef] is a property that is present and [undefined].
    - A thrown exception is the [Err] of [result]. *)

From stdpp Require Import gmap strings list fin_maps pretty.
From Stdlib Require Import Ascii String Lia.

#[local] Set Warnings "-register-all".


(** ** JavaScript values and exceptions *)

Module Js.

Inductive jsval :=
| JUndef
| JBool (b : bool)
| JNum (n : nat)
| JStr (s : string)
| JObj (o : gmap string jsval)
| JEmptyArray.

(** [JEmptyArray] is the array literal [[]], the one array that the code
    uses as a value of its own; the arrays of actions are lists, and the
    array that is mutated lives in the store of [transformGovInfoBill]. *)

Inductive jserror :=
| TypeError
| RangeError
| Thrown (statusCode : nat) (message : string).

Inductive result (A : Type) :=
| Ok (a : A)
| Err (e : jserror).
Arguments Ok {A} a.
Arguments Err {A} e.

Definition bind {A B} (r : result A) (f : A -> result B) : result B :=
  match r with
  | Ok a => f a
  | Err e => Err e
  end.

Definition is_ok {A} (r : result A) : bool :=
  match r with Ok _ => true | Err _ => false end.

(** The value of a computation that does not throw. *)
Definition ok_or {A} (d : A) (r : result A) : A :=
  match r with Ok a => a | Err _ => d end.

(** ToBoolean *)
Definition truthy (v : jsval) : bool :=
  match v with
  | JUndef => false
  | JBool b => b
  | JNum n => negb (Nat.eqb n 0)
  | JStr s => negb (String.eqb s "")
  | JObj _ => true
  | JEmptyArray => true
  end.

(** [v[k]] for a value that is not null or undefined: own properties of an
    object; a number, a boolean or a string has no property of the names the
    code uses, so reading one gives [undefined]. *)
Definition get (v : jsval) (k : string) : result jsval :=
  match v with
  | JUndef => Err TypeError
  | JObj o => Ok (default JUndef (o !! k))
  | _ => Ok JUndef
  end.

(** [v[k] = x] in strict mode: an object gains or updates the property; a
    primitive value cannot hold one and the assignment throws. *)
Definition put (v : jsval) (k : string) (x : jsval) : result jsval :=
  match v with
  | JObj o => Ok (JObj (<[k := x]> o))
  | _ => Err TypeError
  end.

(** A property of an object literal: absent keys read as [undefined]. *)
Definition prop (o : gmap string jsval) (k : string) : jsval :=
  default JUndef (o !! k).

(** Default value of a parameter or of a destructured binding. *)
Definition or_default (v d : jsval) : jsval :=
  match v with
  | JUndef => d
  | _ => v
  end.

Definition of_opt (o : option string) : jsval :=
  match o with
  | Some s => JStr s
  | None => JUndef
  end.

(** ToString on the values the code interpolates or tests. *)
Definition to_string (o : option string) : string :=
  match o with
  | Some s => s
  | None => "undefined"
  end.

(** *** String.prototype methods *)

Fixpoint startsWith (s p : string) : bool :=
  match p, s with
  | EmptyString, _ => true
  | String a p', String b s' => Ascii.eqb a b && startsWith s' p'
  | String _ _, EmptyString => false
  end.

Fixpoint drop (n : nat) (s : string) : string :=
  match n, s with
  | S k, String _ s' => drop k s'
  | _, _ => s
  end.

Definition endsWith (s p : string) : bool :=
  Nat.leb (String.length p) (String.length s)
  && String.eqb (drop (String.length s - String.length p) s) p.

Fixpoint includes (s p : string) : bool :=
  startsWith s p ||
  match s with
  | EmptyString => false
  | String _ s' => includes s' p
  end.

(** [s.replace(pat, rep)] with a string pattern: the first occurrence only. *)
Fixpoint replace (s pat rep : string) : string :=
  if startsWith s pat then rep +:+ drop (String.length pat) s
  else match s with
       | EmptyString => EmptyString
       | String c s' => String c (replace s' pat rep)
       end.

Definition string_of_rev (l : list ascii) : string :=
  string_of_list_ascii (rev l).

Fixpoint split_go (sep : string) (skip : nat) (cur : list ascii) (s : string)
  : list string :=
  match s with
  | EmptyString => [string_of_rev cur]
  | String c s' =>
      match skip with
      | S k => split_go sep k cur s'
      | O =>
          if startsWith s sep
          then string_of_rev cur :: split_go sep (String.length sep - 1) [] s'
          else split_go sep 0 (c :: cur) s'
      end
  end.

(** [s.split(sep)] for a non-empty separator. *)
Definition split (s sep : string) : list string := split_go sep 0 [] s.

Definition is_upper (c : ascii) : bool :=
  let n := nat_of_ascii c in Nat.leb 65 n && Nat.leb n 90.
Definition is_lower (c : ascii) : bool :=
  let n := nat_of_ascii c in Nat.leb 97 n && Nat.leb n 122.
Definition lower (c : ascii) : ascii :=
  if is_upper c then ascii_of_nat (nat_of_ascii c + 32) else c.
Definition upper (c : ascii) : ascii :=
  if is_lower c then ascii_of_nat (nat_of_ascii c - 32) else c.

Fixpoint toLowerCase (s : string) : string :=
  match s with
  | EmptyString => EmptyString
  | String c s' => String (lower c) (toLowerCase s')
  end.

Fixpoint join (sep : string) (l : list string) : string :=
  match l with
  | [] => ""
  | [x] => x
  | x :: l' => x +:+ sep +:+ join sep l'
  end.

(** [v == "lit"] for a value that is a string or [undefined]. *)
Definition eqs (v : jsval) (lit : string) : bool :=
  match v with
  | JStr s => String.eqb s lit
  | _ => false
  end.

(** A method call on [v] that only strings have ([replace], [match],
    [startsWith]): the receiver as a string, or a TypeError. *)
Definition as_string (v : jsval) : result string :=
  match v with
  | JStr s => Ok s
  | _ => Err TypeError
  end.

(** ToString, where the code hands a value to [RegExp.prototype.test]. *)
Definition str_of (v : jsval) : string :=
  match v with
  | JUndef => "undefined"
  | JBool true => "true"
  | JBool false => "false"
  | JNum n => pretty n
  | JStr s => s
  | JObj _ => "[object Object]"
  | JEmptyArray => ""
  end.

(** [Array.prototype.map]: the callback receives the element and its index;
    the first exception ends the loop. *)
Fixpoint map_index {A B} (f : A -> nat -> result B) (i : nat) (l : list A)
  : result (list B) :=
  match l with
  | [] => Ok []
  | a :: l' =>
      bind (f a i) (fun b =>
      bind (map_index f (S i) l') (fun bs => Ok (b :: bs)))
  end.

(** [l.filter(p).pop()]: the last element that satisfies [p]. *)
Definition filter_pop {A} (p : A -> bool) (l : list A) : option A :=
  last (List.filter p l).

End Js.

Notation "x <- e ;; k" := (Js.bind e (fun x => k))
  (at level 100, e at next level, right associativity, only parsing).

(** ** Regular expressions

    The subset of ECMAScript patterns that transformBill.js uses: literals,
    [.], character classes and class escapes, groups (capturing or not),
    alternation, the quantifiers [?], [*], [+] and their lazy forms, and the
    assertions [^] and [$].  Matching is the backtracking matcher of the
    ECMAScript specification, written with continuations. *)

Module Regex.

Inductive citem :=
| CChar (c : ascii)
| CRange (lo hi : ascii)
| CDigit (neg : bool)
| CWord (neg : bool)
| CSpace (neg : bool).

Inductive regex :=
| REmpty
| RChar (c : ascii)
| RAny
| RSet (neg : bool) (items : list citem)
| RSeq (r1 r2 : regex)
| RAlt (r1 r2 : regex)
| RRepeat (min : nat) (max : option nat) (greedy : bool) (r : regex)
| RGroup (idx : nat) (r : regex)
| RBol
| REol.

Definition is_digit (c : ascii) : bool :=
  let n := nat_of_ascii c in Nat.leb 48 n && Nat.leb n 57.
Definition is_word (c : ascii) : bool :=
  is_digit c || Js.is_upper c || Js.is_lower c || Ascii.eqb c "_".
Definition is_space (c : ascii) : bool :=
  let n := nat_of_ascii c in (Nat.leb 9 n && Nat.leb n 13) || Nat.eqb n 32.
Definition is_line_terminator (c : ascii) : bool :=
  let n := nat_of_ascii c in Nat.eqb n 10 || Nat.eqb n 13.

Definition item_has (it : citem) (c : ascii) : bool :=
  match it with
  | CChar a => Ascii.eqb a c
  | CRange lo hi =>
      Nat.leb (nat_of_ascii lo) (nat_of_ascii c)
      && Nat.leb (nat_of_ascii c) (nat_of_ascii hi)
  | CDigit neg => xorb neg (is_digit c)
  | CWord neg => xorb neg (is_word c)
  | CSpace neg => xorb neg (is_space c)
  end.

(** With the [i] flag a character belongs to a set when some member of the
    set has the same canonical (upper-case) form. *)
Definition set_has (ci : bool) (items : list citem) (c : ascii) : bool :=
  existsb (fun it =>
             item_has it c
             || (ci && (item_has it (Js.lower c) || item_has it (Js.upper c))))
          items.

Definition char_eq (ci : bool) (a c : ascii) : bool :=
  if ci then Ascii.eqb (Js.upper a) (Js.upper c) else Ascii.eqb a c.

(** The matcher state: the end index, the input that remains there, and the
    captures made so far (most recent first). *)
Record mstate := MState {
  m_pos : nat;
  m_rest : list ascii;
  m_caps : list (nat * list ascii)
}.

Definition advance (x : mstate) (rest : list ascii) : mstate :=
  MState (S (m_pos x)) rest (m_caps x).

Definition set_cap (i : nat) (v : list ascii) (x : mstate) : mstate :=
  MState (m_pos x) (m_rest x) ((i, v) :: m_caps x).

Fixpoint groups_of (r : regex) : list nat :=
  match r with
  | RSeq r1 r2 | RAlt r1 r2 => groups_of r1 ++ groups_of r2
  | RRepeat _ _ _ r1 => groups_of r1
  | RGroup i r1 => i :: groups_of r1
  | _ => []
  end.

Definition clear_caps (gs : list nat) (x : mstate) : mstate :=
  MState (m_pos x) (m_rest x)
    (List.filter (fun p => negb (existsb (Nat.eqb (fst p)) gs)) (m_caps x)).

Definition one_char (p : ascii -> bool) (x : mstate)
    (c : mstate -> option mstate) : option mstate :=
  match m_rest x with
  | ch :: rest => if p ch then c (advance x rest) else None
  | [] => None
  end.

(** RepeatMatcher: [m1] matches one iteration of the quantified atom, whose
    capturing groups are [gs]; [c] is the continuation of the quantifier.  An
    iteration that is not required and consumes nothing is rejected.  The
    fuel bounds the iterations: the required ones, then one per character
    that remains. *)
Fixpoint repeat_loop (m1 : mstate -> (mstate -> option mstate) -> option mstate)
    (gs : list nat) (greedy : bool) (c : mstate -> option mstate)
    (fuel min : nat) (max : option nat) (x : mstate) {struct fuel}
    : option mstate :=
  match fuel with
  | O => None
  | S fuel' =>
      match max with
      | Some O => c x
      | _ =>
          let d := fun y =>
            if Nat.eqb min 0 && Nat.eqb (m_pos y) (m_pos x) then None
            else repeat_loop m1 gs greedy c fuel' (Nat.pred min)
                   (option_map Nat.pred max) y in
          let xr := clear_caps gs x in
          if negb (Nat.eqb min 0) then m1 xr d
          else if greedy then
            match m1 xr d with
            | Some z => Some z
            | None => c x
            end
          else
            match c x with
            | Some z => Some z
            | None => m1 xr d
            end
      end
  end.

Section Matcher.
Variable ci : bool.

Fixpoint rmatch (r : regex) (x : mstate) (c : mstate -> option mstate)
    {struct r} : option mstate :=
  match r with
  | REmpty => c x
  | RChar a => one_char (char_eq ci a) x c
  | RAny => one_char (fun ch => negb (is_line_terminator ch)) x c
  | RSet neg items => one_char (fun ch => xorb neg (set_has ci items ch)) x c
  | RSeq r1 r2 => rmatch r1 x (fun y => rmatch r2 y c)
  | RAlt r1 r2 =>
      match rmatch r1 x c with
      | Some z => Some z
      | None => rmatch r2 x c
      end
  | RRepeat min max greedy r1 =>
      repeat_loop (rmatch r1) (groups_of r1) greedy c
        (min + List.length (m_rest x) + 2) min max x
  | RGroup i r1 =>
      rmatch r1 x
        (fun y => c (set_cap i (take (m_pos y - m_pos x) (m_rest x)) y))
  | RBol => if Nat.eqb (m_pos x) 0 then c x else None
  | REol => match m_rest x with [] => c x | _ => None end
  end.

(** The leftmost match: the start index and the final state. *)
Fixpoint search (r : regex) (pos : nat) (s : list ascii)
    : option (nat * mstate) :=
  match rmatch r (MState pos s []) Some with
  | Some y => Some (pos, y)
  | None =>
      match s with
      | [] => None
      | _ :: s' => search r (S pos) s'
      end
  end.

(** [s.replace(/r/g, rep)] for a replacement without [$] patterns. *)
Fixpoint replace_go (r : regex) (rep : list ascii) (skip pos : nat)
    (s : list ascii) {struct s} : list ascii :=
  match skip with
  | S k =>
      match s with
      | [] => []
      | _ :: s' => replace_go r rep k (S pos) s'
      end
  | O =>
      match rmatch r (MState pos s []) Some with
      | Some y =>
          rep ++
          match s with
          | [] => []
          | ch :: s' =>
              match m_pos y - pos with
              | O => ch :: replace_go r rep 0 (S pos) s'
              | S k => replace_go r rep k (S pos) s'
              end
          end
      | None =>
          match s with
          | [] => []
          | ch :: s' => ch :: replace_go r rep 0 (S pos) s'
          end
      end
  end.
End Matcher.

(** States of one run: the position and the remaining input add up to the
    length [N] of the input. *)
Definition wf (N : nat) (x : mstate) : Prop :=
  m_pos x + List.length (m_rest x) = N.

(** A matcher that calls its continuation only on states at or after the
    one it starts from. *)
Definition forward (N : nat)
    (m : mstate -> (mstate -> option mstate) -> option mstate) : Prop :=
  forall x k k', wf N x ->
    (forall y, wf N y -> m_pos x <= m_pos y -> k y = k' y) ->
    m x k = m x k'.

(** *** Reading a pattern from its source text *)

Definition class_escape (c : ascii) : option citem :=
  match c with
  | "d" => Some (CDigit false) | "D" => Some (CDigit true)
  | "w" => Some (CWord false) | "W" => Some (CWord true)
  | "s" => Some (CSpace false) | "S" => Some (CSpace true)
  | _ => None
  end%char.

Definition char_escape (c : ascii) : ascii :=
  match c with
  | "t" => "009" | "n" => "010" | "v" => "011" | "f" => "012" | "r" => "013"
  | _ => c
  end%char.

Definition escaped_item (c : ascii) : citem :=
  match class_escape c with
  | Some it => it
  | None => CChar (char_escape c)
  end.

(** The members of a class, after the opening bracket. *)
Fixpoint parse_class (s : list ascii) : option (list citem * list ascii) :=
  match s with
  | [] => None
  | "]"%char :: rest => Some ([], rest)
  | "\"%char :: e :: rest =>
      match parse_class rest with
      | Some (its, rest') => Some (escaped_item e :: its, rest')
      | None => None
      end
  | a :: rest =>
      match rest with
      | "-"%char :: b :: rest2 =>
          if Ascii.eqb b "]" || Ascii.eqb b "\" then
            match parse_class rest with
            | Some (its, rest') => Some (CChar a :: its, rest')
            | None => None
            end
          else
            match parse_class rest2 with
            | Some (its, rest') => Some (CRange a b :: its, rest')
            | None => None
            end
      | _ =>
          match parse_class rest with
          | Some (its, rest') => Some (CChar a :: its, rest')
          | None => None
          end
      end
  end.

Definition seq (r1 r2 : regex) : regex :=
  match r2 with
  | REmpty => r1
  | _ => RSeq r1 r2
  end.

(** A quantifier after an atom, if there is one. *)
Definition parse_quant (a : regex) (s : list ascii) : option (regex * list ascii) :=
  let lazy_of (min : nat) (max : option nat) (s' : list ascii) :=
    match s' with
    | "?"%char :: s'' => Some (RRepeat min max false a, s'')
    | _ => Some (RRepeat min max true a, s')
    end in
  match s with
  | "*"%char :: s' => lazy_of 0 None s'
  | "+"%char :: s' => lazy_of 1 None s'
  | "?"%char :: s' => lazy_of 0 (Some 1) s'
  | "{"%char :: _ => None
  | _ => Some (a, s)
  end.

(** [g] counts the capturing groups opened so far; groups are numbered from
    1 in the order of their opening parentheses. *)
Fixpoint parse_disj (fuel : nat) (s : list ascii) (g : nat)
    : option (regex * list ascii * nat) :=
  match fuel with
  | O => None
  | S f =>
      match parse_alt f s g with
      | Some (a, "|"%char :: s2, g1) =>
          match parse_disj f s2 g1 with
          | Some (b, s3, g3) => Some (RAlt a b, s3, g3)
          | None => None
          end
      | other => other
      end
  end
with parse_alt (fuel : nat) (s : list ascii) (g : nat)
    : option (regex * list ascii * nat) :=
  match fuel with
  | O => None
  | S f =>
      match s with
      | [] => Some (REmpty, s, g)
      | "|"%char :: _ => Some (REmpty, s, g)
      | ")"%char :: _ => Some (REmpty, s, g)
      | _ =>
          match parse_term f s g with
          | Some (t, s1, g1) =>
              match parse_alt f s1 g1 with
              | Some (r, s2, g2) => Some (seq t r, s2, g2)
              | None => None
              end
          | None => None
          end
      end
  end
with parse_term (fuel : nat) (s : list ascii) (g : nat)
    : option (regex * list ascii * nat) :=
  let quantified (a : regex) (s1 : list ascii) (g1 : nat) :=
    match parse_quant a s1 with
    | Some (t, s2) => Some (t, s2, g1)
    | None => None
    end in
  match fuel with
  | O => None
  | S f =>
      match s with
      | [] => None
      | "^"%char :: s1 => Some (RBol, s1, g)
      | "$"%char :: s1 => Some (REol, s1, g)
      | "."%char :: s1 => quantified RAny s1 g
      | "\"%char :: e :: s1 => quantified
          (match class_escape e with
           | Some it => RSet false [it]
           | None => RChar (char_escape e)
           end) s1 g
      | "["%char :: "^"%char :: s1 =>
          match parse_class s1 with
          | Some (its, s2) => quantified (RSet true its) s2 g
          | None => None
          end
      | "["%char :: s1 =>
          match parse_class s1 with
          | Some (its, s2) => quantified (RSet false its) s2 g
          | None => None
          end
      | "("%char :: "?"%char :: ":"%char :: s1 =>
          match parse_disj f s1 g with
          | Some (r, ")"%char :: s2, g1) => quantified r s2 g1
          | _ => None
          end
      | "("%char :: s1 =>
          match parse_disj f s1 (S g) with
          | Some (r, ")"%char :: s2, g1) => quantified (RGroup (S g) r) s2 g1
          | _ => None
          end
      | "*"%char :: _ | "+"%char :: _ | "?"%char :: _ | "\"%char :: [] => None
      | a :: s1 => quantified (RChar a) s1 g
      end
  end.

Definition parse (src : string) : option regex :=
  let s := list_ascii_of_string src in
  match parse_disj (4 * List.length s + 8) s 0 with
  | Some (r, [], _) => Some r
  | _ => None
  end.

(** A RegExp object: the pattern and its [i] flag. *)
Record RegExp := MkRegExp { pattern : regex; ignoreCase : bool }.

Definition is_some {A} (o : option A) : Prop :=
  match o with Some _ => True | None => False end.

Definition the {A} (o : option A) : is_some o -> A :=
  match o with
  | Some a => fun _ => a
  | None => fun H => match H with end
  end.

(** The result of a successful [exec] or [match]: [m[0]] and the captures. *)
Record rmatch_result := MkMatch {
  index : nat;
  whole : string;
  captures : list (nat * list ascii)
}.

Definition exec (re : RegExp) (s : string) : option rmatch_result :=
  let l := list_ascii_of_string s in
  match search (ignoreCase re) (pattern re) 0 l with
  | Some (start, y) =>
      Some (MkMatch start
              (string_of_list_ascii (take (m_pos y - start) (List.skipn start l)))
              (m_caps y))
  | None => None
  end.

(** [m[i]] for [i >= 1]: the capture, or [undefined]. *)
Definition group (m : rmatch_result) (i : nat) : option string :=
  match List.find (fun p => Nat.eqb (fst p) i) (captures m) with
  | Some (_, v) => Some (string_of_list_ascii v)
  | None => None
  end.

Definition test (re : RegExp) (s : string) : bool :=
  match exec re s with Some _ => true | None => false end.

(** [s.replace(re, rep)] for a pattern with the [g] flag. *)
Definition replace_all (re : RegExp) (s rep : string) : string :=
  string_of_list_ascii
    (replace_go (ignoreCase re) (pattern re) (list_ascii_of_string rep) 0 0
       (list_ascii_of_string s)).

End Regex.

(** A regular-expression literal [/src/] or [/src/i]; the proof argument
    checks that the source text is a pattern of the supported subset. *)
Definition regexp (src : string) (i : bool)
    (H : Regex.is_some (Regex.parse src)) : Regex.RegExp :=
  Regex.MkRegExp (Regex.the (Regex.parse src) H) i.

(** ** The patterns of transformBill.js *)

Module Patterns.

(** split_bill_id *)
Definition bill_id_re : Regex.RegExp :=
  Eval vm_compute in regexp "^([a-z]+)(\d+)-(\d+)$" false I.

(** action_for: "strip out links" *)
Definition links_re : Regex.RegExp :=
  Eval vm_compute in regexp "r<\/?[Aa]( \S.*?)?>" false I.

(** parse_bill_action: an action on an amendment *)
Definition amdt_re : Regex.RegExp :=
  Eval vm_compute in regexp "^(H|S)\.Amdt\.(\d+)" true I.

(** parse_bill_action: the House vote; [matchString] as the string
    concatenation evaluates it. *)
Definition house_vote_src : string :=
  "("
  +:+ Js.join "|" [
        "On passage";
        "Passed House";
        "Two-thirds of the Members present having voted in the affirmative the bill is passed,?";
        "On motion to suspend the rules and pass the (?:bill|resolution)";
        "On agreeing to the (?:resolution|conference report)";
        "On motion to suspend the rules and agree to the (?:resolution|conference report)";
        "House Agreed to Senate Amendments.*?";
        "On motion (?:that )?the House (?:suspend the rules and )?(?:agree(?: with an amendment)? to|concur in) the Senate amendments?(?: to the House amendments?| to the Senate amendments?)*"
      ]
  +:+ ")"
  +:+ "(, the objections of the President to the contrary notwithstanding.?)?"
  +:+ "(, as amended| \(Amended\))?"
  +:+ "\.? (Passed|Failed|Agreed to|Rejected)?"
  +:+ " ?(by voice vote|without objection|by (the Yeas and Nays?|Yea-Nay Vote|recorded vote)"
  +:+ "(:? \(2/3 required\))?: (\d+ ?- ?\d+(, \d+ Present)? [ \)]*)?\((Roll no\.|Record Vote No:) \d+\))".

Definition house_vote_re : Regex.RegExp :=
  Eval vm_compute in regexp house_vote_src true I.

Definition roll_re : Regex.RegExp :=
  Eval vm_compute in regexp "\((Roll no\.|Record Vote No:) (\d+)\)" true I.

Definition passed_house_re : Regex.RegExp :=
  Eval vm_compute in regexp "Passed House|House Agreed to" true I.
Definition prevailed_re : Regex.RegExp :=
  Eval vm_compute in regexp "(ayes|yeas) had prevailed" true I.
Definition pass_agreed_re : Regex.RegExp :=
  Eval vm_compute in regexp "Pass|Agreed" true I.
Definition two_thirds_re : Regex.RegExp :=
  Eval vm_compute in regexp "Two-thirds of the Members present" true I.
Definition house_pingpong_re : Regex.RegExp :=
  Eval vm_compute in
    regexp "(agree (with an amendment )?to|concur in) the Senate amendment" true I.
Definition conference_re : Regex.RegExp :=
  Eval vm_compute in regexp "conference report" true I.
Definition suspend_re : Regex.RegExp :=
  Eval vm_compute in regexp "On motion to suspend the rules" true I.
Definition house_agree_amdt_re : Regex.RegExp :=
  Eval vm_compute in regexp "the House agree with an amendment" true I.

(** parse_bill_action: passed House without a vote *)
Definition pursuant_re : Regex.RegExp :=
  Eval vm_compute in
    regexp "Passed House pursuant to|House agreed to Senate amendment (with amendment )?pursuant to|Pursuant to the provisions of [HSCONJRES\. ]+ \d+, [HSCONJRES\. ]+ \d+ is considered passed House" true I.
Definition agreed_senate_amdt_re : Regex.RegExp :=
  Eval vm_compute in regexp "agreed to Senate amendment" true I.
Definition with_amendment_re : Regex.RegExp :=
  Eval vm_compute in regexp "with amendment" true I.
Definition as_amended_re : Regex.RegExp :=
  Eval vm_compute in regexp "as amended" false I.

(** parse_bill_action: an agreed-to House motion to table *)
Definition table_src : string :=
  "On motion to table the measure Agreed to"
  +:+ " ?(by voice vote|without objection|by (the Yeas and Nays|Yea-Nay Vote|recorded vote)"
  +:+ ": (\d+ - \d+(, \d+ Present)? [ \)]*)?\((Roll no\.|Record Vote No:) \d+\))".

Definition table_re : Regex.RegExp :=
  Eval vm_compute in regexp table_src true I.

(** parse_bill_action: the Senate vote.  The code builds [re] with the [i]
    flag and then calls [match(matchString)]: the pattern that runs is
    compiled from the string, without flags. *)
Definition senate_vote_src : string :=
  "("
  +:+ Js.join "|" [
        "Passed Senate";
        "Failed of passage in Senate";
        "Disagreed to in Senate";
        "Resolution agreed to in Senate";
        "Senate (?:agreed to|concurred in) (?:the )?(?:conference report|House amendment(?: to the Senate amendments?| to the House amendments?)*)";
        "Senate receded from its amendment and concurred";
        "Cloture \S*\s?on the motion to proceed .*?not invoked in Senate";
        "Cloture(?: motion)? on the motion to proceed to the (?:bill|measure) invoked in Senate";
        "Cloture invoked in Senate";
        "Cloture on (?:the motion to (?:proceed to |concur in )(?:the House amendment (?:to the Senate amendment )?to )?)(?:the bill|H.R. .*) (?:not )?invoked in Senate";
        "(?:Introduced|Received|Submitted) in the Senate, (?:read twice, |considered, |read the third time, )+and (?:passed|agreed to)"
      ]
  +:+ ")"
  +:+ "(,?.*,?) "
  +:+ "(without objection|by Unanimous Consent|by Voice Vote|(?:by )?Yea-Nay( Vote)?\. \d+\s*-\s*\d+\. Record Vote (No|Number): \d+)".

Definition senate_vote_re : Regex.RegExp :=
  Eval vm_compute in regexp senate_vote_src false I.

Definition disagreed_re : Regex.RegExp :=
  Eval vm_compute in regexp "disagreed|not invoked" true I.
Definition passed_re : Regex.RegExp :=
  Eval vm_compute in regexp "passed|agreed|concurred|invoked" true I.
Definition over_veto_re : Regex.RegExp :=
  Eval vm_compute in regexp "over veto" true I.
Definition cloture_re : Regex.RegExp :=
  Eval vm_compute in regexp "cloture" true I.
Definition senate_pingpong_re : Regex.RegExp :=
  Eval vm_compute in
    regexp "Senate agreed to (the )?House amendment|Senate concurred in (the )?House amendment" true I.
Definition record_vote_re : Regex.RegExp :=
  Eval vm_compute in regexp "Record Vote (No|Number): (\d+)" true I.
Definition with_amendments_re : Regex.RegExp :=
  Eval vm_compute in regexp "with amendments|with an amendment" true I.

(** parse_bill_action: the remaining rules *)
Definition calendar_re : Regex.RegExp :=
  Eval vm_compute in
    regexp "Placed on (the )?([\w ]+) Calendar( under ([\w ]+))?[,\.] Calendar No\. (\d+)\.|Committee Agreed to Seek Consideration Under Suspension of the Rules|Ordered to be Reported" true I.
Definition reported_re : Regex.RegExp :=
  Eval vm_compute in regexp "Committee on (.*)\. Reported by" true I.
Definition reported_senate_re : Regex.RegExp :=
  Eval vm_compute in
    regexp "Reported to Senate from the (.*?)( \(without written report\))?\." true I.
Definition hearings_re : Regex.RegExp :=
  Eval vm_compute in regexp "(Committee on .*?)\. Hearings held" true I.
Definition discharged_re : Regex.RegExp :=
  Eval vm_compute in
    regexp "Committee on (.*)\. Discharged (by Unanimous Consent)?" true I.
Definition topresident_re : Regex.RegExp :=
  Eval vm_compute in regexp "Cleared for White House|Presented to President" true I.
Definition signed_re : Regex.RegExp :=
  Eval vm_compute in regexp "Signed by President" true I.
Definition pocket_re : Regex.RegExp :=
  Eval vm_compute in regexp "Pocket Vetoed by President" true I.
Definition vetoed_re : Regex.RegExp :=
  Eval vm_compute in regexp "Vetoed by President" true I.
Definition archivist_re : Regex.RegExp :=
  Eval vm_compute in
    regexp "Sent to Archivist of the United States unsigned" false I.
Definition law_re : Regex.RegExp :=
  Eval vm_compute in
    regexp "^(?:Became )?(Public|Private) Law(?: No:)? ([\d\-]+)\." true I.
Definition referral_re : Regex.RegExp :=
  Eval vm_compute in
    regexp "Referred to (?:the )?(House|Senate)?\s?(?:Committee|Subcommittee)?" true I.

(** activation_from: the pattern is written with the double quotes inside
    the literal, [/"Sponsor introductory remarks"/i]. *)
Definition dquote : string := String (ascii_of_nat 34) EmptyString.
Definition remarks_re : Regex.RegExp :=
  Eval vm_compute in
    regexp (dquote +:+ "Sponsor introductory remarks" +:+ dquote) true I.

End Patterns.

(** ** The engine *)

Module Bill.
Import Js.

(** *** Input: the document tree after xml2js and [transformNode]

    Every leaf that the code reads is a string or is absent. *)

Record source_system := SourceSystem {
  code : option string;
  name : option string
}.

Record raw_action := RawAction {
  actionDate : option string;
  actionTime : option string;
  actionCode : option string;
  sourceSystem : option source_system;
  text : option string
}.

Record raw_title := RawTitle {
  titleType : option string;
  title : option string
}.

(** The fields of the [bill] node that the modelled functions read.  The
    sponsor, cosponsor, summary and related-bill sections are not modelled. *)
Record bill_node := BillNode {
  billType : string;
  billNumber : string;
  congress : string;
  updateDate : option string;
  introducedDate : option string;
  officialTitle : option string;
  titles : list raw_title;
  actions : list raw_action
}.

(** *** Bill identifiers *)

Definition build_bill_id (bill_type bill_number congress : string) : string :=
  bill_type +:+ bill_number +:+ "-" +:+ congress.

Record bill_id_parts := BillIdParts {
  bill_number : string;
  bill_type : string;
  id_congress : string
}.

Definition invalid_bill_id (bill_id : string) : jserror :=
  Thrown 404 ("Invalid bill id: " +:+ bill_id).

(** A failed [match] gives [null], indexing it throws, and the [catch]
    rethrows the 404 object.  The three groups are not optional, so a match
    binds all of them (lemma [split_bill_id_eq] below). *)
Definition split_bill_id (bill_id : string) : result bill_id_parts :=
  match Regex.exec Patterns.bill_id_re bill_id with
  | Some groups =>
      match Regex.group groups 1, Regex.group groups 2, Regex.group groups 3 with
      | Some t, Some n, Some c => Ok (BillIdParts n t c)
      | _, _, _ => Err TypeError
      end
  | None => Err (invalid_bill_id bill_id)
  end.

(** *** Titles *)

Definition unknown_title_type (title_type : string) : jserror :=
  Thrown 400 ("Unknown title type: " +:+ title_type).

(** [build_dict] of [titles_for] *)
Definition title_dict (item : raw_title) : result (gmap string jsval) :=
  full_type <- as_string (of_opt (titleType item)) ;;
  let splits :=
    if includes full_type " as " then split full_type " as "
    else split full_type " on " in
  let '(title_type, is_for_portion, state) :=
    match splits with
    | [s0; s1] =>
        let is_for_portion := endsWith s1 " for portions of this bill" in
        let state :=
          if is_for_portion then replace s1 " for portions of this bill" ""
          else s1 in
        (s0, is_for_portion, JStr (toLowerCase (replace state ":" "")))
    | _ => (full_type, false, JUndef)
    end in
  title_type <-
    (if includes title_type "Popular Title" then Ok "popular"
     else if includes title_type "Short Title" then Ok "short"
     else if includes title_type "Official Title" then Ok "official"
     else if includes title_type "Display Title" then Ok "display"
     else if String.eqb title_type "Non-bill-report" then Ok "nonbillreport"
     else Err (unknown_title_type title_type)) ;;
  Ok (<["title" := of_opt (title item)]>
      (<["is_for_portion" := JBool is_for_portion]>
      (<["as" := state]>
      (<["type" := JStr title_type]> ∅)))).

Definition titles_for (items : list raw_title) : result (list (gmap string jsval)) :=
  map_index (fun item _ => title_dict item) 0 items.

Definition current_title_for (titles : list (gmap string jsval))
    (title_type : string) : jsval :=
  match filter_pop (fun item => eqs (prop item "type") title_type) titles with
  | Some current_title => prop current_title "title"
  | None => JUndef
  end.

(** *** The vote-outcome state machine *)

Definition new_status_after_vote (vote_type : string) (passed : bool)
    (chamber bill_type : string) (suspension amended : jsval)
    (title prev_status : string) : jsval :=
  if String.eqb vote_type "vote" then
    if passed then
      if String.eqb bill_type "hres" || String.eqb bill_type "sres"
      then JStr "PASSED:SIMPLERES"
      else if String.eqb chamber "h" then JStr "PASS_OVER:HOUSE"
      else JStr "PASS_OVER:SENATE"
    else if truthy suspension then JStr "PROV_KILL:SUSPENSIONFAILED"
    else if String.eqb chamber "h" then JStr "FAIL:ORIGINATING:HOUSE"
    else JStr "FAIL:ORIGINATING:SENATE"
  else if String.eqb vote_type "vote2" || String.eqb vote_type "pingpong" then
    if passed then
      if truthy amended then
        if String.eqb chamber "h" then JStr "PASS_BACK:HOUSE"
        else JStr "PASS_BACK:SENATE"
      else
        if (String.eqb bill_type "hjres" || String.eqb bill_type "sjres")
           && startsWith title
                "Proposing an amendment to the Constitution of the United States"
        then JStr "PASSED:CONSTAMEND"
        else if String.eqb bill_type "hconres" || String.eqb bill_type "sconres"
        then JStr "PASSED:CONCURRENTRES"
        else JStr "PASSED:BILL"
    else if String.eqb vote_type "pingpong" then JStr "PROV_KILL:PINGPONGFAIL"
    else if truthy suspension then JStr "PROV_KILL:SUSPENSIONFAILED"
    else if String.eqb chamber "h" then JStr "FAIL:SECOND:HOUSE"
    else JStr "FAIL:SECOND:SENATE"
  else if String.eqb vote_type "cloture" then
    if negb passed then JStr "PROV_KILL:CLOTUREFAILED" else JUndef
  else if String.eqb vote_type "override" then
    if negb passed then
      if String.eqb bill_type chamber then
        if String.eqb chamber "h" then JStr "VETOED:OVERRIDE_FAIL_ORIGINATING:HOUSE"
        else JStr "VETOED:OVERRIDE_FAIL_ORIGINATING:SENATE"
      else
        if String.eqb chamber "h" then JStr "VETOED:OVERRIDE_FAIL_SECOND:HOUSE"
        else JStr "VETOED:OVERRIDE_FAIL_SECOND:SENATE"
    else
      if String.eqb bill_type chamber then
        if String.eqb chamber "h" then JStr "VETOED:OVERRIDE_PASS_OVER:HOUSE"
        else JStr "VETOED:OVERRIDE_PASS_OVER:SENATE"
      else JStr "ENACTED:VETO_OVERRIDE"
  else if String.eqb vote_type "conference" then
    if passed then
      if startsWith prev_status "CONFERENCE:PASSED:" then
        if (String.eqb bill_type "hjres" || String.eqb bill_type "sjres")
           && startsWith title
                "Proposing an amendment to the Constitution of the United States"
        then JStr "PASSED:CONSTAMEND"
        else if String.eqb bill_type "hconres" || String.eqb bill_type "sconres"
        then JStr "PASSED:CONCURRENTRES"
        else JStr "PASSED:BILL"
      else
        if String.eqb chamber "h" then JStr "CONFERENCE:PASSED:HOUSE"
        else JStr "CONFERENCE:PASSED:SENATE"
    else JUndef
  else JUndef.

(** *** The action classifier *)

(** The [var]s of [parse_bill_action] that one rule can leave for a later
    one, and the [action] object under construction.  The other variables
    ([m], [re], [motion], [is_override], [extra], ...) are assigned in a rule
    before that rule reads them. *)
Record locals := Locals {
  v_action : gmap string jsval;
  v_vote_type : jsval;
  v_status : jsval;
  v_new_status : jsval;
  v_pass_fail : jsval;
  v_as_amended : jsval;
  v_how : jsval;
  v_roll : jsval;
  v_suspension : jsval
}.

Definition set_action (a : gmap string jsval) (l : locals) : locals :=
  Locals a (v_vote_type l) (v_status l) (v_new_status l) (v_pass_fail l)
    (v_as_amended l) (v_how l) (v_roll l) (v_suspension l).

Definition set_status (s : jsval) (l : locals) : locals :=
  Locals (v_action l) (v_vote_type l) s (v_new_status l) (v_pass_fail l)
    (v_as_amended l) (v_how l) (v_roll l) (v_suspension l).

(** What the rules read besides the locals. *)
Record context := Context {
  c_text : string;
  c_prev_status : string;
  c_bill_id : string;
  c_bill_type : string;
  c_title : string
}.

(** [new_status = new_status_after_vote(...); if (new_status) status = new_status] *)
Definition after_vote (c : context) (vote_type pass_fail chamber : string)
    (suspension amended : jsval) (l : locals) : locals :=
  let ns :=
    new_status_after_vote vote_type (String.eqb pass_fail "pass") chamber
      (c_bill_type c) suspension amended (c_title c) (c_prev_status c) in
  Locals (v_action l) (v_vote_type l) (if truthy ns then ns else v_status l) ns
    (v_pass_fail l) (v_as_amended l) (v_how l) (v_roll l) (v_suspension l).

(** [m = how.match(roll pattern); if (m) { how = "roll"; roll = m[2] }] *)
Definition normalize_how (re : Regex.RegExp) (how : string) (l : locals)
    : jsval * jsval :=
  match Regex.exec re how with
  | Some m => (JStr "roll", of_opt (Regex.group m 2))
  | None => (JStr how, v_roll l)
  end.

(** The House vote on passage. *)
Definition rule_house_vote (c : context) (l : locals) : result locals :=
  match Regex.exec Patterns.house_vote_re
          (replace (c_text c) ", the Passed" ", Passed") with
  | None => Ok l
  | Some m =>
      let motion := to_string (Regex.group m 1) in
      let is_override := of_opt (Regex.group m 2) in
      let as_amended := of_opt (Regex.group m 3) in
      let pass_fail :=
        if Regex.test Patterns.passed_house_re motion then "pass"
        else if Regex.test Patterns.prevailed_re (c_text c) then "pass"
        else if Regex.test Patterns.pass_agreed_re (to_string (Regex.group m 4))
        then "pass"
        else "fail" in
      let is_override :=
        if Regex.test Patterns.two_thirds_re motion then JBool true
        else is_override in
      let vote_type :=
        if truthy is_override then "override"
        else if Regex.test Patterns.house_pingpong_re (c_text c) then "pingpong"
        else if Regex.test Patterns.conference_re (c_text c) then "conference"
        else if String.eqb (c_bill_type c) "hr" then "vote"
        else "vote2" in
      how <- as_string (of_opt (Regex.group m 5)) ;;
      let '(how, roll) := normalize_how Patterns.roll_re how l in
      let suspension :=
        if truthy roll && Regex.test Patterns.suspend_re motion then JBool true
        else v_suspension l in
      let as_amended :=
        if Regex.test Patterns.house_agree_amdt_re motion then JBool true
        else as_amended in
      let action :=
        <["suspension" := suspension]>
        (<["result" := JStr pass_fail]>
        (<["where" := JStr "h"]>
        (<["how" := how]>
        (<["vote_type" := JStr vote_type]>
        (<["type" := JStr "vote"]> (v_action l)))))) in
      let action := if truthy roll then <["roll" := roll]> action else action in
      Ok (after_vote c vote_type pass_fail "h" suspension as_amended
            (Locals action (JStr vote_type) (v_status l) (v_new_status l)
               (JStr pass_fail) as_amended how roll suspension))
  end.

(** Passed House, not necessarily by an actual vote. *)
Definition rule_house_pursuant (c : context) (l : locals) : result locals :=
  if Regex.test Patterns.pursuant_re (c_text c) then
    let vote_type := if String.eqb (c_bill_type c) "hr" then "vote" else "vote2" in
    let vote_type :=
      if Regex.test Patterns.agreed_senate_amdt_re (c_text c) then "pingpong"
      else vote_type in
    let pass_fail := "pass" in
    let as_amended :=
      JBool (Regex.test Patterns.with_amendment_re (c_text c)
             || Regex.test Patterns.as_amended_re (c_text c)) in
    let action :=
      <["result" := JStr pass_fail]>
      (<["where" := JStr "h"]>
      (<["how" := JStr "by special rule"]>
      (<["vote_type" := JStr vote_type]>
      (<["type" := JStr "vote"]> (v_action l))))) in
    Ok (after_vote c vote_type pass_fail "h" (JBool false) as_amended
          (Locals action (JStr vote_type) (v_status l) (v_new_status l)
             (JStr pass_fail) as_amended (v_how l) (v_roll l) (v_suspension l)))
  else Ok l.

(** An agreed-to House motion to table the measure. *)
Definition rule_house_table (c : context) (l : locals) : result locals :=
  match Regex.exec Patterns.table_re (c_text c) with
  | None => Ok l
  | Some m =>
      let pass_fail := "fail" in
      let vote_type :=
        if String.eqb (c_prev_status c) "INTRODUCED"
           || startsWith (c_bill_id c) "hres"
        then "vote" else "vote2" in
      how <- as_string (of_opt (Regex.group m 1)) ;;
      let '(how, roll) := normalize_how Patterns.roll_re how l in
      let action :=
        <["result" := JStr pass_fail]>
        (<["where" := JStr "h"]>
        (<["how" := how]>
        (<["vote_type" := JStr vote_type]>
        (<["type" := JStr "vote"]> (v_action l))))) in
      let action := if truthy roll then <["roll" := roll]> action else action in
      Ok (after_vote c vote_type pass_fail "h" (JBool false) (JBool false)
            (Locals action (JStr vote_type) (v_status l) (v_new_status l)
               (JStr pass_fail) (v_as_amended l) how roll (v_suspension l)))
  end.

(** The Senate vote. *)
Definition rule_senate_vote (c : context) (l : locals) : result locals :=
  match Regex.exec Patterns.senate_vote_re (replace (c_text c) "  " " ") with
  | None => Ok l
  | Some m =>
      let motion := to_string (Regex.group m 1) in
      let extra := to_string (Regex.group m 2) in
      let pass_fail :=
        if Regex.test Patterns.disagreed_re motion then "fail"
        else if Regex.test Patterns.passed_re motion then "pass"
        else "fail" in
      let '(vote_type, voteaction_type) :=
        if Regex.test Patterns.over_veto_re extra then ("override", "vote")
        else if Regex.test Patterns.conference_re motion then ("conference", "vote")
        else if Regex.test Patterns.cloture_re motion then ("cloture", "vote-aux")
        else if Regex.test Patterns.senate_pingpong_re motion then ("pingpong", "vote")
        else if String.eqb (c_bill_type c) "s" then ("vote", "vote")
        else ("vote2", "vote") in
      how <- as_string (of_opt (Regex.group m 3)) ;;
      let '(how, roll) := normalize_how Patterns.record_vote_re how l in
      let as_amended := JBool (Regex.test Patterns.with_amendments_re extra) in
      let action :=
        <["where" := JStr "s"]>
        (<["result" := JStr pass_fail]>
        (<["how" := how]>
        (<["vote_type" := JStr vote_type]>
        (<["type" := JStr voteaction_type]> (v_action l))))) in
      let action := if truthy roll then <["roll" := roll]> action else action in
      Ok (after_vote c vote_type pass_fail "s" (JBool false) as_amended
            (Locals action (JStr vote_type) (v_status l) (v_new_status l)
               (JStr pass_fail) as_amended how roll (v_suspension l)))
  end.

Definition introduced_or_referred (c : context) : bool :=
  String.eqb (c_prev_status c) "INTRODUCED" || String.eqb (c_prev_status c) "REFERRED".

Definition set_type (t : string) (l : locals) : locals :=
  set_action (<["type" := JStr t]> (v_action l)) l.

Definition promote_reported (c : context) (l : locals) : locals :=
  if introduced_or_referred c then set_status (JStr "REPORTED") l else l.

(** Placed on a calendar, suspension sought, or ordered to be reported. *)
Definition rule_calendar (c : context) (l : locals) : result locals :=
  if Regex.test Patterns.calendar_re (c_text c)
  then Ok (set_type "calendar" (promote_reported c l))
  else Ok l.

(** [action["type"] = "reported"; action["committee"] = m[1]; ...] for both
    forms of a committee report. *)
Definition rule_reported_with (re : Regex.RegExp) (c : context) (l : locals)
    : result locals :=
  match Regex.exec re (c_text c) with
  | Some m =>
      let action :=
        <["committee" := of_opt (Regex.group m 1)]>
        (<["type" := JStr "reported"]> (v_action l)) in
      Ok (promote_reported c (set_action action l))
  | None => Ok l
  end.

Definition rule_reported : context -> locals -> result locals :=
  rule_reported_with Patterns.reported_re.
Definition rule_reported_senate : context -> locals -> result locals :=
  rule_reported_with Patterns.reported_senate_re.

Definition rule_hearings (c : context) (l : locals) : result locals :=
  match Regex.exec Patterns.hearings_re (c_text c) with
  | Some m =>
      Ok (set_action
            (<["type" := JStr "hearings"]>
             (<["committee" := of_opt (Regex.group m 1)]> (v_action l))) l)
  | None => Ok l
  end.

(** The match object has no method [group]: [m.group(1)] throws. *)
Definition rule_discharged (c : context) (l : locals) : result locals :=
  match Regex.exec Patterns.discharged_re (c_text c) with
  | Some _ => Err TypeError
  | None => Ok l
  end.

Definition rule_topresident (c : context) (l : locals) : result locals :=
  if Regex.test Patterns.topresident_re (c_text c)
  then Ok (set_type "topresident" l)
  else Ok l.

Definition rule_signed (c : context) (l : locals) : result locals :=
  if Regex.test Patterns.signed_re (c_text c)
  then Ok (set_status (JStr "ENACTED:SIGNED") (set_type "signed" l))
  else Ok l.

Definition rule_vetoed (c : context) (l : locals) : result locals :=
  if Regex.test Patterns.pocket_re (c_text c) then
    Ok (set_status (JStr "VETOED:POCKET")
          (set_action (<["pocket" := JStr "1"]>
                       (<["type" := JStr "vetoed"]> (v_action l))) l))
  else if Regex.test Patterns.vetoed_re (c_text c) then
    Ok (set_status (JStr "PROV_KILL:VETO") (set_type "vetoed" l))
  else Ok l.

Definition rule_archivist (c : context) (l : locals) : result locals :=
  if Regex.test Patterns.archivist_re (c_text c)
  then Ok (set_status (JStr "ENACTED:TENDAYRULE") l)
  else Ok l.

(** Enacted: a public or private law citation. *)
Definition rule_enacted (c : context) (l : locals) : result locals :=
  match Regex.exec Patterns.law_re (c_text c) with
  | Some m =>
      law <- as_string (of_opt (Regex.group m 1)) ;;
      number <- as_string (of_opt (Regex.group m 2)) ;;
      let pieces := split number "-" in
      let action :=
        <["type" := JStr "enacted"]>
        (<["number" := of_opt (pieces !! 1)]>
        (<["congress" := of_opt (pieces !! 0)]>
        (<["law" := JStr (toLowerCase law)]> (v_action l)))) in
      let l := set_action action l in
      if String.eqb (c_prev_status c) "ENACTED:SIGNED"
         || String.eqb (c_prev_status c) "ENACTED:VETO_OVERRIDE"
         || String.eqb (c_prev_status c) "ENACTED:TENDAYRULE"
      then Ok (set_status (v_status l) l)
      else if String.eqb (c_prev_status c) "PROV_KILL:VETO"
              || startsWith (c_prev_status c) "VETOED:"
      then Ok (set_status (JStr "ENACTED:VETO_OVERRIDE") l)
      else Ok l
  | None => Ok l
  end.

Definition rule_referral (c : context) (l : locals) : result locals :=
  if Regex.test Patterns.referral_re (c_text c) then
    let l := set_type "referral" l in
    Ok (if String.eqb (c_prev_status c) "INTRODUCED"
        then set_status (JStr "REFERRED") l else l)
  else Ok l.

(** The cascade, in the order of the code; every rule runs. *)
Definition rules : list (context -> locals -> result locals) :=
  [ rule_house_vote; rule_house_pursuant; rule_house_table; rule_senate_vote;
    rule_calendar; rule_reported; rule_reported_senate; rule_hearings;
    rule_discharged; rule_topresident; rule_signed; rule_vetoed;
    rule_archivist; rule_enacted; rule_referral ].

Fixpoint run_rules (rs : list (context -> locals -> result locals))
    (c : context) (l : locals) : result locals :=
  match rs with
  | [] => Ok l
  | r :: rs' => l' <- r c l ;; run_rules rs' c l'
  end.

Definition initial_locals : locals :=
  Locals {[ "type" := JStr "action" ]}
    JUndef JUndef JUndef JUndef JUndef JUndef JUndef JUndef.

(** [prev_status] and [title] are the arguments as the caller passes them
    (strings or [undefined] at every call site); the defaults of the
    parameter list apply to [undefined].  The value is the returned object:
    [{ action, status }], or [{}] for an action on an amendment. *)
Definition parse_bill_action (action_dict : gmap string jsval)
    (prev_status : jsval) (bill_id : string) (title : jsval)
    : result (gmap string jsval) :=
  prev_status <- as_string (or_default prev_status (JStr "")) ;;
  title <- as_string (or_default title (JStr "")) ;;
  parts <- split_bill_id bill_id ;;
  let text := prop action_dict "text" in
  if Regex.test Patterns.amdt_re (str_of text) then Ok ∅
  else
    text <- as_string text ;;
    l <- run_rules rules
           (Context text prev_status bill_id (bill_type parts) title)
           initial_locals ;;
    Ok (<["status" := v_status l]> (<["action" := JObj (v_action l)]> ∅)).

(** The store of [transformGovInfoBill]: the arrays that are shared by
    reference, indexed by their address. *)
Abbreviation store := (list (list (gmap string jsval))).

(** *** Deduplication and classification of a bill's actions *)

Section Engine.
(** [new Date(s).toISOString()], a function of the platform (its result
    depends on the time zone of the process): [None] when the date is
    invalid and [toISOString] throws a RangeError. *)
Variable toISOString : string -> option string.

(** The argument of [new Date] in [action_for]. *)
Definition date_text (item : raw_action) : string :=
  to_string (actionDate item)
  +:+ (if truthy (of_opt (actionTime item))
       then "T" +:+ to_string (actionTime item) else "").

Definition action_for (item : raw_action) : result (gmap string jsval) :=
  acted_at <-
    match toISOString (date_text item) with
    | Some iso => Ok iso
    | None => Err RangeError
    end ;;
  let text := default "" (text item) in
  let text := Regex.replace_all Patterns.links_re text "" in
  Ok (<["text" := JStr text]>
      (<["type" := JStr "action"]>
      (<["action_code" := of_opt (actionCode item)]>
      (<["acted_at" := JStr acted_at]> ∅)))).

(** The object [closure] that [keep_action] reads and writes.  It is
    assigned [{ "prev_status": "INTRODUCED" }] before the filter runs, so
    [prev] starts absent. *)
Record closure := Closure {
  prev : option raw_action;
  prev_status : jsval
}.

Definition initial_closure : closure := Closure None (JStr "INTRODUCED").

(** The comparison of the two texts on line 291. *)
Definition same_text (item before : raw_action) : result bool :=
  a <- action_for item ;;
  a_text <- as_string (prop a "text") ;;
  b <- action_for before ;;
  b_text <- as_string (prop b "text") ;;
  Ok (endsWith (replace a_text " " "") (replace b_text " " "")).

Definition same_time (item before : raw_action) : bool :=
  bool_decide (actionTime item = actionTime before)
  || negb (truthy (of_opt (actionTime item)))
  || negb (truthy (of_opt (actionTime before))).

(** The callback of the filter: whether to keep [item], and the closure
    it leaves. *)
Definition keep_action (item : raw_action) (cl : closure)
    : result (bool * closure) :=
  if negb (truthy (of_opt (text item))) then Ok (false, cl)
  else
    keep <-
      match prev cl with
      | Some before =>
          source <- match sourceSystem item with
                    | Some s => Ok s
                    | None => Err TypeError
                    end ;;
          if eqs (of_opt (code source)) "9"
             && bool_decide (actionDate item = actionDate before)
             && same_time item before
          then same <- same_text item before ;; Ok (negb same)
          else Ok true
      | None => Ok true
      end ;;
    Ok (keep, Closure (Some item) (prev_status cl)).

(** [actions.filter(keep_action)], threading the closure. *)
Fixpoint filter_keep (items : list raw_action) (cl : closure)
    : result (list raw_action * closure) :=
  match items with
  | [] => Ok ([], cl)
  | item :: rest =>
      r <- keep_action item cl ;;
      k <- filter_keep rest (snd r) ;;
      Ok (if fst r then item :: fst k else fst k, snd k)
  end.

(** The deduplicator: [actions.filter(keep_action).reverse()]. *)
Definition kept_actions (items : list raw_action) : result (list raw_action) :=
  k <- filter_keep items initial_closure ;;
  Ok (rev (fst k)).

(** [build_dict] of [actions_for].  Its second parameter is named
    [closure] and hides the object above; [Array.prototype.map] passes the
    index of the element there.  Writing a property of a number throws in
    strict mode. *)
Definition build_dict (bill_id : string) (title : jsval)
    (item : raw_action) (index : nat) : result (gmap string jsval) :=
  let closure := JNum index in
  action_dict <- action_for item ;;
  prev_status <- get closure "prev_status" ;;
  parsed <- parse_bill_action action_dict prev_status bill_id title ;;
  let extra_action_info := prop parsed "action" in
  let new_status := prop parsed "stauts" in
  action_dict <-
    (if truthy new_status then
       let action_dict := <["status" := new_status]> action_dict in
       _ <- put closure "prev_status" new_status ;;
       Ok action_dict
     else Ok action_dict) ;;
  Ok (match extra_action_info with
      | JObj extra => extra ∪ action_dict
      | _ => action_dict
      end).

Definition actions_for (items : list raw_action) (bill_id : string)
    (title : jsval) : result (list (gmap string jsval)) :=
  match items with
  | [] => Ok []
  | _ =>
      kept <- kept_actions items ;;
      map_index (build_dict bill_id title) 0 kept
  end.

(** *** Status and history of the bill *)

Definition alloc (a : list (gmap string jsval)) (h : store) : nat * store :=
  (List.length h, (h ++ [a])%list).

Definition read (r : nat) (h : store) : list (gmap string jsval) :=
  default [] (h !! r).

(** [Array.prototype.pop]: removes the last element of the array at [r]
    in place and returns it. *)
Definition pop (r : nat) (h : store) : option (gmap string jsval) * store :=
  (last (read r h), <[r := removelast (read r h)]> h).

Definition latest_status (actions : nat) (introduced_at : jsval) (h : store)
    : (jsval * jsval) * store :=
  let '(latestAction, h) := pop actions h in
  match latestAction with
  | Some a => ((prop a "status", prop a "acted_at"), h)
  | None => ((JStr "INTRODUCED", introduced_at), h)
  end.

Definition type_is (t : string) (action : gmap string jsval) : bool :=
  eqs (prop action "type") t.

(** The first action beyond the standard ones; [[]] for a bill without
    actions, [undefined] when the scan finds none. *)
Definition activation_from (actions : list (gmap string jsval)) : jsval :=
  match actions with
  | [] => JEmptyArray
  | first :: rest =>
      if type_is "referral" first || type_is "calendar" first
         || type_is "action" first
      then
        match List.find
                (fun action =>
                   negb (type_is "referral" action)
                   && negb (type_is "calendar" action)
                   && negb (Regex.test Patterns.remarks_re
                              (str_of (prop action "text"))))
                rest with
        | Some action => JObj action
        | None => JUndef
        end
      else JObj first
  end.

(** [if (v) { history[key] = v['result']; history[key + "_at"] = v['acted_at'] }] *)
Definition record_vote (key : string) (v : option (gmap string jsval))
    (history : gmap string jsval) : gmap string jsval :=
  match v with
  | Some vote =>
      <[key +:+ "_at" := prop vote "acted_at"]>
      (<[key := prop vote "result"]> history)
  | None => history
  end.

(** [if (v) { history[key] = true; history[key + "_at"] = v['acted_at'] }
     else history[key] = false] *)
Definition record_flag (key : string) (v : option (gmap string jsval))
    (history : gmap string jsval) : gmap string jsval :=
  match v with
  | Some a =>
      <[key +:+ "_at" := prop a "acted_at"]> (<[key := JBool true]> history)
  | None => <[key := JBool false]> history
  end.

Definition is_vote (chamber : string) (override : bool)
    (action : gmap string jsval) : bool :=
  type_is "vote" action && eqs (prop action "where") chamber
  && (if override then eqs (prop action "vote_type") "override"
      else negb (eqs (prop action "vote_type") "override")).

Definition is_cloture (action : gmap string jsval) : bool :=
  type_is "vote-aux" action && eqs (prop action "vote_type") "cloture"
  && eqs (prop action "where") "s"
  && negb (eqs (prop action "vote_type") "override").

Definition history_from_actions (actions : list (gmap string jsval))
    : result (gmap string jsval) :=
  let activation := activation_from actions in
  history <-
    (if truthy activation then
       active_at <- get activation "acted_at" ;;
       Ok (<["active_at" := active_at]> (<["active" := JBool true]> ∅))
     else Ok (<["active" := JBool false]> ∅)) ;;
  let history :=
    record_vote "house_passage_result" (filter_pop (is_vote "h" false) actions) history in
  let history :=
    record_vote "senate_passage_result" (filter_pop (is_vote "s" false) actions) history in
  let history :=
    record_vote "senate_cloture_result" (filter_pop is_cloture actions) history in
  let history :=
    record_flag "vetoed" (filter_pop (type_is "vetoed") actions) history in
  let history :=
    record_vote "house_override_result" (filter_pop (is_vote "h" true) actions) history in
  let history :=
    record_vote "senate_override_result" (filter_pop (is_vote "s" true) actions) history in
  let history :=
    record_flag "enacted" (filter_pop (type_is "enacted") actions) history in
  let topresident := filter_pop (type_is "topresident") actions in
  Ok (match topresident with
      | Some a =>
          if negb (truthy (prop history "vetoed"))
             && negb (truthy (prop history "enacted"))
          then <["awaiting_signature_since" := prop a "acted_at"]>
               (<["awaiting_signature" := JBool true]> history)
          else <["awaiting_signature" := JBool false]> history
      | None => <["awaiting_signature" := JBool false]> history
      end).

(** *** The bill record *)

Definition BULKDATA_BASE_URL : string := "https://www.govinfo.gov/" +:+ "bulkdata/".

Definition billstatus_url_for (bill_id : string) : result string :=
  parts <- split_bill_id bill_id ;;
  Ok (BULKDATA_BASE_URL +:+ "BILLSTATUS/" +:+ id_congress parts +:+ "/"
      +:+ bill_type parts +:+ "/BILLSTATUS-" +:+ id_congress parts
      +:+ bill_type parts +:+ bill_number parts +:+ ".xml").

(** The fields of [bill_data] that come from the modelled sections.
    [out_actions] is the reference to the array of classified actions. *)
Record bill_data := BillData {
  out_bill_id : string;
  out_bill_type : string;
  out_number : string;
  out_congress : string;
  out_url : string;
  out_introduced_at : jsval;
  out_actions : nat;
  out_history : gmap string jsval;
  out_status : jsval;
  out_status_at : jsval;
  out_titles : list (gmap string jsval);
  out_official_title : jsval;
  out_short_title : jsval;
  out_popular_title : jsval;
  out_updated_at : jsval
}.

Definition transformGovInfoBill (bill : bill_node) (h : store)
    : result (bill_data * store) :=
  let bill_id :=
    build_bill_id (toLowerCase (billType bill)) (billNumber bill)
      (congress bill) in
  titles <- titles_for (titles bill) ;;
  classified <-
    actions_for (actions bill) bill_id (current_title_for titles "official") ;;
  let '(actions, h) := alloc classified h in
  let '(status, status_date, h) :=
    latest_status actions (of_opt (introducedDate bill)) h in
  url <- billstatus_url_for bill_id ;;
  history <- history_from_actions (read actions h) ;;
  Ok (BillData bill_id (toLowerCase (billType bill)) (billNumber bill)
        (congress bill) url (of_opt (introducedDate bill)) actions history
        status status_date titles (of_opt (officialTitle bill))
        (current_title_for titles "short")
        (current_title_for titles "popular")
        (of_opt (updateDate bill)),
      h).

(** The [actions] of the record as [JSON.stringify] writes them. *)
Definition actions_of (r : bill_data * store) : list (gmap string jsval) :=
  read (out_actions (fst r)) (snd r).

End Engine.

(** A sample platform for running examples: a process in UTC, on the two
    formats of the feed, [YYYY-MM-DD] and [YYYY-MM-DDThh:mm:ss] (with days up
    to 28, which every month has).  Any other text is treated as an invalid
    date. *)
Definition utc_date_re : Regex.RegExp :=
  Eval vm_compute in
    regexp "^\d\d\d\d-(0[1-9]|1[0-2])-(0[1-9]|1\d|2[0-8])(T([01]\d|2[0-3]):[0-5]\d:[0-5]\d)?$" false I.

Definition utc_iso (s : string) : option string :=
  match Regex.exec utc_date_re s with
  | Some m =>
      match Regex.group m 3 with
      | Some _ => Some (s +:+ ".000Z")
      | None => Some (s +:+ "T00:00:00.000Z")
      end
  | None => None
  end.

End Bill.

(** ** The specification's side of the refinement claims

    Definitions that follow the words of the specification, to be compared
    with the functions above. *)

Module Spec.
Import Js.

(** *** Section 4.3: the vote-outcome table *)

Inductive vote_kind := Vote | Vote2 | Pingpong | Cloture | Override | Conference.
Inductive chamber_kind := House | Senate.
Inductive bill_kind := Hr | Hres | Hjres | Hconres | S_ | Sres | Sjres | Sconres.

Definition vote_kind_name (v : vote_kind) : string :=
  match v with
  | Vote => "vote" | Vote2 => "vote2" | Pingpong => "pingpong"
  | Cloture => "cloture" | Override => "override" | Conference => "conference"
  end.

Definition chamber_name (c : chamber_kind) : string :=
  match c with House => "h" | Senate => "s" end.

Definition bill_kind_name (b : bill_kind) : string :=
  match b with
  | Hr => "hr" | Hres => "hres" | Hjres => "hjres" | Hconres => "hconres"
  | S_ => "s" | Sres => "sres" | Sjres => "sjres" | Sconres => "sconres"
  end.

Record vote_case := VoteCase {
  voteType : vote_kind;
  passed : bool;
  chamber : chamber_kind;
  billType : bill_kind;
  suspension : bool;
  amended : bool;
  officialTitle : string;
  prevStatus : string
}.

Inductive outcome :=
| Status (s : string)
| NoChange.

(** "HOUSE/SENATE by chamber" *)
Definition by_chamber (family : string) (i : vote_case) : outcome :=
  Status (family +:+ match chamber i with House => "HOUSE" | Senate => "SENATE" end).

Definition simple_resolution (i : vote_case) : bool :=
  match billType i with Hres | Sres => true | _ => false end.
Definition joint_resolution (i : vote_case) : bool :=
  match billType i with Hjres | Sjres => true | _ => false end.
Definition concurrent_resolution (i : vote_case) : bool :=
  match billType i with Hconres | Sconres => true | _ => false end.

Definition proposes_amendment (i : vote_case) : bool :=
  startsWith (officialTitle i)
    "Proposing an amendment to the Constitution of the United States".

(** The chamber in which a bill of the type originates. *)
Definition origin (b : bill_kind) : chamber_kind :=
  match b with
  | Hr | Hres | Hjres | Hconres => House
  | S_ | Sres | Sjres | Sconres => Senate
  end.

(** "billType==chamber": the vote is in the chamber in which the bill
    originated.  These rows give the ORIGINATING and PASS_OVER statuses;
    the rows "billType≠chamber" are those of the second chamber. *)
Definition bill_type_is_chamber (i : vote_case) : bool :=
  match origin (billType i), chamber i with
  | House, House | Senate, Senate => true
  | _, _ => false
  end.

(** The two rows of an override vote in the second chamber. *)
Definition override_second (i : vote_case) : outcome :=
  if passed i then Status "ENACTED:VETO_OVERRIDE"
  else Status ("VETOED:OVERRIDE_FAIL_SECOND:"
               +:+ match chamber i with House => "HOUSE" | Senate => "SENATE" end).

Definition is_vote (v : vote_kind) (i : vote_case) : bool :=
  String.eqb (vote_kind_name (voteType i)) (vote_kind_name v).

Definition second_or_pingpong (i : vote_case) : bool :=
  is_vote Vote2 i || is_vote Pingpong i.

(** The non-amended branch of a vote2 or pingpong vote. *)
Definition passed_unamended (i : vote_case) : outcome :=
  if joint_resolution i && proposes_amendment i then Status "PASSED:CONSTAMEND"
  else if concurrent_resolution i then Status "PASSED:CONCURRENTRES"
  else Status "PASSED:BILL".

(** The rows of the table, in its order: the vote type, whether the vote
    passed, the conditions, the next status.  A row marked "else" applies
    when the rows above it do not. *)
Definition vote_table : list ((vote_case -> bool) * (vote_case -> outcome)) :=
  [ (fun i => is_vote Vote i && passed i && simple_resolution i,
     fun _ => Status "PASSED:SIMPLERES");
    (fun i => is_vote Vote i && passed i, by_chamber "PASS_OVER:");
    (fun i => is_vote Vote i && negb (passed i) && suspension i,
     fun _ => Status "PROV_KILL:SUSPENSIONFAILED");
    (fun i => is_vote Vote i && negb (passed i), by_chamber "FAIL:ORIGINATING:");
    (fun i => second_or_pingpong i && passed i && amended i,
     by_chamber "PASS_BACK:");
    (fun i => second_or_pingpong i && passed i && negb (amended i)
              && joint_resolution i && proposes_amendment i,
     fun _ => Status "PASSED:CONSTAMEND");
    (fun i => second_or_pingpong i && passed i && negb (amended i)
              && concurrent_resolution i,
     fun _ => Status "PASSED:CONCURRENTRES");
    (fun i => second_or_pingpong i && passed i && negb (amended i),
     fun _ => Status "PASSED:BILL");
    (fun i => is_vote Pingpong i && negb (passed i),
     fun _ => Status "PROV_KILL:PINGPONGFAIL");
    (fun i => is_vote Vote2 i && negb (passed i) && suspension i,
     fun _ => Status "PROV_KILL:SUSPENSIONFAILED");
    (fun i => is_vote Vote2 i && negb (passed i), by_chamber "FAIL:SECOND:");
    (fun i => is_vote Cloture i && negb (passed i),
     fun _ => Status "PROV_KILL:CLOTUREFAILED");
    (fun i => is_vote Cloture i && passed i, fun _ => NoChange);
    (fun i => is_vote Override i && negb (passed i) && bill_type_is_chamber i,
     by_chamber "VETOED:OVERRIDE_FAIL_ORIGINATING:");
    (fun i => is_vote Override i && negb (passed i)
              && negb (bill_type_is_chamber i),
     by_chamber "VETOED:OVERRIDE_FAIL_SECOND:");
    (fun i => is_vote Override i && passed i && bill_type_is_chamber i,
     by_chamber "VETOED:OVERRIDE_PASS_OVER:");
    (fun i => is_vote Override i && passed i && negb (bill_type_is_chamber i),
     fun _ => Status "ENACTED:VETO_OVERRIDE");
    (fun i => is_vote Conference i && passed i
              && startsWith (prevStatus i) "CONFERENCE:PASSED:",
     passed_unamended);
    (fun i => is_vote Conference i && passed i, by_chamber "CONFERENCE:PASSED:");
    (fun i => is_vote Conference i && negb (passed i), fun _ => NoChange) ].

(** The status the table gives: the outcome of the first row that applies,
    [None] if no row does. *)
Definition table_outcome (i : vote_case) : option outcome :=
  match List.find (fun row => fst row i) vote_table with
  | Some row => Some (snd row i)
  | None => None
  end.

(** What the function returns for an outcome: the status, or nothing. *)
Definition returned (o : outcome) : jsval :=
  match o with
  | Status s => JStr s
  | NoChange => JUndef
  end.

(** *** Section 4.1: the pattern of a bill id, [^[a-z]+\d+-\d+$] *)

Definition all_chars (p : ascii -> bool) (s : string) : bool :=
  forallb p (list_ascii_of_string s).

(** One or more lower-case letters, one or more digits, a hyphen, one or
    more digits, and nothing else. *)
Definition matches_bill_id_pattern (s : string) : Prop :=
  exists t n c : string,
    s = t +:+ n +:+ "-" +:+ c
    /\ t <> "" /\ all_chars is_lower t = true
    /\ n <> "" /\ all_chars Regex.is_digit n = true
    /\ c <> "" /\ all_chars Regex.is_digit c = true.

(** The longest prefix of characters in a class, and what follows it. *)
Fixpoint take_while (p : ascii -> bool) (l : list ascii) : list ascii :=
  match l with
  | ch :: l' => if p ch then ch :: take_while p l' else []
  | [] => []
  end.

Fixpoint drop_while (p : ascii -> bool) (l : list ascii) : list ascii :=
  match l with
  | ch :: l' => if p ch then drop_while p l' else l
  | [] => []
  end.

(** A direct recogniser of the pattern, which returns the three parts. *)
Definition bill_id_match (l : list ascii)
    : option (list ascii * list ascii * list ascii) :=
  let t := take_while is_lower l in
  let n := take_while Regex.is_digit (drop_while is_lower l) in
  match drop_while Regex.is_digit (drop_while is_lower l) with
  | "-"%char :: r =>
      match drop_while Regex.is_digit r with
      | [] =>
          if Nat.leb 1 (List.length t) && Nat.leb 1 (List.length n)
             && Nat.leb 1 (List.length (take_while Regex.is_digit r))
          then Some (t, n, take_while Regex.is_digit r)
          else None
      | _ => None
      end
  | _ => None
  end.

End Spec.

(** ** Invariants used in the proofs *)

Module Inv.
Import Js Bill.

(** An object without a property [status]. *)
Definition no_status (a : gmap string jsval) : Prop := a !! "status" = None.

(** A rule that never gives the [action] object a property [status]. *)
Definition keeps_no_status (r : context -> locals -> result locals) : Prop :=
  forall c l l',
    r c l = Ok l' -> no_status (v_action l) -> no_status (v_action l').

End Inv.

(** ** Sample documents *)

Module Examples.
Import Js Bill.

Definition act (date : string) (time : option string) (code text : string)
    : raw_action :=
  RawAction (Some date) time None (Some (SourceSystem (Some code) None))
    (Some text).

(** Scenario B of section 8: a House bill that is referred, reported, passed
    by the House by voice vote and passed by the Senate without amendment;
    the actions are in the order of the feed, newest first. *)
Definition senate_passage : raw_action :=
  act "2019-02-20" None "0"
    "Passed Senate without amendment by Unanimous Consent.".

Definition scenario_B : bill_node :=
  BillNode "HR" "1234" "116" (Some "2019-03-01") (Some "2019-01-03")
    (Some "To do things.")
    [RawTitle (Some "Official Title as Introduced") (Some "To do things.")]
    [ senate_passage;
      act "2019-02-11" (Some "14:30:00") "2" "On passage Passed by voice vote.";
      act "2019-02-01" None "1"
        "Committee on the Judiciary. Reported by Mr. Nadler.";
      act "2019-01-03" None "1"
        "Referred to the House Committee on the Judiciary." ].

(** Scenario A of section 8: a House bill whose only action is its
    introduction. *)
Definition scenario_A : bill_node :=
  BillNode "HR" "1" "116" (Some "2019-01-04") (Some "2019-01-03")
    (Some "To do things.") []
    [ act "2019-01-03" None "1" "Introduced in House" ].

(** The bill id, the titles and the classified actions of a bill, on the
    sample platform; the empty list if the computation throws. *)
Definition bill_id_of (bill : bill_node) : string :=
  build_bill_id (toLowerCase (billType bill)) (billNumber bill) (congress bill).

Definition titles_of (bill : bill_node) : list (gmap string jsval) :=
  ok_or [] (titles_for (titles bill)).

Definition classified_of (bill : bill_node) : list (gmap string jsval) :=
  ok_or []
    (actions_for utc_iso (actions bill) (bill_id_of bill)
       (current_title_for (titles_of bill) "official")).

(** A classified action. *)
Definition classified (type acted_at text : string) : gmap string jsval :=
  <["text" := JStr text]>
  (<["type" := JStr type]>
  (<["action_code" := JUndef]>
  (<["acted_at" := JStr acted_at]> ∅))).

(** The activation example of section 8: a referral, a calendar placement,
    the sponsor's introductory remarks, and then a vote. *)
Definition remarks_then_vote : list (gmap string jsval) :=
  [ classified "referral" "2019-01-03T00:00:00.000Z"
      "Referred to the House Committee on the Judiciary.";
    classified "calendar" "2019-01-10T00:00:00.000Z"
      "Placed on the Union Calendar, Calendar No. 12.";
    classified "action" "2019-01-11T00:00:00.000Z"
      "Sponsor introductory remarks";
    classified "vote" "2019-02-11T14:30:00.000Z"
      "On passage Passed by voice vote." ].

(** The status, its date and the number of actions of a record, or the
    exception. *)
Definition summary (r : result (bill_data * store))
    : result (jsval * jsval * nat) :=
  match r with
  | Ok r =>
      Ok (out_status (fst r), out_status_at (fst r), List.length (actions_of r))
  | Err e => Err e
  end.

(** A property of the history of a record. *)
Definition history_prop (r : result (bill_data * store)) (k : string)
    : result jsval :=
  match r with
  | Ok r => Ok (prop (out_history (fst r)) k)
  | Err e => Err e
  end.

(** A property of the history of a list of classified actions. *)
Definition history_of (actions : list (gmap string jsval)) (k : string)
    : result jsval :=
  match history_from_actions actions with
  | Ok h => Ok (prop h k)
  | Err e => Err e
  end.

End Examples.

(** ** Section 4.2 of the specification: the deduplicator *)

Module Dedup.
Import Js Bill.

Definition has_text (a : raw_action) : bool := truthy (of_opt (text a)).

Definition time_absent (a : raw_action) : bool :=
  negb (truthy (of_opt (actionTime a))).

Definition source_code (a : raw_action) : option string :=
  match sourceSystem a with
  | Some s => code s
  | None => None
  end.

(** "whitespace-stripped": without its white space. *)
Fixpoint strip_whitespace (s : string) : string :=
  match s with
  | EmptyString => EmptyString
  | String c s' =>
      if Regex.is_space c then strip_whitespace s'
      else String c (strip_whitespace s')
  end.

(** "reference-stripped": without the anchor tags of its links. *)
Definition reference_re : Regex.RegExp :=
  Eval vm_compute in regexp "<\/?[Aa]( \S.*?)?>" false I.

Definition strip_references (s : string) : string :=
  Regex.replace_all reference_re s "".

Definition stripped (a : raw_action) : string :=
  strip_whitespace (strip_references (default "" (text a))).

(** The text that the code compares on line 291: what [action_for] leaves
    of the text, without its first space. *)
Definition compared (a : raw_action) : string :=
  replace (Regex.replace_all Patterns.links_re (default "" (text a)) "") " " "".

(** Condition (b) of the specification, of an action [a] against the
    action [b] it is compared with; [norm] is the normalisation of the two
    texts. *)
Definition duplicate_of (norm : raw_action -> string) (a b : raw_action) : bool :=
  eqs (of_opt (source_code a)) "9"
  && bool_decide (actionDate a = actionDate b)
  && (bool_decide (actionTime a = actionTime b)
      || time_absent a || time_absent b)
  && endsWith (norm a) (norm b).

(** Whether the action at index [i] is dropped, when [baseline] picks the
    action to compare with among those that precede it in source order. *)
Definition dropped (norm : raw_action -> string)
    (baseline : list raw_action -> option raw_action)
    (items : list raw_action) (i : nat) (a : raw_action) : bool :=
  negb (has_text a)
  || match baseline (take i items) with
     | Some b => duplicate_of norm a b
     | None => false
     end.

(** The actions that are not dropped, reversed to oldest first. *)
Definition deduplicated (norm : raw_action -> string)
    (baseline : list raw_action -> option raw_action)
    (items : list raw_action) : list raw_action :=
  rev (List.map snd
         (List.filter (fun p => negb (dropped norm baseline items (fst p) (snd p)))
            (imap pair items))).

(** The baseline of the specification: the immediately preceding action. *)
Definition preceding (before : list raw_action) : option raw_action :=
  last before.

(** The baseline of the code: the nearest preceding action with a text. *)
Definition preceding_with_text (before : list raw_action) : option raw_action :=
  last (List.filter has_text before).

(** The actions on which the comparison runs without an exception: the
    source system is present and the date is one that [toISOString]
    accepts. *)
Definition comparable (toISOString : string -> option string)
    (a : raw_action) : bool :=
  match sourceSystem a with Some _ => true | None => false end
  && match toISOString (date_text a) with Some _ => true | None => false end.

(** Two actions of one day whose texts differ in their spacing only; the
    second is the Library of Congress copy. *)
Definition spaced_copy : list raw_action :=
  [ RawAction (Some "2019-01-03") None None
      (Some (SourceSystem (Some "2") (Some "House floor actions")))
      (Some "Referred to the Committee on Rules.");
    RawAction (Some "2019-01-03") None None
      (Some (SourceSystem (Some "9") (Some "Library of Congress")))
      (Some "Referred to the  Committee on Rules.") ].

(** Two actions of one day; the Library of Congress copy has a prefix. *)
Definition prefixed_copy : list raw_action :=
  [ RawAction (Some "2019-01-03") None None
      (Some (SourceSystem (Some "2") (Some "House floor actions")))
      (Some "Referred to the House Committee on the Judiciary.");
    RawAction (Some "2019-01-03") None None
      (Some (SourceSystem (Some "9") (Some "Library of Congress")))
      (Some "Introduced in House. Referred to the House Committee on the Judiciary.") ].

(** Two actions of one day; the Library of Congress copy drops the
    reference. *)
Definition linked_copy : list raw_action :=
  [ RawAction (Some "2019-01-03") None None
      (Some (SourceSystem (Some "2") (Some "House floor actions")))
      (Some "See <a>H.R.1</a>.");
    RawAction (Some "2019-01-03") None None
      (Some (SourceSystem (Some "9") (Some "Library of Congress")))
      (Some "See H.R.1.") ].

(** Two actions of one day with the same text. *)
Definition exact_copy : list raw_action :=
  [ RawAction (Some "2019-01-03") None None
      (Some (SourceSystem (Some "2") (Some "House floor actions")))
      (Some "Referred to the House Committee on the Judiciary.");
    RawAction (Some "2019-01-03") None None
      (Some (SourceSystem (Some "9") (Some "Library of Congress")))
      (Some "Referred to the House Committee on the Judiciary.") ].

(** Three actions of one day: the second has no text, the third is the
    Library of Congress copy of the first. *)
Definition with_empty_text : list raw_action :=
  [ RawAction (Some "2019-01-03") None (Some "1000")
      (Some (SourceSystem (Some "2") (Some "House floor actions")))
      (Some "Introduced");
    RawAction (Some "2019-01-03") (Some "10:00:00") None
      (Some (SourceSystem (Some "2") (Some "House floor actions")))
      (Some "");
    RawAction (Some "2019-01-03") (Some "09:00:00") (Some "Intro-H")
      (Some (SourceSystem (Some "9") (Some "Library of Congress")))
      (Some "Introduced") ].

End Dedup.

(** ** Section 4.3 of the specification: enactment by citation *)

Module Enactment.
Import Js Bill.

(** The action text of scenario C. *)
Definition law_text : string := "Became Public Law No: 116-123.".

(** The classified action: [type=enacted] and the law (kind, congress,
    number), which the code stores in the properties [law], [congress] and
    [number] of the action. *)
Definition law_action : gmap string jsval :=
  <["type" := JStr "enacted"]>
  (<["number" := JStr "123"]>
  (<["congress" := JStr "116"]>
  (<["law" := JStr "public"]> {[ "type" := JStr "action" ]}))).

(** The new status that the rule gives, [JUndef] for none: unchanged after
    any [ENACTED:*] value, [ENACTED:VETO_OVERRIDE] after [PROV_KILL:VETO] or
    a [VETOED:*] value, and otherwise no forced change. *)
Definition status_after_law (prev_status : string) : jsval :=
  if startsWith prev_status "ENACTED:" then JUndef
  else if String.eqb prev_status "PROV_KILL:VETO"
          || startsWith prev_status "VETOED:"
  then JStr "ENACTED:VETO_OVERRIDE"
  else JUndef.

End Enactment.

(** ** Section 4.4 of the specification: the title classifier *)

Module Titles.
Import Js Bill.

Definition portion_suffix : string := " for portions of this bill".

(** [Kind] to [type], by substring match; [None] is UnknownTitleType. *)
Definition kind_type (kind : string) : option string :=
  if includes kind "Popular Title" then Some "popular"
  else if includes kind "Short Title" then Some "short"
  else if includes kind "Official Title" then Some "official"
  else if includes kind "Display Title" then Some "display"
  else if String.eqb kind "Non-bill-report" then Some "nonbillreport"
  else None.

(** The first [n] characters. *)
Fixpoint prefix (n : nat) (s : string) : string :=
  match n, s with
  | S k, String c s' => String c (prefix k s')
  | _, _ => EmptyString
  end.

(** [s] without its suffix [p], when it ends with it. *)
Definition without_suffix (s p : string) : string :=
  if endsWith s p then prefix (String.length s - String.length p) s else s.

(** The [as] field in the words of the specification: the qualifier
    without the portion suffix, without a trailing colon, lower-cased. *)
Definition title_as (qualifier : string) : string :=
  toLowerCase (without_suffix (without_suffix qualifier portion_suffix) ":").

(** The number of places of [s] at which [pat] occurs. *)
Fixpoint occurrences (s pat : string) : nat :=
  (if startsWith s pat then 1 else 0)
  + match s with
    | EmptyString => 0
    | String _ s' => occurrences s' pat
    end.

Definition at_most_once (s pat : string) : bool :=
  Nat.leb (occurrences s pat) 1.

(** [s] without its colons. *)
Fixpoint without_colons (s : string) : string :=
  match s with
  | EmptyString => EmptyString
  | String c s' =>
      if Ascii.eqb c ":" then without_colons s' else String c (without_colons s')
  end.

(** The [as] field of the amended claim: the qualifier without the portion
    suffix, without its colon wherever it stands, lower-cased. *)
Definition amended_as (qualifier : string) : string :=
  toLowerCase (without_colons (without_suffix qualifier portion_suffix)).

(** The [as] field as the code computes it: the first occurrence of the
    portion text is removed when the qualifier ends with it, then the first
    colon is removed. *)
Definition code_as (qualifier : string) : string :=
  toLowerCase
    (replace (if endsWith qualifier portion_suffix
              then replace qualifier portion_suffix ""
              else qualifier) ":" "").

(** The pieces of a label: around [" as "] if it occurs, else around
    [" on "]. *)
Definition pieces (label : string) : list string :=
  if includes label " as " then split label " as " else split label " on ".

(** The kind of a label: its first piece when it splits into a kind and a
    qualifier, else the whole label. *)
Definition kind_of (label : string) : string :=
  match pieces label with
  | [kind; _] => kind
  | _ => label
  end.

(** The title object. *)
Definition title_object (title : option string) (is_for_portion : bool)
    (state : jsval) (type : string) : gmap string jsval :=
  <["title" := of_opt title]>
  (<["is_for_portion" := JBool is_for_portion]>
  (<["as" := state]>
  (<["type" := JStr type]> ∅))).

(** [pat] does not occur in [body +:+ pat] before its end. *)
Fixpoint only_at_end (body pat : string) : bool :=
  match body with
  | EmptyString => true
  | String _ body' => negb (startsWith (body +:+ pat) pat) && only_at_end body' pat
  end.

End Titles.

(** ** Captures that a match always binds *)

Module Captures.
Import Regex.

Definition mentions (i : nat) (gs : list nat) : bool := existsb (Nat.eqb i) gs.

(** The groups that every match of [r] binds: the groups on its spine, not
    under an alternative or an optional part, and not cleared by a
    quantified part that follows. *)
Fixpoint mandatory (r : regex) : list nat :=
  match r with
  | RSeq r1 r2 =>
      List.filter (fun i => negb (mentions i (groups_of r2))) (mandatory r1)
      ++ mandatory r2
  | RRepeat min max _ r1 =>
      if Nat.eqb min 0 then []
      else match max with Some O => [] | _ => mandatory r1 end
  | RGroup i r1 => i :: mandatory r1
  | _ => []
  end.

(** [m[i]] is not [undefined]. *)
Definition bound (i : nat) (x : mstate) : bool :=
  existsb (fun p => Nat.eqb (fst p) i) (m_caps x).

Definition binds (re : RegExp) (i : nat) : bool :=
  mentions i (mandatory (pattern re)).

(** What a matcher guarantees about the state it hands to its
    continuation: the groups outside [gs] stay bound, the groups of [mand]
    are bound. *)
Definition binding (gs mand : list nat)
    (m : mstate -> (mstate -> option mstate) -> option mstate) : Prop :=
  forall x k z, m x k = Some z ->
    exists y, k y = Some z
      /\ (forall i, bound i x = true -> mentions i gs = false -> bound i y = true)
      /\ (forall i, In i mand -> bound i y = true).

End Captures.

(** ** Outcomes of the classifier *)

Module Outcome.
Import Js Bill.

(** A rule that never throws. *)
Definition total (r : context -> locals -> result locals) : Prop :=
  forall c l, exists l', r c l = Ok l'.

(** The rules of the cascade before and after the discharge rule. *)
Definition rules_before : list (context -> locals -> result locals) :=
  [ rule_house_vote; rule_house_pursuant; rule_house_table; rule_senate_vote;
    rule_calendar; rule_reported; rule_reported_senate; rule_hearings ].

Definition rules_after : list (context -> locals -> result locals) :=
  [ rule_topresident; rule_signed; rule_vetoed; rule_archivist; rule_enacted;
    rule_referral ].

(** An action object whose text is a committee discharge. *)
Definition discharge_action : gmap string jsval :=
  {[ "text" := JStr "Committee on the Judiciary. Discharged by Unanimous Consent." ]}.

(** The text of an action as [action_for] cleans it. *)
Definition clean_text (item : raw_action) : string :=
  Regex.replace_all Patterns.links_re (default "" (text item)) "".

(** The actions on which [parse_bill_action] throws a TypeError. *)
Definition discharge (item : raw_action) : bool :=
  negb (Regex.test Patterns.amdt_re (clean_text item))
  && Regex.test Patterns.discharged_re (clean_text item).

(** The actions whose date [toISOString] accepts. *)
Definition dated (toISOString : string -> option string) (item : raw_action)
    : bool :=
  match toISOString (date_text item) with Some _ => true | None => false end.

(** A bill that is referred to a committee and discharged from it, newest
    action first. *)
Definition discharged_bill : list raw_action :=
  [ Examples.act "2019-02-01" None "1"
      "Committee on the Judiciary. Discharged by Unanimous Consent.";
    Examples.act "2019-01-03" None "1"
      "Referred to the House Committee on the Judiciary." ].

End Outcome.

(** ** The shape of a classified action *)

Module Shape.
Import Js Bill.

(** The properties that the rules of [parse_bill_action] write into the
    [action] object. *)
Definition classifier_keys : list string :=
  [ "type"; "vote_type"; "how"; "where"; "result"; "suspension"; "roll";
    "committee"; "pocket"; "law"; "congress"; "number" ].

Definition foreign (k : string) : bool :=
  negb (existsb (String.eqb k) classifier_keys).

(** The values that the rules give to [action["type"]], other than
    "discharged", and the initial "action". *)
Definition action_types : list string :=
  [ "action"; "vote"; "vote-aux"; "calendar"; "reported"; "hearings";
    "topresident"; "signed"; "vetoed"; "enacted"; "referral" ].

Definition typed (a : gmap string jsval) : bool :=
  match a !! "type" with
  | Some (JStr t) => existsb (String.eqb t) action_types
  | _ => false
  end.

(** The statuses that the rules and [new_status_after_vote] assign. *)
Definition statuses : list string :=
  [ "PASSED:SIMPLERES"; "PASS_OVER:HOUSE"; "PASS_OVER:SENATE";
    "PROV_KILL:SUSPENSIONFAILED"; "FAIL:ORIGINATING:HOUSE";
    "FAIL:ORIGINATING:SENATE"; "PASS_BACK:HOUSE"; "PASS_BACK:SENATE";
    "PASSED:CONSTAMEND"; "PASSED:CONCURRENTRES"; "PASSED:BILL";
    "PROV_KILL:PINGPONGFAIL"; "FAIL:SECOND:HOUSE"; "FAIL:SECOND:SENATE";
    "PROV_KILL:CLOTUREFAILED"; "VETOED:OVERRIDE_FAIL_ORIGINATING:HOUSE";
    "VETOED:OVERRIDE_FAIL_ORIGINATING:SENATE";
    "VETOED:OVERRIDE_FAIL_SECOND:HOUSE"; "VETOED:OVERRIDE_FAIL_SECOND:SENATE";
    "VETOED:OVERRIDE_PASS_OVER:HOUSE"; "VETOED:OVERRIDE_PASS_OVER:SENATE";
    "ENACTED:VETO_OVERRIDE"; "CONFERENCE:PASSED:HOUSE";
    "CONFERENCE:PASSED:SENATE"; "REPORTED"; "ENACTED:SIGNED"; "VETOED:POCKET";
    "PROV_KILL:VETO"; "ENACTED:TENDAYRULE"; "REFERRED" ].

(** A status of the list, or [undefined]. *)
Definition status_ok (v : jsval) : bool :=
  match v with
  | JUndef => true
  | JStr s => existsb (String.eqb s) statuses
  | _ => false
  end.

(** The fields of a vote: absent together, or a chamber, a vote type and a
    result of the vocabularies of the vote rules. *)
Definition vote_fields (a : gmap string jsval) : bool :=
  match a !! "where", a !! "vote_type", a !! "result" with
  | None, None, None => true
  | Some (JStr w), Some (JStr vt), Some (JStr r) =>
      existsb (String.eqb w) ["h"; "s"]
      && existsb (String.eqb vt)
           ["vote"; "vote2"; "pingpong"; "conference"; "override"; "cloture"]
      && existsb (String.eqb r) ["pass"; "fail"]
  | _, _, _ => false
  end.

(** An [action] object whose type is not "referral". *)
Definition not_referral (a : gmap string jsval) : Prop :=
  a !! "type" <> Some (JStr "referral").

(** A rule that keeps a property of the variable [status]. *)
Definition keeps_status (P : jsval -> Prop)
    (r : context -> locals -> result locals) : Prop :=
  forall c l l', r c l = Ok l' -> P (v_status l) -> P (v_status l').

(** A rule that keeps a property of the [action] object. *)
Definition keeps (P : gmap string jsval -> Prop)
    (r : context -> locals -> result locals) : Prop :=
  forall c l l', r c l = Ok l' -> P (v_action l) -> P (v_action l').

End Shape.

(** ** The history summary *)

Module History.
Import Js Bill.

(** The votes that [history_from_actions] records: the key of the result
    and the filter that selects the votes. *)
Definition votes : list (string * (gmap string jsval -> bool)) :=
  [ ("house_passage_result", is_vote "h" false);
    ("senate_passage_result", is_vote "s" false);
    ("senate_cloture_result", is_cloture);
    ("house_override_result", is_vote "h" true);
    ("senate_override_result", is_vote "s" true) ].

(** The flags that it records, with the type of the actions that set them. *)
Definition flags : list (string * string) :=
  [ ("vetoed", "vetoed"); ("enacted", "enacted") ].

(** The records of [history_from_actions] between the activation and the
    signature, on the history [h] built so far. *)
Definition records (actions : list (gmap string jsval))
    (h : gmap string jsval) : gmap string jsval :=
  record_flag "enacted" (filter_pop (type_is "enacted") actions)
  (record_vote "senate_override_result" (filter_pop (is_vote "s" true) actions)
  (record_vote "house_override_result" (filter_pop (is_vote "h" true) actions)
  (record_flag "vetoed" (filter_pop (type_is "vetoed") actions)
  (record_vote "senate_cloture_result" (filter_pop is_cloture actions)
  (record_vote "senate_passage_result" (filter_pop (is_vote "s" false) actions)
  (record_vote "house_passage_result" (filter_pop (is_vote "h" false) actions)
     h)))))).

End History.

(** ** The titles of a bill *)

Module TitleList.
Import Js Bill.

(** The codes that [build_dict] of [titles_for] gives to [type]. *)
Definition title_types : list string :=
  [ "popular"; "short"; "official"; "display"; "nonbillreport" ].

(** The title objects of type [ty]. *)
Definition of_type (ty : string) (t : gmap string jsval) : bool :=
  eqs (prop t "type") ty.

(** The titles of a bill with two short titles. *)
Definition two_short_titles : list raw_title :=
  [ RawTitle (Some "Short Titles as Introduced") (Some "First Act");
    RawTitle (Some "Official Title as Introduced") (Some "To do things.");
    RawTitle (Some "Short Titles as Passed House") (Some "Second Act");
    RawTitle (Some "Display Title") (Some "H.R. 1") ].

End TitleList.

(** ** The sitemap differ (src/tasks/processBillTypeUpdate.js)

    The task compares the sitemap of one bill type on the server with the
    copy in the bucket and queues the entries that are new or changed. *)

Module Sitemap.
Import Js.

Definition BILL_TYPES : list string :=
  [ "hres"; "hconres"; "hr"; "hjres"; "sres"; "sjres"; "s"; "sconres" ].

Definition invalid_record (bill_type : jsval) : jserror :=
  Thrown 400 ("Invalid record: " +:+ str_of bill_type).

(** [BILL_TYPES.indexOf] compares with strict equality: only a string can
    be found. *)
Definition validateRecord (congress bill_type : jsval) : result unit :=
  if negb (truthy congress) || negb (truthy bill_type)
     || negb (existsb (eqs bill_type) BILL_TYPES)
  then Err (invalid_record bill_type)
  else Ok tt.

(** A [url] element of a sitemap as xml2js returns it: under the name of
    each child the array of the texts of its occurrences, absent when the
    element has no such child. *)
Record url_node := UrlNode {
  loc_node : option (list string);
  lastmod_node : option (list string)
}.

(** An entry of a sitemap as [transformIndex] returns it: [loc] is the text
    that was matched, [lastmod] what [pop] returned, [undefined] for an
    empty array. *)
Record index := Index {
  loc : string;
  lastmod : option string;
  ix_congress : jsval;
  ix_bill_type : jsval;
  ix_number : option string
}.

(** The source of the pattern of [fetchValidIndexes], as the template
    literal evaluates it. *)
Definition index_source (congress bill_type : string) : string :=
  "https:\/\/www\.govinfo\.gov\/bulkdata\/BILLSTATUS\/" +:+ congress +:+ "/"
  +:+ bill_type +:+ "/BILLSTATUS-" +:+ congress +:+ bill_type
  +:+ "([0-9]+).xml".

(** [new RegExp(source)], without flags; [None] when [Regex.parse] does
    not read the source. *)
Definition index_re (congress bill_type : string) : option Regex.RegExp :=
  option_map (fun p => Regex.MkRegExp p false)
    (Regex.parse (index_source congress bill_type)).

(** The two filters of [fetchValidIndexes]: a [loc] with an entry, the
    first of which the pattern finds. *)
Definition valid_index (re : Regex.RegExp) (u : url_node) : bool :=
  match loc_node u with
  | Some (first :: _) => Regex.test re first
  | _ => false
  end.

(** [matches.length]: the whole match and one entry per capturing group. *)
Definition matches_length (re : Regex.RegExp) : nat :=
  S (List.length (Regex.groups_of (Regex.pattern re))).

Definition transformIndex (u : url_node) (re : Regex.RegExp)
    (congress bill_type : string) : result index :=
  loc <- match loc_node u with
         | Some locNode => Ok (last locNode)
         | None => Err TypeError
         end ;;
  lastmod <- match lastmod_node u with
             | Some lastmodNode => Ok (last lastmodNode)
             | None => Err TypeError
             end ;;
  match loc with
  | Some loc =>
      match Regex.exec re loc with
      | Some matches =>
          if Nat.leb 2 (matches_length re)
          then Ok (Index loc lastmod (JStr congress) (JStr bill_type)
                     (Regex.group matches 1))
          else Ok (Index loc lastmod JUndef JUndef None)
      | None => Err TypeError
      end
  | None => Err TypeError
  end.

(** [fetchValidIndexes(congress, bill_type, sitemap)]; the congress and the
    bill type are the strings of the queue record.  The sitemap is the
    array under [url], [None] when the sitemap is [undefined] or has no
    such key.  The result is [None] when [Regex.parse] does not read the
    source: [new RegExp] throws a SyntaxError, or the pattern is outside the
    supported subset. *)
Definition fetchValidIndexes (congress bill_type : string)
    (sitemap : option (list url_node)) : option (result (list index)) :=
  let indexes := default [] sitemap in
  match index_re congress bill_type with
  | Some re =>
      let validIndexes := List.filter (valid_index re) indexes in
      Some (map_index (fun u _ => transformIndex u re congress bill_type) 0
              validIndexes)
  | None => None
  end.

(** [a !== b] for two values that are strings or [undefined]. *)
Definition differ (a b : option string) : bool :=
  match a, b with
  | Some x, Some y => negb (String.eqb x y)
  | None, None => false
  | _, _ => true
  end.

(** The test of the loop of [processIndexUpdates]: no local entry has the
    [loc], or the last one that has it differs in [lastmod]. *)
Definition needs_update (local : list index) (serverIndex : index) : bool :=
  match filter_pop (fun i => String.eqb (loc i) (loc serverIndex)) local with
  | Some localIndex => differ (lastmod localIndex) (lastmod serverIndex)
  | None => true
  end.

(** The array [updates] when the loop ends. *)
Definition updates_for (server local : list index) : list index :=
  List.filter (needs_update local) server.

Record entry := Entry {
  Id : string;
  MessageBody : string
}.

(** The queue: the batches that it received, oldest first. *)
Abbreviation queue := (list (list entry)).

Section Queue.
(** [crypto.createHash('md5').update(s).digest("hex")] and [JSON.stringify]. *)
Variable md5_hex : string -> string.
Variable stringify : index -> string.
(** The answer of the queue service to a batch: [None] when it accepts it,
    or the error that rejects the promise. *)
Variable rejected : list entry -> option jserror.

Definition createSQSEntry (i : index) : entry :=
  Entry (md5_hex (loc i)) (stringify i).

Definition sendMessageBatch (entries : list entry) (q : queue) : result queue :=
  match rejected entries with
  | Some e => Err e
  | None => Ok (q ++ [entries])%list
  end.

(** [keys.slice(from, to)] for [from <= to]. *)
Definition slice {A} (from to : nat) (l : list A) : list A :=
  take (to - from) (List.skipn from l).

(** [queueIndexUpdates(keys, batch)]; the fuel bounds the recursive calls,
    [None] is a run that needs more. *)
Fixpoint queue_batches (fuel : nat) (keys : list index) (batch : nat)
    (q : queue) : option (result queue) :=
  match fuel with
  | O => None
  | S fuel' =>
      let entries :=
        List.map createSQSEntry (slice (batch * 10) (batch * 10 + 10) keys) in
      if Nat.ltb 0 (List.length entries) then
        match sendMessageBatch entries q with
        | Err e => Some (Err e)
        | Ok q' =>
            if Nat.ltb (batch * 10 + 10) (List.length keys)
            then queue_batches fuel' keys (batch + 1) q'
            else Some (Ok q')
        end
      else Some (Ok q)
  end.

Definition queueIndexUpdates (keys : list index) (q : queue)
    : option (result queue) :=
  queue_batches (S (List.length keys)) keys 0 q.

Definition processIndexUpdates (server local : list index) (q : queue)
    : option (result queue) :=
  let updates := updates_for server local in
  if Nat.ltb 0 (List.length updates) then queueIndexUpdates updates q
  else Some (Ok q).

End Queue.

(** A sample of the two platform functions, for running examples. *)
Definition sample_md5 (s : string) : string := "md5:" +:+ s.
Definition sample_stringify (i : index) : string :=
  loc i +:+ "@" +:+ to_string (lastmod i).

(** Twenty-five entries of one sitemap. *)
Definition sample_index (n : nat) : index :=
  Index ("BILLSTATUS-116hr" +:+ pretty n +:+ ".xml") (Some "2019-01-03T00:00:00Z")
    (JStr "116") (JStr "hr") (Some (pretty n)).

Definition sample_sitemap : list index := List.map sample_index (seq 1 25).

End Sitemap.

(** ** Shapes of the parts of a bill id *)

Module Ids.
Import Js.

(** A non-empty string of decimal digits. *)
Definition digits (s : string) : bool :=
  negb (String.eqb s "") && forallb Regex.is_digit (list_ascii_of_string s).

(** A non-empty string of lower-case letters. *)
Definition lower_letters (s : string) : bool :=
  negb (String.eqb s "") && forallb is_lower (list_ascii_of_string s).

(** A non-empty string of letters of either case. *)
Definition letters (s : string) : bool :=
  negb (String.eqb s "")
  && forallb (fun c => is_lower c || is_upper c) (list_ascii_of_string s).

End Ids.

(** ** Related bills (transformBill.js) *)

Module Related.
Import Js Bill.

(** An [item] of [relationshipDetails] and an [item] of [relatedBills],
    after xml2js and [transformNode]. *)
Record raw_detail := RawDetail {
  detail_type : option string;
  identifiedBy : option string
}.

Record raw_related := RawRelated {
  rel_congress : option string;
  rel_number : option string;
  rel_type : option string;
  relationshipDetails : list raw_detail
}.

(** [String.prototype.trim], on the white space of ASCII. *)
Fixpoint trim_start (s : string) : string :=
  match s with
  | String c s' => if Regex.is_space c then trim_start s' else s
  | EmptyString => EmptyString
  end.

Definition trim (s : string) : string :=
  string_of_rev
    (list_ascii_of_string
       (trim_start (string_of_rev (list_ascii_of_string (trim_start s))))).

(** [`${type.replace(".","").toLowerCase()}${number}-${congress}`] *)
Definition related_bill_id (item : raw_related) : result string :=
  type <- as_string (of_opt (rel_type item)) ;;
  Ok (toLowerCase (replace type "." "") +:+ to_string (rel_number item)
      +:+ "-" +:+ to_string (rel_congress item)).

(** [build_dict] of [related_bills_for]; [pop] takes the last detail. *)
Definition related_dict (item : raw_related) : result (gmap string jsval) :=
  match last (relationshipDetails item) with
  | None =>
      bill_id <- related_bill_id item ;;
      Ok (<["type" := JStr "bill"]> (<["bill_id" := JStr bill_id]> ∅))
  | Some detail =>
      relationship_type <- as_string (of_opt (detail_type detail)) ;;
      let reason := toLowerCase (trim (replace relationship_type "bill" "")) in
      bill_id <- related_bill_id item ;;
      Ok (<["identified_by" := of_opt (identifiedBy detail)]>
          (<["type" := JStr "bill"]>
          (<["bill_id" := JStr bill_id]>
          (<["reason" := JStr reason]> ∅))))
  end.

Definition related_bills_for (items : list raw_related)
    : result (list (gmap string jsval)) :=
  map_index (fun item _ => related_dict item) 0 items.

(** A related bill of the feed. *)
Definition companion : raw_related :=
  RawRelated (Some "116") (Some "47") (Some "S")
    [ RawDetail (Some "Related bill") (Some "CRS");
      RawDetail (Some "Identical bill") (Some "House") ].

End Related.

(** ** The document tree of xml2js and [transformNode] *)

Module Xml.
Import Js.

(** A value of the tree that [xml2js.parseStringPromise] returns: a text,
    an array, or an object with its properties in order. *)
Inductive node :=
| Text (s : string)
| Arr (l : list node)
| Obj (o : list (string * node))
| Undef.

(** [res[key] = res[key].pop()] for an array with one element; any other
    value stays ([transformNode()] without an argument does nothing). *)
Definition unwrap (v : node) : node :=
  match v with
  | Arr [x] => x
  | _ => v
  end.

(** The loop runs over the properties of an object and the indices of an
    array; the characters of a text are not arrays, and [undefined] has no
    property.  The function returns its argument, updated in place. *)
Definition transformNode (res : node) : node :=
  match res with
  | Obj o => Obj (List.map (fun kv => (fst kv, unwrap (snd kv))) o)
  | Arr l => Arr (List.map unwrap l)
  | Text _ | Undef => res
  end.

(** [res[key]]: the first property of that name. *)
Definition field (res : node) (key : string) : node :=
  match res with
  | Obj o =>
      match List.find (fun kv => String.eqb (fst kv) key) o with
      | Some kv => snd kv
      | None => Undef
      end
  | _ => Undef
  end.

(** The trees of xml2js with [explicitArray] (its default) and without
    attributes: a text, or an object each of whose properties is the
    non-empty array of the children of that name. *)
Fixpoint is_tree (n : node) : bool :=
  match n with
  | Text _ => true
  | Obj o =>
      forallb (fun kv =>
                 match snd kv with
                 | Arr l => negb (Nat.eqb (List.length l) 0) && forallb is_tree l
                 | _ => false
                 end) o
  | _ => false
  end.

(** The [item] of an action as xml2js returns it. *)
Definition action_item : node :=
  Obj [ ("actionDate", Arr [Text "2019-01-03"]);
        ("text", Arr [Text "Introduced in House"]);
        ("sourceSystem",
           Arr [Obj [("code", Arr [Text "9"]);
                     ("name", Arr [Text "Library of Congress"])]]);
        ("committees", Arr [Obj [("item", Arr [Text "a"; Text "b"])]]);
        ("links", Arr [Text "x"; Text "y"]) ].

End Xml.

(** ** The keys of the bucket *)

Module Keys.
Import Js.

(** [isValidKey] of transformBill.js: [key && !key.endsWith("sitemap.xml")].
    The value is the key itself when it is falsy. *)
Definition isValidKey (key : jsval) : result jsval :=
  if truthy key then
    s <- as_string key ;;
    Ok (JBool (negb (endsWith s "sitemap.xml")))
  else Ok key.

(** The key of [updateSitemap] (processBillTypeUpdate.js). *)
Definition sitemap_key (congress bill_type : string) : string :=
  "congress/" +:+ congress +:+ "/" +:+ bill_type +:+ "/sitemap.xml".

(** The key of [updateBill] (processBillUpdate.js), where the bill's status
    file is stored. *)
Definition bill_key (congress billType billNumber : string) : string :=
  "congress/" +:+ congress +:+ "/" +:+ toLowerCase billType +:+ "/"
  +:+ billNumber +:+ ".xml".

(** The key of [createBillJSON] (transformBill.js). *)
Definition json_key (congress bill_type number : string) : string :=
  "congress/" +:+ congress +:+ "/" +:+ bill_type +:+ "/" +:+ number +:+ ".json".

End Keys.

(** ** Shapes of action texts *)

Module Texts.
Import Js Regex.

(** The pattern of a literal text followed by [r]. *)
Fixpoint lits (cs : list ascii) (r : regex) : regex :=
  match cs with
  | [] => r
  | c :: cs' => RSeq (RChar c) (lits cs' r)
  end.

(** A pattern each of whose parts may match nothing. *)
Fixpoint optional (r : regex) : bool :=
  match r with
  | REmpty => true
  | RRepeat O _ _ _ => true
  | RSeq (RRepeat O _ _ _) r2 => optional r2
  | _ => false
  end.

(** [l] starts with the words, compared as the [i] flag compares. *)
Fixpoint starts_with (ci : bool) (words l : list ascii) : bool :=
  match words, l with
  | [], _ => true
  | w :: words', c :: l' => char_eq ci w c && starts_with ci words' l'
  | _ :: _, [] => false
  end.

(** [l] contains the words. *)
Fixpoint mentions (ci : bool) (words l : list ascii) : bool :=
  starts_with ci words l
  || match l with
     | [] => false
     | _ :: l' => mentions ci words l'
     end.

(** The text says "Referred to ", in any letter case. *)
Definition says_referred (text : string) : bool :=
  mentions true (list_ascii_of_string "Referred to ") (list_ascii_of_string text).

(** The text starts with an amendment number: H or S, ".Amdt." and a digit,
    in any letter case. *)
Definition amendment (text : string) : bool :=
  match list_ascii_of_string text with
  | c1 :: rest =>
      (char_eq true "H" c1 || char_eq true "S" c1)
      && starts_with true (list_ascii_of_string ".Amdt.") rest
      && match List.skipn 6 rest with
         | d :: _ => is_digit d
         | [] => false
         end
  | [] => false
  end.

(** A text without a line terminator. *)
Definition one_line (s : string) : bool :=
  forallb (fun c => negb (is_line_terminator c)) (list_ascii_of_string s).

(** The text of a discharge of the committee [name]. *)
Definition discharge_text (pre name post : string) : string :=
  pre +:+ "Committee on " +:+ name +:+ ". Discharged " +:+ post.

End Texts.

(** ** Sources of patterns built at run time *)

Module Sources.
Import Js Regex.

(** A character that [parse] reads as itself. *)
Definition plain (c : ascii) : bool :=
  negb (existsb (Ascii.eqb c)
          ["^"; "$"; "."; "\"; "["; "("; ")"; "*"; "+"; "?"; "{"; "|"]%char).

Definition plain_text (s : string) : bool :=
  forallb plain (list_ascii_of_string s).

(** What follows does not quantify the atom before it. *)
Definition unquantified (s : list ascii) : bool :=
  match s with
  | c :: _ => negb (existsb (Ascii.eqb c) ["*"; "+"; "?"; "{"]%char)
  | [] => true
  end.

(** The text that a source of plain characters and escaped punctuation
    stands for. *)
Fixpoint unescape (s : list ascii) : option (list ascii) :=
  match s with
  | [] => Some []
  | "\"%char :: e :: rest =>
      if is_word e then None else option_map (cons e) (unescape rest)
  | a :: rest => if plain a then option_map (cons a) (unescape rest) else None
  end.

(** The text before the number in the address of a bill status file. *)
Definition index_text (congress bill_type : string) : string :=
  "https://www.govinfo.gov/bulkdata/BILLSTATUS/" +:+ congress +:+ "/"
  +:+ bill_type +:+ "/BILLSTATUS-" +:+ congress +:+ bill_type.

(** The address of the bill status file of a bill. *)
Definition index_url (congress bill_type number : string) : string :=
  index_text congress bill_type +:+ number +:+ ".xml".

(** The end of the pattern of [fetchValidIndexes]. *)
Definition index_tail_src : string := "([0-9]+).xml".

Definition index_tail : regex :=
  Eval vm_compute in Regex.the (Regex.parse index_tail_src) I.

(** A node that passes the filters and on which [transformIndex] throws:
    it has no [lastmod], or the pattern does not find its last [loc]. *)
Definition broken (re : RegExp) (u : Sitemap.url_node) : bool :=
  match Sitemap.lastmod_node u with
  | None => true
  | Some _ =>
      match Sitemap.loc_node u with
      | Some locNode =>
          match last locNode with
          | Some loc => negb (Regex.test re loc)
          | None => true
          end
      | None => true
      end
  end.

End Sources.

(** * Properties *)

(** Inversion of a computation that did not throw. *)
Ltac inv_ok :=
  repeat match goal with
  | H : Js.Ok _ = Js.Ok _ |- _ => injection H as <-
  | H : Js.Err _ = Js.Ok _ |- _ => discriminate H
  | H : Js.bind ?r _ = Js.Ok _ |- _ =>
      let E := fresh "E" in destruct r eqn:E; cbn [Js.bind] in H; [|discriminate H]
  | H : (if ?b then _ else _) = Js.Ok _ |- _ => destruct b eqn:?
  | H : (let '(_, _) := ?p in _) = Js.Ok _ |- _ => destruct p eqn:?
  | H : match ?x with _ => _ end = Js.Ok _ |- _ => destruct x eqn:?
  end.

Section Basics.
Import Js.

Lemma is_ok_eq {A} (d : A) (r : result A) : is_ok r = true -> r = Ok (ok_or d r).
Proof. by destruct r. Qed.

Lemma last_default {A} (d : A) (l : list A) :
  Nat.ltb 0 (List.length l) = true -> last l = Some (default d (last l)).
Proof.
  destruct l as [|a l] using rev_ind; [done|]. intros _. by rewrite last_snoc.
Qed.

End Basics.

(** ** The matcher on the examples of the ECMAScript specification *)

Section MatcherExamples.
Import Regex.

(** The captures of a quantified group are reset at each iteration
    (the note on RepeatMatcher). *)
Example exec_resets_captures :
  (fun m => (whole m, List.map (group m) [1; 2; 3; 4; 5]))
    <$> exec (regexp "(z)((a+)?(b+)?(c))*" false I) "zaacbbbcac"
  = Some ("zaacbbbcac", [Some "z"; Some "ac"; Some "a"; None; Some "c"]).
Proof. vm_compute. reflexivity. Qed.

(** An iteration that matches the empty string is not taken. *)
Example exec_rejects_empty_iteration :
  (fun m => (whole m, group m 1)) <$> exec (regexp "(a*)*" false I) "b"
  = Some ("", None).
Proof. vm_compute. reflexivity. Qed.

(** Alternatives are tried in order, and a lazy quantifier takes the
    shortest run that lets the rest match. *)
Example exec_ordered_choice :
  whole <$> exec (regexp "a|ab" false I) "abc" = Some "a"
  /\ (fun m => group m 1) <$> exec (regexp "<(.*?)>" false I) "<a><b>"
     = Some (Some "a")
  /\ (fun m => group m 1) <$> exec (regexp "<(.*)>" false I) "<a><b>"
     = Some (Some "a><b").
Proof. split_and!; vm_compute; reflexivity. Qed.

(** The [i] flag compares letters without their case, also in a class. *)
Example exec_ignore_case :
  whole <$> exec (regexp "[a-c]+d" true I) "xABcDy" = Some "ABcD"
  /\ whole <$> exec (regexp "[a-c]+d" false I) "xABcDy" = None.
Proof. split; vm_compute; reflexivity. Qed.

End MatcherExamples.

(** ** The matcher: the fuel of a quantifier *)

Section MatcherFuel.
Import Js Regex.

Lemma one_char_forward N p : forward N (one_char p).
Proof.
  intros x k k' Hx Hk. unfold one_char.
  destruct (m_rest x) as [|ch rest] eqn:E; [done|].
  destruct (p ch); [|done]. apply Hk; unfold wf, advance in *; cbn.
  - rewrite E in Hx. cbn in Hx. lia.
  - lia.
Qed.

Lemma repeat_loop_forward N m1 gs greedy :
  forward N m1 ->
  forall fuel min max x c c', wf N x ->
    (forall y, wf N y -> m_pos x <= m_pos y -> c y = c' y) ->
    repeat_loop m1 gs greedy c fuel min max x
    = repeat_loop m1 gs greedy c' fuel min max x.
Proof.
  intros Hm1 fuel. induction fuel as [|fuel IH]; intros min max x c c' Hx Hc; [done|].
  cbn [repeat_loop].
  assert (c x = c' x) as Hcx by (apply Hc; [done|lia]).
  assert (m1 (clear_caps gs x)
            (fun y => if Nat.eqb min 0 && Nat.eqb (m_pos y) (m_pos x) then None
                      else repeat_loop m1 gs greedy c fuel (Nat.pred min)
                             (option_map Nat.pred max) y)
          = m1 (clear_caps gs x)
            (fun y => if Nat.eqb min 0 && Nat.eqb (m_pos y) (m_pos x) then None
                      else repeat_loop m1 gs greedy c' fuel (Nat.pred min)
                             (option_map Nat.pred max) y)) as Hm.
  { apply Hm1; [done|]. intros y Hy Hxy.
    destruct (_ && _); [done|]. apply IH; [done|].
    intros z Hz Hyz. apply Hc; [done|]. cbn in Hxy. lia. }
  destruct max as [[|max]|]; [done| |]; rewrite Hm, Hcx; done.
Qed.

Lemma rmatch_forward ci N r : forward N (rmatch ci r).
Proof.
  induction r as [| | | |r1 IH1 r2 IH2|r1 IH1 r2 IH2|min max greedy r1 IH1|i r1 IH1| |];
    intros x k k' Hx Hk; cbn [rmatch].
  - apply Hk; [done|lia].
  - by apply (one_char_forward N).
  - by apply (one_char_forward N).
  - by apply (one_char_forward N).
  - apply IH1; [done|]. intros y Hy Hxy. apply IH2; [done|].
    intros z Hz Hyz. apply Hk; [done|lia].
  - rewrite (IH1 x k k'), (IH2 x k k'); done.
  - by apply (repeat_loop_forward N).
  - apply IH1; [done|]. intros y Hy Hxy. apply Hk; [done|done].
  - destruct (Nat.eqb (m_pos x) 0); [|done]. apply Hk; [done|lia].
  - destruct (m_rest x); [|done]. apply Hk; [done|lia].
Qed.

(** The loop of a quantifier does not depend on its fuel, once the fuel
    covers the required iterations and one iteration per remaining
    character: the bound that [rmatch] passes never runs out. *)
Lemma repeat_loop_fuel N m1 gs greedy c :
  forward N m1 ->
  forall fuel fuel' min max x, wf N x ->
    min + List.length (m_rest x) + 1 <= fuel -> fuel <= fuel' ->
    repeat_loop m1 gs greedy c fuel min max x
    = repeat_loop m1 gs greedy c fuel' min max x.
Proof.
  intros Hm1 fuel. induction fuel as [|fuel IH]; intros fuel' min max x Hx Hf Hf'; [lia|].
  destruct fuel' as [|fuel']; [lia|]. cbn [repeat_loop].
  assert (m1 (clear_caps gs x)
            (fun y => if Nat.eqb min 0 && Nat.eqb (m_pos y) (m_pos x) then None
                      else repeat_loop m1 gs greedy c fuel (Nat.pred min)
                             (option_map Nat.pred max) y)
          = m1 (clear_caps gs x)
            (fun y => if Nat.eqb min 0 && Nat.eqb (m_pos y) (m_pos x) then None
                      else repeat_loop m1 gs greedy c fuel' (Nat.pred min)
                             (option_map Nat.pred max) y)) as Hm.
  { apply Hm1; [done|]. intros y Hy Hxy. cbn in Hxy.
    destruct (Nat.eqb min 0 && Nat.eqb (m_pos y) (m_pos x)) eqn:E; [done|].
    apply IH; [done| |lia].
    unfold wf in *. apply andb_false_iff in E as [E|E].
    - apply Nat.eqb_neq in E. lia.
    - apply Nat.eqb_neq in E. lia. }
  destruct max as [[|max]|]; [done| |]; by rewrite Hm.
Qed.

Corollary rmatch_repeat_fuel ci min max greedy r1 x c extra :
  rmatch ci (RRepeat min max greedy r1) x c
  = repeat_loop (rmatch ci r1) (groups_of r1) greedy c
      (min + List.length (m_rest x) + 2 + extra) min max x.
Proof.
  cbn [rmatch].
  apply (repeat_loop_fuel (m_pos x + List.length (m_rest x)));
    [apply rmatch_forward|done|lia|lia].
Qed.

End MatcherFuel.

(** ** The matcher on the pattern of a bill id *)

Section BillId.
Import Js Bill Regex Spec.

Lemma clear_caps_nil x : clear_caps [] x = x.
Proof.
  destruct x as [pos rest caps]. unfold clear_caps. cbn.
  f_equal. induction caps as [|a caps IH]; cbn; [done|]. by rewrite IH.
Qed.

(** The greedy loop over a one-character atom, when the continuation fails
    wherever another such character follows: the loop takes the longest run. *)
Lemma repeat_loop_one_char (p : ascii -> bool)
    (m1 : mstate -> (mstate -> option mstate) -> option mstate)
    (c : mstate -> option mstate) :
  (forall x k, m1 x k = one_char p x k) ->
  (forall pos ch l caps, p ch = true -> c (MState pos (ch :: l) caps) = None) ->
  forall l fuel min pos caps,
    min + List.length l + 1 <= fuel ->
    repeat_loop m1 [] true c fuel min None (MState pos l caps)
    = if Nat.leb min (List.length (take_while p l))
      then c (MState (pos + List.length (take_while p l)) (drop_while p l) caps)
      else None.
Proof.
  intros Hm1 Hc l. induction l as [|ch l IH]; intros fuel min pos caps Hfuel.
  - destruct fuel as [|fuel]; [cbn in Hfuel; lia|].
    cbn. rewrite clear_caps_nil, Hm1. unfold one_char. cbn.
    destruct min; cbn; [|done]. by rewrite Nat.add_0_r.
  - destruct fuel as [|fuel]; [cbn in Hfuel; lia|].
    cbn [repeat_loop]. rewrite clear_caps_nil, Hm1. unfold one_char.
    cbn [m_rest take_while drop_while].
    destruct (p ch) eqn:Hp.
    + cbn [advance m_pos m_caps].
      assert (Nat.eqb (S pos) pos = false) as -> by (apply Nat.eqb_neq; lia).
      rewrite andb_false_r. unfold advance. cbn [option_map m_pos m_caps m_rest].
      rewrite IH by (cbn in Hfuel; cbn; lia).
      cbn [List.length].
      replace (pos + S (List.length (take_while p l)))
        with (S pos + List.length (take_while p l)) by lia.
      destruct min as [|min]; cbn [Nat.eqb negb Nat.pred Nat.leb].
      * destruct (c _) eqn:Hc'; [done|]. by apply Hc.
      * done.
    + destruct min as [|min]; cbn; [|done]. by rewrite Nat.add_0_r.
Qed.

Lemma take_take_while p l : take (List.length (take_while p l)) l = take_while p l.
Proof. induction l as [|ch l IH]; cbn; [done|]. destruct (p ch); cbn; [by rewrite IH|done]. Qed.

Lemma rmatch_group_plus ci i neg items (p : ascii -> bool) c pos l caps :
  (forall ch, xorb neg (set_has ci items ch) = p ch) ->
  (forall pos ch l caps, p ch = true -> c (MState pos (ch :: l) caps) = None) ->
  rmatch ci (RGroup i (RRepeat 1 None true (RSet neg items))) (MState pos l caps) c
  = if Nat.leb 1 (List.length (take_while p l))
    then c (MState (pos + List.length (take_while p l)) (drop_while p l)
              ((i, take_while p l) :: caps))
    else None.
Proof.
  intros Hp Hc. cbn [rmatch groups_of m_rest m_pos].
  rewrite (repeat_loop_one_char p).
  - destruct (Nat.leb 1 _); [|done]. unfold set_cap. cbn [m_pos m_rest m_caps].
    replace (pos + List.length (take_while p l) - pos)
      with (List.length (take_while p l)) by lia.
    by rewrite take_take_while.
  - intros x k. cbn [rmatch]. unfold one_char. destruct (m_rest x); [done|].
    by rewrite Hp.
  - intros pos' ch l' caps' Hch. unfold set_cap. cbn [m_pos m_rest m_caps].
    by apply Hc.
  - lia.
Qed.

Lemma set_az ch : xorb false (set_has false [CRange "a" "z"] ch) = is_lower ch.
Proof. cbn. by rewrite !orb_false_r. Qed.
Lemma set_digit ch : xorb false (set_has false [CDigit false] ch) = is_digit ch.
Proof. cbn. by rewrite !orb_false_r. Qed.

Lemma lower_not_digit ch : is_lower ch = true -> is_digit ch = false.
Proof.
  unfold is_lower, is_digit. intros H.
  apply andb_true_iff in H as [H1 H2]. apply Nat.leb_le in H1.
  apply andb_false_iff. right. apply Nat.leb_gt. lia.
Qed.

Lemma digit_not_dash ch : is_digit ch = true -> Ascii.eqb "-" ch = false.
Proof.
  intros H. destruct (Ascii.eqb_spec "-"%char ch) as [<-|]; [|done].
  by vm_compute in H.
Qed.

Lemma bill_id_rmatch l :
  rmatch false (pattern Patterns.bill_id_re) (MState 0 l []) Some
  = match bill_id_match l with
    | Some (t, n, c) =>
        Some (MState (List.length t + List.length n + 1 + List.length c) []
                [(3, c); (2, n); (1, t)])
    | None => None
    end.
Proof.
  unfold Patterns.bill_id_re, pattern.
  change (rmatch false (RSeq RBol ?r) ?x ?k) with (rmatch false r x k).
  change (rmatch false (RSeq ?g ?r) ?x ?k)
    with (rmatch false g x (fun y => rmatch false r y k)).
  rewrite (rmatch_group_plus _ _ _ _ is_lower); [|apply set_az|].
  2:{ intros pos ch l' caps Hch.
      change (rmatch false (RSeq ?g ?r) ?x ?k)
        with (rmatch false g x (fun y => rmatch false r y k)).
      rewrite (rmatch_group_plus _ _ _ _ is_digit); [|apply set_digit|].
      - cbn [take_while]. by rewrite (lower_not_digit _ Hch).
      - intros pos' ch' l'' caps' Hch'. cbn [rmatch]. unfold one_char.
        cbn [m_rest char_eq]. by rewrite (digit_not_dash _ Hch'). }
  unfold bill_id_match. cbv beta.
  change (rmatch false (RSeq ?g ?r) ?x ?k)
    with (rmatch false g x (fun y => rmatch false r y k)).
  rewrite (rmatch_group_plus _ _ _ _ is_digit); [|apply set_digit|].
  2:{ intros pos' ch' l'' caps' Hch'. cbn [rmatch]. unfold one_char.
      cbn [m_rest char_eq]. by rewrite (digit_not_dash _ Hch'). }
  destruct (Nat.leb 1 (List.length (take_while is_lower l))) eqn:Ht; cbn [andb].
  2:{ destruct (drop_while is_digit (drop_while is_lower l)) as [|a r]; [done|].
      destruct (Ascii.eqb_spec a "-"%char) as [->|Hne].
      - by destruct (drop_while is_digit r).
      - destruct a as [[] [] [] [] [] [] [] []]; try done. }
  destruct (Nat.leb 1 (List.length (take_while is_digit (drop_while is_lower l)))) eqn:Hn; cbn [andb].
  2:{ destruct (drop_while is_digit (drop_while is_lower l)) as [|a r]; [done|].
      destruct (Ascii.eqb_spec a "-"%char) as [->|Hne].
      - by destruct (drop_while is_digit r).
      - destruct a as [[] [] [] [] [] [] [] []]; try done. }
  change (rmatch false (RSeq ?g ?r) ?x ?k)
    with (rmatch false g x (fun y => rmatch false r y k)).
  change (rmatch false (RChar ?a) ?x ?k) with (one_char (char_eq false a) x k).
  unfold one_char. cbn [m_rest].
  destruct (drop_while is_digit (drop_while is_lower l)) as [|a r]; [done|].
  unfold char_eq.
  destruct (Ascii.eqb_spec "-"%char a) as [<-|Hne].
  2:{ destruct a as [[] [] [] [] [] [] [] []]; try done. }
  change (rmatch false (RSeq ?g ?r) ?x ?k)
    with (rmatch false g x (fun y => rmatch false r y k)).
  unfold advance. cbn [m_pos m_caps].
  rewrite (rmatch_group_plus _ _ _ _ is_digit); [|apply set_digit|].
  2:{ intros pos' ch' l'' caps' Hch'. done. }
  destruct (Nat.leb 1 (List.length (take_while is_digit r))); [|by destruct (drop_while is_digit r)].
  cbn [rmatch m_rest].
  destruct (drop_while is_digit r); [|done].
  do 3 f_equal. lia.
Qed.

Lemma search_bol r l : forall pos, 1 <= pos -> search false (RSeq RBol r) pos l = None.
Proof.
  induction l as [|ch l IH]; intros pos Hpos; cbn [search rmatch m_pos].
  - destruct pos; [lia|done].
  - destruct pos; [lia|]. cbn [Nat.eqb]. apply IH. lia.
Qed.

Lemma take_drop_while p l : (take_while p l ++ drop_while p l)%list = l.
Proof. induction l as [|ch l IH]; cbn; [done|]. destruct (p ch); cbn; [by rewrite IH|done]. Qed.

Lemma forallb_take_while p l : forallb p (take_while p l) = true.
Proof. induction l as [|ch l IH]; cbn; [done|]. destruct (p ch) eqn:E; cbn; [by rewrite E|done]. Qed.

Lemma take_while_app p a b :
  forallb p a = true -> match b with [] => True | ch :: _ => p ch = false end ->
  take_while p (a ++ b) = a.
Proof.
  intros Ha Hb. induction a as [|ch a IH]; cbn in *.
  - destruct b; [done|]. cbn. by rewrite Hb.
  - apply andb_true_iff in Ha as [-> Ha]. by rewrite IH.
Qed.

Lemma drop_while_app p a b :
  forallb p a = true -> match b with [] => True | ch :: _ => p ch = false end ->
  drop_while p (a ++ b) = b.
Proof.
  intros Ha Hb. induction a as [|ch a IH]; cbn in *.
  - destruct b; [done|]. cbn. by rewrite Hb.
  - apply andb_true_iff in Ha as [-> Ha]. by rewrite IH.
Qed.

Lemma list_ascii_app a b :
  list_ascii_of_string (a +:+ b) = (list_ascii_of_string a ++ list_ascii_of_string b)%list.
Proof. induction a as [|ch a IH]; simpl; [done|]. by rewrite IH. Qed.

Lemma nonempty_length (s : string) : s <> "" -> Nat.leb 1 (List.length (list_ascii_of_string s)) = true.
Proof. destruct s; [done|]. done. Qed.

Lemma bill_id_match_build (t n c : string) :
  t <> "" -> all_chars is_lower t = true ->
  n <> "" -> all_chars is_digit n = true ->
  c <> "" -> all_chars is_digit c = true ->
  bill_id_match (list_ascii_of_string (t +:+ n +:+ "-" +:+ c))
  = Some (list_ascii_of_string t, list_ascii_of_string n, list_ascii_of_string c).
Proof.
  intros Ht Hta Hn Hna Hc Hca. unfold bill_id_match.
  rewrite !list_ascii_app. cbn [list_ascii_of_string app].
  assert (match (list_ascii_of_string n ++ "-"%char :: list_ascii_of_string c)%list with
          | [] => True | ch :: _ => is_lower ch = false end) as Hb1.
  { destruct n as [|ch n]; [done|]. cbn in *.
    apply andb_true_iff in Hna as [Hd _].
    destruct (is_lower ch) eqn:E; [|done]. by rewrite (lower_not_digit _ E) in Hd. }
  rewrite (take_while_app is_lower), (drop_while_app is_lower) by done.
  rewrite (take_while_app is_digit _ ("-"%char :: list_ascii_of_string c)) by done.
  rewrite (drop_while_app is_digit _ ("-"%char :: list_ascii_of_string c)) by done.
  cbv iota beta.
  rewrite <- (app_nil_r (list_ascii_of_string c)).
  rewrite (take_while_app is_digit), (drop_while_app is_digit) by done.
  rewrite app_nil_r. by rewrite !nonempty_length.
Qed.

Lemma string_of_list_app (a b : list ascii) :
  string_of_list_ascii (a ++ b) = string_of_list_ascii a +:+ string_of_list_ascii b.
Proof. induction a as [|ch a IH]; simpl; [done|]. by rewrite IH. Qed.

Lemma string_of_list_nonempty l : Nat.leb 1 (List.length l) = true -> string_of_list_ascii l <> "".
Proof. by destruct l. Qed.

Lemma bill_id_match_shape s t n c :
  bill_id_match (list_ascii_of_string s) = Some (t, n, c) ->
  matches_bill_id_pattern s.
Proof.
  unfold bill_id_match. intros H.
  pose proof (take_drop_while is_lower (list_ascii_of_string s)) as E1.
  pose proof (take_drop_while is_digit (drop_while is_lower (list_ascii_of_string s))) as E2.
  pose proof (forallb_take_while is_lower (list_ascii_of_string s)) as F1.
  pose proof (forallb_take_while is_digit (drop_while is_lower (list_ascii_of_string s))) as F2.
  destruct (drop_while is_digit (drop_while is_lower (list_ascii_of_string s))) as [|a r] eqn:Er; [done|].
  destruct (Ascii.eqb_spec a "-"%char) as [->|Hne].
  2:{ destruct a as [[] [] [] [] [] [] [] []]; try done. }
  pose proof (take_drop_while is_digit r) as E3.
  pose proof (forallb_take_while is_digit r) as F3.
  destruct (drop_while is_digit r); [|done].
  destruct (_ && _) eqn:Hlen in H; [|done].
  apply andb_true_iff in Hlen as [Hlen Hc]. apply andb_true_iff in Hlen as [Ht Hn].
  injection H as <- <- <-.
  remember (take_while is_lower (list_ascii_of_string s)) as t'.
  remember (take_while is_digit (drop_while is_lower (list_ascii_of_string s))) as n'.
  remember (take_while is_digit r) as c'.
  rewrite app_nil_r in E3. subst r. rewrite <- E2 in E1.
  exists (string_of_list_ascii t'), (string_of_list_ascii n'), (string_of_list_ascii c').
  unfold all_chars. rewrite !list_ascii_of_string_of_list_ascii.
  split_and!; try done; try by apply string_of_list_nonempty.
  rewrite <- (string_of_list_ascii_of_string s), <- E1.
  by rewrite !string_of_list_app.
Qed.

Lemma search_unfold ci r pos s :
  search ci r pos s =
  match rmatch ci r (MState pos s []) Some with
  | Some y => Some (pos, y)
  | None => match s with [] => None | _ :: s' => search ci r (S pos) s' end
  end.
Proof. by destruct s. Qed.

Lemma split_bill_id_eq s :
  split_bill_id s =
  match bill_id_match (list_ascii_of_string s) with
  | Some (t, n, c) =>
      Ok (BillIdParts (string_of_list_ascii n) (string_of_list_ascii t)
            (string_of_list_ascii c))
  | None => Err (invalid_bill_id s)
  end.
Proof.
  unfold split_bill_id, exec.
  change (ignoreCase Patterns.bill_id_re) with false.
  rewrite search_unfold, bill_id_rmatch.
  destruct (bill_id_match (list_ascii_of_string s)) as [[[t n] c]|].
  - reflexivity.
  - unfold Patterns.bill_id_re, pattern.
    destruct (list_ascii_of_string s); [done|]. by rewrite search_bol.
Qed.

(** C10. [split_bill_id] succeeds exactly on the strings of the pattern
    [^[a-z]+\d+-\d+$] and throws the "Invalid bill id" object on every
    other string; and it inverts [build_bill_id] on every bill type of the
    enumeration with a number and a congress that are non-empty strings of
    digits. *)
Theorem split_bill_id_spec :
  (forall s, matches_bill_id_pattern s <-> exists parts, split_bill_id s = Ok parts)
  /\ (forall s, ~ matches_bill_id_pattern s -> split_bill_id s = Err (invalid_bill_id s))
  /\ (forall (b : Spec.bill_kind) (number congress : string),
        number <> "" -> all_chars is_digit number = true ->
        congress <> "" -> all_chars is_digit congress = true ->
        split_bill_id (build_bill_id (Spec.bill_kind_name b) number congress)
        = Ok (BillIdParts number (Spec.bill_kind_name b) congress)).
Proof.
  assert (forall t n c : string,
    t <> "" -> all_chars is_lower t = true ->
    n <> "" -> all_chars is_digit n = true ->
    c <> "" -> all_chars is_digit c = true ->
    split_bill_id (t +:+ n +:+ "-" +:+ c) = Ok (BillIdParts n t c)) as Hbuild.
  { intros t n c ? ? ? ? ? ?. rewrite split_bill_id_eq, bill_id_match_build by done.
    by rewrite !string_of_list_ascii_of_string. }
  split_and!.
  - intros s. split.
    + intros (t & n & c & -> & ? & ? & ? & ? & ? & ?). eexists. by apply Hbuild.
    + intros [parts H]. rewrite split_bill_id_eq in H.
      destruct (bill_id_match (list_ascii_of_string s)) as [[[t n] c]|] eqn:E; [|done].
      by eapply bill_id_match_shape.
  - intros s Hs. rewrite split_bill_id_eq.
    destruct (bill_id_match (list_ascii_of_string s)) as [[[t n] c]|] eqn:E; [|done].
    exfalso. apply Hs. by eapply bill_id_match_shape.
  - intros b number congress ? ? ? ?. unfold build_bill_id.
    apply Hbuild; try done; by destruct b.
Qed.

(** Witness of C10: the bill id of hr1234-116. *)
Lemma split_bill_id_spec_witness :
  split_bill_id (build_bill_id "hr" "1234" "116") = Ok (BillIdParts "1234" "hr" "116").
Proof.
  apply (proj2 (proj2 split_bill_id_spec) Spec.Hr "1234" "116"); done.
Defined.

End BillId.

(** ** The vote-outcome state machine *)

Section VoteOutcome.
Import Js Bill.

(** C1. The table of section 4.3 against [new_status_after_vote].  A
    passed House vote to override the veto of a House bill gets the status
    ENACTED:VETO_OVERRIDE from the code, where the table gives
    VETOED:OVERRIDE_PASS_OVER:HOUSE.  In general the code returns the status
    of the first applicable row of the table (nothing, [undefined], in the
    two no-change rows) for every vote type, outcome, chamber, bill type,
    flags, title and prior status, except for an override vote in the
    chamber where the bill originated when the bill type is not the bare
    letter of the chamber: there it returns the row of the second chamber.
    The code compares the whole bill type with the letter of the chamber. *)
Theorem new_status_after_vote_override :
  (forall (suspension amended : jsval) (title prev_status : string),
     new_status_after_vote "override" true "h" "hr" suspension amended
       title prev_status
     = JStr "ENACTED:VETO_OVERRIDE"
     /\ Spec.table_outcome
          (Spec.VoteCase Spec.Override true Spec.House Spec.Hr
             (truthy suspension) (truthy amended) title prev_status)
        = Some (Spec.Status "VETOED:OVERRIDE_PASS_OVER:HOUSE"))
  /\ (forall (v : Spec.vote_kind) (passed : bool) (c : Spec.chamber_kind)
        (b : Spec.bill_kind) (suspension amended : jsval)
        (title prev_status : string),
        Some (new_status_after_vote (Spec.vote_kind_name v) passed
                (Spec.chamber_name c) (Spec.bill_kind_name b)
                suspension amended title prev_status)
        = Spec.returned <$>
            (let i := Spec.VoteCase v passed c b (truthy suspension)
                        (truthy amended) title prev_status in
             if Spec.is_vote Spec.Override i && Spec.bill_type_is_chamber i
                && negb (String.eqb (Spec.bill_kind_name b) (Spec.chamber_name c))
             then Some (Spec.override_second i)
             else Spec.table_outcome i)).
Proof.
  split.
  - intros suspension amended title prev_status. split; [reflexivity|].
    by destruct (truthy suspension), (truthy amended).
  - intros v passed c b suspension amended title prev_status.
    unfold new_status_after_vote.
    generalize (truthy suspension) (truthy amended); intros sb ab.
    destruct v, passed, c, b, sb, ab; cbv -[startsWith];
      repeat match goal with
             | |- context [startsWith ?a ?b] => destruct (startsWith a b)
             end;
      reflexivity.
Qed.

(** The comparison of the code, of the whole bill type with the letter of
    the chamber, holds for one pair only, a bill of type [s] voted on in the
    Senate: for every other bill type an override vote takes the rows of
    the second chamber, in either chamber. *)
Remark override_rows_taken (passed : bool) (c : Spec.chamber_kind)
    (b : Spec.bill_kind) (suspension amended : jsval)
    (title prev_status : string) :
  (b, c) <> (Spec.S_, Spec.Senate) ->
  new_status_after_vote "override" passed (Spec.chamber_name c)
    (Spec.bill_kind_name b) suspension amended title prev_status
  = if passed then JStr "ENACTED:VETO_OVERRIDE"
    else match c with
         | Spec.House => JStr "VETOED:OVERRIDE_FAIL_SECOND:HOUSE"
         | Spec.Senate => JStr "VETOED:OVERRIDE_FAIL_SECOND:SENATE"
         end.
Proof. intros H. by destruct passed, c, b. Qed.

End VoteOutcome.

(** ** The classifier never records a status *)

Section NoStatus.
Import Js Bill Inv.


Lemma v_action_after_vote c vt pf ch su am l :
  v_action (after_vote c vt pf ch su am l) = v_action l.
Proof. done. Qed.
Lemma v_action_set_status s l : v_action (set_status s l) = v_action l.
Proof. done. Qed.
Lemma v_action_set_action a l : v_action (set_action a l) = a.
Proof. done. Qed.
Lemma v_action_set_type t l :
  v_action (set_type t l) = <["type" := JStr t]> (v_action l).
Proof. done. Qed.
Lemma v_action_promote_reported c l : v_action (promote_reported c l) = v_action l.
Proof. unfold promote_reported. by destruct (introduced_or_referred c). Qed.

Ltac no_status_tac :=
  intros c l l' H Hl; unfold no_status in *;
  inv_ok;
  repeat first
    [ rewrite v_action_after_vote | rewrite v_action_set_status
    | rewrite v_action_promote_reported | rewrite v_action_set_type
    | rewrite v_action_set_action | progress cbn [v_action]
    | rewrite lookup_insert_ne by done
    | match goal with |- context [if ?b then _ else _] => destruct b end ];
  exact Hl.

Lemma rule_house_vote_no_status : keeps_no_status rule_house_vote.
Proof. unfold rule_house_vote. no_status_tac. Qed.
Lemma rule_house_pursuant_no_status : keeps_no_status rule_house_pursuant.
Proof. unfold rule_house_pursuant. no_status_tac. Qed.
Lemma rule_house_table_no_status : keeps_no_status rule_house_table.
Proof. unfold rule_house_table. no_status_tac. Qed.
Lemma rule_senate_vote_no_status : keeps_no_status rule_senate_vote.
Proof. unfold rule_senate_vote. no_status_tac. Qed.
Lemma rule_calendar_no_status : keeps_no_status rule_calendar.
Proof. unfold rule_calendar. no_status_tac. Qed.
Lemma rule_reported_with_no_status re : keeps_no_status (rule_reported_with re).
Proof. unfold rule_reported_with. no_status_tac. Qed.
Lemma rule_hearings_no_status : keeps_no_status rule_hearings.
Proof. unfold rule_hearings. no_status_tac. Qed.
Lemma rule_discharged_no_status : keeps_no_status rule_discharged.
Proof. unfold rule_discharged. no_status_tac. Qed.
Lemma rule_topresident_no_status : keeps_no_status rule_topresident.
Proof. unfold rule_topresident. no_status_tac. Qed.
Lemma rule_signed_no_status : keeps_no_status rule_signed.
Proof. unfold rule_signed. no_status_tac. Qed.
Lemma rule_vetoed_no_status : keeps_no_status rule_vetoed.
Proof. unfold rule_vetoed. no_status_tac. Qed.
Lemma rule_archivist_no_status : keeps_no_status rule_archivist.
Proof. unfold rule_archivist. no_status_tac. Qed.
Lemma rule_enacted_no_status : keeps_no_status rule_enacted.
Proof. unfold rule_enacted. no_status_tac. Qed.
Lemma rule_referral_no_status : keeps_no_status rule_referral.
Proof. unfold rule_referral. no_status_tac. Qed.

Lemma run_rules_no_status rs c :
  Forall keeps_no_status rs ->
  forall l l', run_rules rs c l = Ok l' -> no_status (v_action l) -> no_status (v_action l').
Proof.
  induction 1 as [|r rs Hr _ IH]; intros l l' H Hl; cbn in H.
  - by injection H as <-.
  - destruct (r c l) as [l1|] eqn:E; [|done]. cbn in H.
    eapply IH; [done|]. by eapply Hr.
Qed.

Lemma rules_no_status : Forall keeps_no_status rules.
Proof.
  unfold rules.
  repeat constructor;
    auto using rule_house_vote_no_status, rule_house_pursuant_no_status,
      rule_house_table_no_status, rule_senate_vote_no_status,
      rule_calendar_no_status, rule_reported_with_no_status,
      rule_hearings_no_status, rule_discharged_no_status,
      rule_topresident_no_status, rule_signed_no_status,
      rule_vetoed_no_status, rule_archivist_no_status,
      rule_enacted_no_status, rule_referral_no_status.
  - apply rule_reported_with_no_status.
  - apply rule_reported_with_no_status.
Qed.

(** The object that [parse_bill_action] returns has no property [stauts],
    and its [action], when there is one, has no property [status]. *)
Lemma parse_bill_action_keys d ps b t parsed :
  parse_bill_action d ps b t = Ok parsed ->
  parsed !! "stauts" = None
  /\ match prop parsed "action" with
     | JObj a => no_status a
     | v => v = JUndef
     end.
Proof.
  unfold parse_bill_action. intros H. inv_ok.
  - done.
  - split; [done|]. cbn.
    unfold prop. rewrite lookup_insert_ne by done. rewrite lookup_insert_eq. cbn.
    eapply run_rules_no_status; [apply rules_no_status|done|done].
Qed.

Lemma parse_bill_action_default d b t :
  parse_bill_action d JUndef b t = parse_bill_action d (JStr "") b t.
Proof. done. Qed.

Lemma action_for_no_status toISO item d :
  action_for toISO item = Ok d -> no_status d.
Proof.
  unfold action_for, no_status. intros H. inv_ok.
  by rewrite !lookup_insert_ne.
Qed.

Lemma build_dict_eq toISO bill_id title item index :
  build_dict toISO bill_id title item index =
  (action_dict <- action_for toISO item ;;
   parsed <- parse_bill_action action_dict (JStr "") bill_id title ;;
   Ok (match prop parsed "action" with
       | JObj extra => extra ∪ action_dict
       | _ => action_dict
       end)).
Proof.
  unfold build_dict.
  destruct (action_for toISO item) as [d|]; [|done]. cbn [bind get].
  rewrite parse_bill_action_default.
  destruct (parse_bill_action d (JStr "") bill_id title) as [parsed|] eqn:E; [|done].
  cbn [bind]. apply parse_bill_action_keys in E as [E _]. cbv zeta.
  replace (prop parsed "stauts") with JUndef by (unfold prop; by rewrite E).
  done.
Qed.

Lemma build_dict_no_status toISO bill_id title item index r :
  build_dict toISO bill_id title item index = Ok r -> no_status r.
Proof.
  rewrite build_dict_eq. intros H.
  destruct (action_for toISO item) as [d|] eqn:Ea; [|done]. cbn [bind] in H.
  destruct (parse_bill_action d (JStr "") bill_id title) as [parsed|] eqn:Ep;
    [|done].
  cbn [bind] in H. injection H as <-.
  pose proof (action_for_no_status _ _ _ Ea) as Hd.
  apply parse_bill_action_keys in Ep as [_ Ep].
  destruct (prop parsed "action"); try done.
  by apply lookup_union_None.
Qed.

Lemma map_index_Forall {A B} (f : A -> nat -> result B) (P : B -> Prop) :
  (forall a i b, f a i = Ok b -> P b) ->
  forall l i bs, map_index f i l = Ok bs -> Forall P bs.
Proof.
  intros Hf l. induction l as [|a l IH]; intros i bs H; cbn in H.
  - injection H as <-. constructor.
  - inv_ok. constructor; eauto.
Qed.

(** C3. In [actions_for] the second parameter of [build_dict] is the index
    that [map] passes, so the [prev_status] handed to [parse_bill_action] is
    [undefined] and the classifier runs with its default, the empty string;
    the result is destructured by the key [stauts], which the returned
    object never has, so the branch that records a status is dead: every
    call of [build_dict] is the classification against the empty prior
    status, merged into the action, and no classified action of
    [actions_for] has a property [status]. *)
Theorem actions_for_never_threads_status
    (toISOString : string -> option string) (bill_id : string) (title : jsval) :
  (forall index, get (JNum index) "prev_status" = Ok JUndef)
  /\ (forall item index,
        build_dict toISOString bill_id title item index =
        (action_dict <- action_for toISOString item ;;
         parsed <- parse_bill_action action_dict (JStr "") bill_id title ;;
         Ok (match prop parsed "action" with
             | JObj extra => extra ∪ action_dict
             | _ => action_dict
             end)))
  /\ (forall items classified,
        actions_for toISOString items bill_id title = Ok classified ->
        Forall (fun a => a !! "status" = None) classified).
Proof.
  split_and!.
  - done.
  - intros. apply build_dict_eq.
  - intros items classified H. unfold actions_for in H.
    destruct items as [|item items]; [by injection H as <-|].
    inv_ok. eapply map_index_Forall; [|done].
    intros ? ? ?. apply build_dict_no_status.
Qed.

(** Witness of C3: the actions of scenario B. *)
Lemma actions_for_never_threads_status_witness :
  Forall (fun a => a !! "status" = None)
    (ok_or []
       (actions_for utc_iso (actions Examples.scenario_B) "hr1234-116"
          (JStr "To do things."))).
Proof.
  apply (proj2 (proj2 (actions_for_never_threads_status utc_iso "hr1234-116"
                         (JStr "To do things.")))
           (actions Examples.scenario_B)).
  apply is_ok_eq. vm_compute. reflexivity.
Defined.

End NoStatus.

(** ** The deduplicator *)

Section Deduplicator.
Import Js Bill Regex Dedup.

Section WithDate.
Variable toISOString : string -> option string.

Local Abbreviation good := (fun a => comparable toISOString a = true).

Lemma comparable_inv a :
  comparable toISOString a = true ->
  sourceSystem a <> None /\ toISOString (date_text a) <> None.
Proof.
  unfold comparable. intros H. apply andb_true_iff in H as [Hs Hd].
  destruct (sourceSystem a); [|done]. by destruct (toISOString (date_text a)).
Qed.

Lemma same_text_spec a b :
  good a -> good b ->
  same_text toISOString a b = Ok (endsWith (compared a) (compared b)).
Proof.
  intros (_ & Ha)%comparable_inv (_ & Hb)%comparable_inv.
  unfold same_text, action_for, compared.
  destruct (toISOString (date_text a)); [|done].
  destruct (toISOString (date_text b)); [|done].
  cbn [bind]. unfold prop. rewrite !lookup_insert_eq.
  change (default JUndef (Some ?v)) with v. by cbn [as_string bind].
Qed.

Lemma keep_action_spec item cl :
  good item -> (forall b, prev cl = Some b -> good b) ->
  keep_action toISOString item cl =
  Ok (has_text item
      && negb (match prev cl with
               | Some b => duplicate_of compared item b
               | None => false
               end),
      Closure (if has_text item then Some item else prev cl) (prev_status cl)).
Proof.
  intros Hitem Hprev. unfold keep_action. fold (has_text item).
  destruct (has_text item); cbn [negb andb]; [|by destruct cl].
  destruct (prev cl) as [b|] eqn:Eb; [|done].
  unfold duplicate_of, source_code.
  pose proof (comparable_inv _ Hitem) as (Hs & Hd).
  destruct (sourceSystem item) as [src|] eqn:Es; [|done].
  cbn [bind]. unfold same_time, time_absent.
  destruct (eqs (of_opt (code src)) "9" && bool_decide (actionDate item = actionDate b)
            && (bool_decide (actionTime item = actionTime b)
                || negb (truthy (of_opt (actionTime item)))
                || negb (truthy (of_opt (actionTime b))))) eqn:E.
  - by rewrite same_text_spec; [|done|apply Hprev].
  - done.
Qed.

Lemma preceding_with_text_snoc pre a :
  preceding_with_text (pre ++ [a]) =
  if has_text a then Some a else preceding_with_text pre.
Proof.
  unfold preceding_with_text. rewrite List.filter_app. cbn [List.filter].
  destruct (has_text a); [|by rewrite app_nil_r].
  by rewrite last_snoc.
Qed.

Lemma preceding_with_text_good pre b :
  Forall good pre -> preceding_with_text pre = Some b ->
  good b.
Proof.
  intros Hpre Hb. unfold preceding_with_text in Hb.
  apply last_Some_elem_of in Hb. apply list_elem_of_In, List.filter_In in Hb as [Hb _].
  rewrite Forall_forall in Hpre. by apply Hpre, list_elem_of_In.
Qed.

Lemma filter_keep_spec rest : forall pre cl,
  Forall good (pre ++ rest) ->
  prev cl = preceding_with_text pre ->
  exists cl',
    filter_keep toISOString rest cl =
    Ok (List.map snd
          (List.filter
             (fun p => negb (dropped compared preceding_with_text (pre ++ rest)
                               (fst p) (snd p)))
             (imap (fun i a => (List.length pre + i, a)) rest)),
        cl').
Proof.
  induction rest as [|a rest IH]; intros pre cl Hgood Hprev.
  - by eexists.
  - cbn [filter_keep].
    assert (good a) as Ha.
    { rewrite Forall_app in Hgood. destruct Hgood as [_ Hgood]. by inversion Hgood. }
    rewrite keep_action_spec; [|done|].
    2:{ intros b Hb. rewrite Hprev in Hb. eapply preceding_with_text_good; [|done].
        rewrite Forall_app in Hgood. by destruct Hgood. }
    cbn [bind fst snd].
    destruct (IH (pre ++ [a]) (Closure (if has_text a then Some a else prev cl) (prev_status cl)))
      as [cl' Hcl'].
    { by rewrite <- app_assoc. }
    { cbn [prev]. by rewrite preceding_with_text_snoc, Hprev. }
    rewrite Hcl'. cbn [bind fst snd]. exists cl'. f_equal. f_equal.
    cbn [imap List.filter fst snd].
    assert (dropped compared preceding_with_text (pre ++ a :: rest)
              (List.length pre + 0) a
            = negb (has_text a && negb (match prev cl with
                                        | Some b => duplicate_of compared a b
                                        | None => false
                                        end))) as ->.
    { unfold dropped. rewrite Nat.add_0_r, take_app_length, <- Hprev.
      destruct (has_text a); cbn; [|done]. by rewrite negb_involutive. }
    rewrite negb_involutive.
    assert (List.filter
              (fun p => negb (dropped compared preceding_with_text
                                ((pre ++ [a]) ++ rest) (fst p) (snd p)))
              (imap (fun i a0 => (List.length (pre ++ [a]) + i, a0)) rest)
            = List.filter
              (fun p => negb (dropped compared preceding_with_text
                                (pre ++ a :: rest) (fst p) (snd p)))
              (imap ((fun i a0 => (List.length pre + i, a0)) ∘ S) rest)) as ->.
    { rewrite <- app_assoc. cbn [app]. f_equal. apply imap_ext.
      intros i x _. cbn. rewrite length_app. cbn. f_equal. lia. }
    by destruct (_ && _).
Qed.

(** The rule that the code applies, for every list of actions with a
    source system and a valid date: an action is dropped exactly when its
    text is empty, or its source-system code is "9" and, against the nearest
    preceding source-order action that has a text (kept or dropped), the
    dates are equal, the times are equal or one is absent, and its compared
    text ends with the compared text of that action; the kept actions are
    returned oldest first.  The compared text is the text without its first
    space, and without the links that follow an [r]. *)
Lemma kept_actions_rule (items : list raw_action) :
  forallb (comparable toISOString) items = true ->
  kept_actions toISOString items
  = Ok (deduplicated compared preceding_with_text items).
Proof.
  intros Hgood. unfold kept_actions.
  assert (Forall good ([] ++ items)) as HF.
  { cbn [app]. apply Forall_forall. intros a Ha%list_elem_of_In.
    rewrite forallb_forall in Hgood. by apply Hgood. }
  destruct (filter_keep_spec items [] initial_closure HF eq_refl) as [cl' Hcl'].
  rewrite Hcl'. reflexivity.
Qed.
End WithDate.

(** C4. The deduplicator against the rule of the specification, on three
    pairs of actions of one day of which the second is the Library of
    Congress copy of the first: a copy with different spacing, a copy with a
    prefix, a copy without the reference.  In each the whitespace-stripped,
    reference-stripped text of the copy ends with that of the action before
    it, so the rule drops the copy; the code keeps both actions.  It
    compares the texts without their first space only, and with their links
    in place ([kept_actions_rule]). *)
Theorem kept_actions_copies :
  (kept_actions utc_iso spaced_copy = Ok (rev spaced_copy)
   /\ deduplicated stripped preceding spaced_copy = take 1 spaced_copy)
  /\ (kept_actions utc_iso prefixed_copy = Ok (rev prefixed_copy)
      /\ deduplicated stripped preceding prefixed_copy = take 1 prefixed_copy)
  /\ (kept_actions utc_iso linked_copy = Ok (rev linked_copy)
      /\ deduplicated stripped preceding linked_copy = take 1 linked_copy).
Proof. repeat split; vm_compute; reflexivity. Qed.

(** A copy with the same text is dropped, by the code and by the rule. *)
Remark kept_actions_exact_copy :
  kept_actions utc_iso exact_copy = Ok (take 1 exact_copy)
  /\ deduplicated stripped preceding exact_copy = take 1 exact_copy.
Proof. split; vm_compute; reflexivity. Qed.

(** The baseline.  [keep_action] returns for an action without text before
    it records it, so the action compared with is the nearest preceding one
    that has a text: the third action of [with_empty_text] follows an action
    without text whose time differs from its own, and is dropped as the copy
    of the first. *)
Remark kept_actions_baseline :
  kept_actions utc_iso with_empty_text = Ok (take 1 with_empty_text)
  /\ deduplicated stripped preceding_with_text with_empty_text
     = take 1 with_empty_text
  /\ deduplicated stripped preceding with_empty_text
     <> take 1 with_empty_text.
Proof. split_and!; [vm_compute; reflexivity..|]. vm_compute. discriminate. Qed.

End Deduplicator.

(** ** Enactment by citation *)

Section EnactedRule.
Import Js Bill Regex Enactment.

Lemma enacted_not_vetoed ps :
  startsWith ps "ENACTED:" = true ->
  String.eqb ps "PROV_KILL:VETO" || startsWith ps "VETOED:" = false.
Proof.
  destruct ps as [|c ps]; [done|]. cbn [startsWith String.eqb].
  destruct (Ascii.eqb_spec "E"%char c) as [<-|Hne]; [|done]. done.
Qed.

Lemma law_rules_before ps bid bt title :
  run_rules
    [ rule_house_vote; rule_house_pursuant; rule_house_table; rule_senate_vote;
      rule_calendar; rule_reported; rule_reported_senate; rule_hearings;
      rule_discharged; rule_topresident; rule_signed; rule_vetoed;
      rule_archivist ] (Context law_text ps bid bt title) initial_locals
  = Ok initial_locals.
Proof.
  assert (Regex.exec Patterns.house_vote_re (replace law_text ", the Passed" ", Passed") = None) as H1 by (vm_compute; reflexivity).
  assert (Regex.test Patterns.pursuant_re law_text = false) as H2 by (vm_compute; reflexivity).
  assert (Regex.exec Patterns.table_re law_text = None) as H3 by (vm_compute; reflexivity).
  assert (Regex.exec Patterns.senate_vote_re (replace law_text "  " " ") = None) as H4 by (vm_compute; reflexivity).
  assert (Regex.test Patterns.calendar_re law_text = false) as H5 by (vm_compute; reflexivity).
  assert (Regex.exec Patterns.reported_re law_text = None) as H6 by (vm_compute; reflexivity).
  assert (Regex.exec Patterns.reported_senate_re law_text = None) as H7 by (vm_compute; reflexivity).
  assert (Regex.exec Patterns.hearings_re law_text = None) as H8 by (vm_compute; reflexivity).
  assert (Regex.exec Patterns.discharged_re law_text = None) as H9 by (vm_compute; reflexivity).
  assert (Regex.test Patterns.topresident_re law_text = false) as H10 by (vm_compute; reflexivity).
  assert (Regex.test Patterns.signed_re law_text = false) as H11 by (vm_compute; reflexivity).
  assert (Regex.test Patterns.pocket_re law_text = false) as H12 by (vm_compute; reflexivity).
  assert (Regex.test Patterns.vetoed_re law_text = false) as H13 by (vm_compute; reflexivity).
  assert (Regex.test Patterns.archivist_re law_text = false) as H14 by (vm_compute; reflexivity).
  cbn [run_rules].
  unfold rule_house_vote, rule_house_pursuant, rule_house_table, rule_senate_vote,
    rule_calendar, rule_reported, rule_reported_senate, rule_reported_with,
    rule_hearings, rule_discharged, rule_topresident, rule_signed, rule_vetoed,
    rule_archivist.
  cbn [c_text].
  by rewrite H1, H2, H3, H4, H5, H6, H7, H8, H9, H10, H11, H12, H13, H14.
Qed.

Lemma run_rules_app rs1 rs2 c l :
  run_rules (rs1 ++ rs2) c l = (l' <- run_rules rs1 c l ;; run_rules rs2 c l').
Proof.
  revert l. induction rs1 as [|r rs1 IH]; intros l; cbn; [done|].
  destruct (r c l); cbn; [apply IH|done].
Qed.

Lemma law_rule_enacted ps bid bt title :
  rule_enacted (Context law_text ps bid bt title) initial_locals
  = Ok (set_status (status_after_law ps) (set_action law_action initial_locals)).
Proof.
  unfold rule_enacted. cbn [c_text c_prev_status].
  destruct (Regex.exec Patterns.law_re law_text) as [m|] eqn:E.
  2:{ by vm_compute in E. }
  assert (Regex.group m 1 = Some "Public" /\ Regex.group m 2 = Some "116-123") as [-> ->].
  { assert (match Regex.exec Patterns.law_re law_text with
            | Some m => Regex.group m 1 = Some "Public" /\ Regex.group m 2 = Some "116-123"
            | None => True end) as H by (vm_compute; done).
    by rewrite E in H. }
  cbn [of_opt as_string bind].
  change (<["type":=JStr "enacted"]> _) with law_action.
  unfold status_after_law.
  destruct (String.eqb ps "ENACTED:SIGNED" || String.eqb ps "ENACTED:VETO_OVERRIDE"
            || String.eqb ps "ENACTED:TENDAYRULE") eqn:E1.
  - assert (startsWith ps "ENACTED:" = true) as ->; [|done].
    apply orb_true_iff in E1 as [E1|E1]; [apply orb_true_iff in E1 as [E1|E1]|];
      apply String.eqb_eq in E1; by subst ps.
  - destruct (startsWith ps "ENACTED:") eqn:E2.
    + by rewrite enacted_not_vetoed.
    + by destruct (String.eqb ps "PROV_KILL:VETO" || startsWith ps "VETOED:").
Qed.

Lemma law_rule_referral ps bid bt title l :
  rule_referral (Context law_text ps bid bt title) l = Ok l.
Proof.
  unfold rule_referral. cbn [c_text].
  assert (Regex.test Patterns.referral_re law_text = false) as -> by (vm_compute; reflexivity).
  done.
Qed.

(** C7. Classifying "Became Public Law No: 116-123." gives an action of
    type [enacted] with the law (public, 116, 123), and as new status: none
    when the prior status is an [ENACTED:*] value, [ENACTED:VETO_OVERRIDE]
    when it is [PROV_KILL:VETO] or starts with [VETOED:], and none
    otherwise.  This holds for every action object that carries the text,
    every prior status, every official title and every valid bill id. *)
Theorem parse_bill_action_enacted (d : gmap string jsval) (prev_status bill_id : string)
    (title : option string) (parts : bill_id_parts) :
  split_bill_id bill_id = Ok parts ->
  parse_bill_action (<["text" := JStr law_text]> d) (JStr prev_status) bill_id
    (of_opt title)
  = Ok (<["status" := status_after_law prev_status]>
        (<["action" := JObj law_action]> ∅)).
Proof.
  intros Hid. unfold parse_bill_action.
  cbn [or_default as_string bind].
  assert (as_string (or_default (of_opt title) (JStr "")) = Ok (default "" title)) as ->
    by (by destruct title).
  cbn [bind]. rewrite Hid. cbn [bind].
  unfold prop. rewrite lookup_insert_eq. cbn [default str_of id].
  assert (Regex.test Patterns.amdt_re law_text = false) as -> by (vm_compute; reflexivity).
  cbn [as_string bind].
  change rules with
    ([ rule_house_vote; rule_house_pursuant; rule_house_table; rule_senate_vote;
       rule_calendar; rule_reported; rule_reported_senate; rule_hearings;
       rule_discharged; rule_topresident; rule_signed; rule_vetoed;
       rule_archivist ] ++ [rule_enacted; rule_referral]).
  rewrite run_rules_app, law_rules_before. cbn [bind run_rules].
  rewrite law_rule_enacted. cbn [bind]. rewrite law_rule_referral. cbn [bind].
  done.
Qed.

(** Witness of C7: the bill hr1234-116 after a veto. *)
Lemma parse_bill_action_enacted_witness :
  parse_bill_action (<["text" := JStr law_text]> ∅) (JStr "PROV_KILL:VETO")
    "hr1234-116" (JStr "To do things.")
  = Ok (<["status" := JStr "ENACTED:VETO_OVERRIDE"]>
        (<["action" := JObj law_action]> ∅)).
Proof.
  apply (parse_bill_action_enacted ∅ "PROV_KILL:VETO" "hr1234-116"
           (Some "To do things.") (BillIdParts "1234" "hr" "116")).
  vm_compute. reflexivity.
Defined.

End EnactedRule.

(** ** The title classifier *)

Section TitleClassifier.
Import Js Bill Titles.

Lemma title_dict_eq label title :
  title_dict (RawTitle (Some label) title) =
  match pieces label with
  | [kind; qualifier] =>
      match kind_type kind with
      | Some type =>
          Ok (title_object title (endsWith qualifier portion_suffix)
                (JStr (code_as qualifier)) type)
      | None => Err (unknown_title_type kind)
      end
  | _ =>
      match kind_type label with
      | Some type => Ok (title_object title false JUndef type)
      | None => Err (unknown_title_type label)
      end
  end.
Proof.
  unfold title_dict, pieces, kind_type, code_as, title_object, portion_suffix.
  cbn [titleType of_opt as_string bind Bill.title].
  destruct (if includes label " as " then split label " as " else split label " on ")
    as [|kind [|qualifier [|x rest]]];
    repeat match goal with |- context [if ?b then _ else _] => destruct b end;
    reflexivity.
Qed.

Lemma length_append (a b : string) :
  String.length (a +:+ b) = String.length a + String.length b.
Proof. induction a as [|c a IH]; simpl; [done|]. by rewrite IH. Qed.

Lemma drop_append (a b : string) : drop (String.length a) (a +:+ b) = b.
Proof. induction a as [|c a IH]; simpl; [by destruct b|]. done. Qed.

Lemma prefix_append (a b : string) : prefix (String.length a) (a +:+ b) = a.
Proof. induction a as [|c a IH]; simpl; [by destruct b|]. by rewrite IH. Qed.

Lemma drop_all (s : string) : drop (String.length s) s = "".
Proof. induction s as [|c s IH]; simpl; done. Qed.

Lemma startsWith_refl (s : string) : startsWith s s = true.
Proof. induction s as [|c s IH]; simpl; [done|]. by rewrite Ascii.eqb_refl. Qed.

Lemma endsWith_append (a b : string) : endsWith (a +:+ b) b = true.
Proof.
  unfold endsWith. rewrite length_append.
  replace (String.length a + String.length b - String.length b)
    with (String.length a) by lia.
  rewrite drop_append, String.eqb_refl, andb_true_r. apply Nat.leb_le. lia.
Qed.

Lemma replace_only_at_end body pat :
  only_at_end body pat = true -> Js.replace (body +:+ pat) pat "" = body.
Proof.
  induction body as [|c body IH]; intros H.
  - change ("" +:+ pat) with pat.
    destruct pat as [|p pat]; [done|].
    cbn [Js.replace]. rewrite startsWith_refl.
    change (drop (String.length (String p pat)) (String p pat)) with (drop (String.length pat) pat).
    by rewrite drop_all.
  - cbn [only_at_end] in H. apply andb_true_iff in H as [H1 H2].
    apply negb_true_iff in H1.
    change (String c body +:+ pat) with (String c (body +:+ pat)) in *.
    cbn [Js.replace]. rewrite H1. by rewrite IH.
Qed.


Lemma includes_refl (s : string) : includes s s = true.
Proof. destruct s; cbn [includes]; by rewrite startsWith_refl. Qed.

Lemma startsWith_empty (s : string) : startsWith s "" = true.
Proof. by destruct s. Qed.

Lemma prefix_drop n (s : string) : prefix n s +:+ drop n s = s.
Proof.
  revert s. induction n as [|n IH]; intros s; [by destruct s|].
  destruct s as [|c s]; [done|].
  change (String c (prefix n s +:+ drop n s) = String c s). by rewrite IH.
Qed.

Lemma endsWith_body (s p : string) :
  endsWith s p = true -> exists body, s = body +:+ p.
Proof.
  unfold endsWith. intros [_ H]%andb_true_iff. apply String.eqb_eq in H.
  exists (prefix (String.length s - String.length p) s).
  pose proof (prefix_drop (String.length s - String.length p) s) as E.
  by rewrite H in E.
Qed.

Lemma occurrences_suffix (body pat : string) :
  1 <= occurrences (body +:+ pat) pat.
Proof.
  induction body as [|c body IH].
  - change ("" +:+ pat) with pat.
    destruct pat as [|p pat]; cbn [occurrences]; rewrite startsWith_refl; lia.
  - change (String c body +:+ pat) with (String c (body +:+ pat)).
    cbn [occurrences]. lia.
Qed.

Lemma once_only_at_end (body pat : string) :
  occurrences (body +:+ pat) pat <= 1 -> only_at_end body pat = true.
Proof.
  induction body as [|c body IH]; intros H; [done|].
  change (String c body +:+ pat) with (String c (body +:+ pat)) in H.
  cbn [occurrences] in H. pose proof (occurrences_suffix body pat) as Hs.
  cbn [only_at_end].
  change (String c body +:+ pat) with (String c (body +:+ pat)).
  destruct (startsWith (String c (body +:+ pat)) pat); [lia|].
  cbn [negb andb]. apply IH. lia.
Qed.

Lemma no_occurrence_colon (s : string) :
  occurrences s ":" = 0 -> without_colons s = s.
Proof.
  induction s as [|c s IH]; intros H; [done|].
  cbn [occurrences startsWith] in H. rewrite startsWith_empty, andb_true_r in H.
  cbn [without_colons]. rewrite Ascii.eqb_sym.
  destruct (Ascii.eqb ":" c); [lia|]. rewrite IH; [done|]. lia.
Qed.

Lemma replace_colon_once (s : string) :
  occurrences s ":" <= 1 -> Js.replace s ":" "" = without_colons s.
Proof.
  induction s as [|c s IH]; intros H; [done|].
  cbn [occurrences startsWith] in H. rewrite startsWith_empty, andb_true_r in H.
  cbn [Js.replace startsWith without_colons].
  rewrite startsWith_empty, andb_true_r, (Ascii.eqb_sym c).
  destruct (Ascii.eqb ":" c).
  - cbn [String.length drop]. change ("" +:+ s) with s.
    symmetry. apply no_occurrence_colon. lia.
  - rewrite IH; [done|]. lia.
Qed.

Lemma occurrences_colon_app (a b : string) :
  occurrences a ":" <= occurrences (a +:+ b) ":".
Proof.
  induction a as [|c a IH]; [cbn; lia|].
  change (String c a +:+ b) with (String c (a +:+ b)).
  cbn [occurrences startsWith]. rewrite !startsWith_empty. lia.
Qed.

(** On a qualifier with at most one colon and at most one occurrence of the
    portion text, the code computes the [as] of the amended claim. *)
Lemma code_as_amended (qualifier : string) :
  at_most_once qualifier ":" = true ->
  at_most_once qualifier portion_suffix = true ->
  code_as qualifier = amended_as qualifier.
Proof.
  unfold at_most_once. intros Hc%Nat.leb_le Hp%Nat.leb_le.
  unfold code_as, amended_as, without_suffix.
  destruct (endsWith qualifier portion_suffix) eqn:E.
  - apply endsWith_body in E as [body ->].
    rewrite replace_only_at_end by (by apply once_only_at_end).
    rewrite length_append.
    replace (String.length body + String.length portion_suffix
             - String.length portion_suffix) with (String.length body) by lia.
    rewrite prefix_append, replace_colon_once; [done|].
    pose proof (occurrences_colon_app body portion_suffix). lia.
  - by rewrite replace_colon_once.
Qed.

Lemma kind_type_unknown (kind : string) :
  includes kind "Popular Title" = false ->
  includes kind "Short Title" = false ->
  includes kind "Official Title" = false ->
  includes kind "Display Title" = false ->
  includes kind "Non-bill-report" = false ->
  kind_type kind = None.
Proof.
  intros H1 H2 H3 H4 H5. unfold kind_type. rewrite H1, H2, H3, H4.
  destruct (String.eqb_spec kind "Non-bill-report") as [->|]; [|done].
  by rewrite includes_refl in H5.
Qed.

(** C8, as amended.  The two labels of the specification are classified as
    it says.  In general, for a label that splits into a kind and a
    qualifier, where the kind is a known one and the qualifier has at most
    one colon and contains the portion text at most once: [isForPortion] is
    set exactly when the qualifier ends with the portion text, and [as] is
    the qualifier without that suffix, without its colon wherever it
    stands, lower-cased.  A label whose kind contains none of the known
    kinds fails with UnknownTitleType. *)
Theorem title_dict_spec :
  (forall title,
     title_dict (RawTitle (Some "Short Titles as Introduced") title)
     = Ok (title_object title false (JStr "introduced") "short")
     /\ title_dict
          (RawTitle (Some "Official Title as Introduced for portions of this bill")
             title)
        = Ok (title_object title true (JStr "introduced") "official"))
  /\ (forall label title kind qualifier type,
        pieces label = [kind; qualifier] ->
        kind_type kind = Some type ->
        at_most_once qualifier ":" = true ->
        at_most_once qualifier portion_suffix = true ->
        title_dict (RawTitle (Some label) title)
        = Ok (title_object title (endsWith qualifier portion_suffix)
                (JStr (amended_as qualifier)) type))
  /\ (forall label title,
        includes (kind_of label) "Popular Title" = false ->
        includes (kind_of label) "Short Title" = false ->
        includes (kind_of label) "Official Title" = false ->
        includes (kind_of label) "Display Title" = false ->
        includes (kind_of label) "Non-bill-report" = false ->
        title_dict (RawTitle (Some label) title)
        = Err (unknown_title_type (kind_of label))).
Proof.
  split_and!.
  - intros title. rewrite !title_dict_eq. split; reflexivity.
  - intros label title kind qualifier type Hp Hk Hc Hs.
    rewrite title_dict_eq, Hp, Hk. by rewrite code_as_amended.
  - intros label title H1 H2 H3 H4 H5.
    pose proof (kind_type_unknown _ H1 H2 H3 H4 H5) as Hk.
    rewrite title_dict_eq. unfold kind_of in *.
    by destruct (pieces label) as [|kind [|qualifier [|x rest]]]; rewrite Hk.
Qed.

(** Witness of C8: a qualifier with a colon inside and the portion suffix. *)
Lemma title_dict_spec_witness :
  title_dict
    (RawTitle (Some "Short Titles as Passed: House for portions of this bill")
       (Some "First Act"))
  = Ok (title_object (Some "First Act") true (JStr "passed house") "short").
Proof.
  apply (proj1 (proj2 title_dict_spec)
           "Short Titles as Passed: House for portions of this bill"
           (Some "First Act") "Short Titles"
           "Passed: House for portions of this bill" "short");
    reflexivity.
Defined.

(** C8, as stated, fails: the only colon of the qualifier "Passed: House"
    is not a trailing one, and the code removes it. *)
Lemma title_as_counterexample :
  title_dict (RawTitle (Some "Short Titles as Passed: House") None)
  = Ok (title_object None false (JStr "passed house") "short")
  /\ title_dict (RawTitle (Some "Short Titles as Passed: House") None)
     <> Ok (title_object None false (JStr (title_as "Passed: House")) "short").
Proof.
  assert (title_dict (RawTitle (Some "Short Titles as Passed: House") None)
          = Ok (title_object None false (JStr "passed house") "short")) as E
    by (rewrite title_dict_eq; reflexivity).
  split; [exact E|]. rewrite E. intros H.
  apply (f_equal (fun r => ok_or ∅ r !! "as")) in H.
  vm_compute in H. discriminate H.
Qed.

(** Outside these qualifiers [String.prototype.replace] with a string
    pattern removes the first occurrence only: a second colon stays, and so
    does the suffix when the portion text occurs before it. *)
Remark title_dict_repeated :
  title_dict (RawTitle (Some "Short Titles as Passed: House:") None)
  = Ok (title_object None false (JStr "passed house:") "short")
  /\ title_dict
       (RawTitle
          (Some "Short Titles as Passed for portions of this bill House for portions of this bill")
          None)
     = Ok (title_object None true
             (JStr "passed house for portions of this bill") "short").
Proof. split; rewrite title_dict_eq; reflexivity. Qed.

End TitleClassifier.

(** ** The record: what [latest_status] leaves in the shared array *)

Section Record.
Import Js Bill.

Lemma read_alloc a h : read (fst (alloc a h)) (snd (alloc a h)) = a.
Proof.
  unfold read, alloc. cbn [fst snd].
  rewrite lookup_app_r by lia. by rewrite Nat.sub_diag.
Qed.

Lemma read_pop r h : read r (snd (pop r h)) = removelast (read r h).
Proof.
  unfold pop, read. cbn [snd].
  destruct (h !! r) as [a|] eqn:E.
  - rewrite list_lookup_insert_eq; [done|]. by eapply lookup_lt_Some.
  - rewrite list_insert_ge by (by apply lookup_ge_None). by rewrite E.
Qed.

Lemma latest_status_eq r introduced_at h :
  latest_status r introduced_at h =
  (match last (read r h) with
   | Some a => (prop a "status", prop a "acted_at")
   | None => (JStr "INTRODUCED", introduced_at)
   end, snd (pop r h)).
Proof. unfold latest_status, pop. by destruct (last (read r h)). Qed.

Lemma history_from_actions_total l : exists h, history_from_actions l = Ok h.
Proof.
  unfold history_from_actions.
  destruct (activation_from l) eqn:E; cbn; eauto.
  destruct b; cbn; eauto.
  destruct (Nat.eqb n 0); cbn; eauto.
  destruct (String.eqb s ""); cbn; eauto.
Qed.

Lemma parse_bill_action_valid_id d ps b t parsed :
  parse_bill_action d ps b t = Ok parsed -> exists parts, split_bill_id b = Ok parts.
Proof. unfold parse_bill_action. intros H. inv_ok; eauto. Qed.

Lemma build_dict_valid_id toISO b t item i r :
  build_dict toISO b t item i = Ok r -> exists parts, split_bill_id b = Ok parts.
Proof.
  unfold build_dict. intros H.
  destruct (action_for toISO item); [|done]. cbn [bind get] in H.
  destruct (parse_bill_action _ _ _ _) eqn:E; [|done].
  by eapply parse_bill_action_valid_id.
Qed.

Lemma actions_for_valid_id toISO items b t classified :
  actions_for toISO items b t = Ok classified -> classified <> [] ->
  exists parts, split_bill_id b = Ok parts.
Proof.
  unfold actions_for. intros H Hne. destruct items as [|item items]; [by injection H as <-|].
  destruct (kept_actions toISO (item :: items)) as [kept|]; [|done]. cbn [bind] in H.
  destruct kept as [|k kept]; [by injection H as <-|].
  cbn [map_index] in H. destruct (build_dict toISO b t k 0) eqn:E; [|done].
  by eapply build_dict_valid_id.
Qed.

(** C9. When the classification yields at least one action, [latest_status]
    pops the last one from the array that the record shares: the [actions]
    of the record and the history are those of the classified actions
    without the latest, which shows only through [status] and [status_at]. *)
Theorem latest_status_pops
    (toISOString : string -> option string) (bill : bill_node) (h : store)
    (titles : list (gmap string jsval))
    (classified : list (gmap string jsval)) (latest : gmap string jsval) :
  titles_for (Bill.titles bill) = Ok titles ->
  actions_for toISOString (actions bill)
    (build_bill_id (toLowerCase (billType bill)) (billNumber bill) (congress bill))
    (current_title_for titles "official") = Ok classified ->
  last classified = Some latest ->
  exists r,
    transformGovInfoBill toISOString bill h = Ok r
    /\ actions_of r = removelast classified
    /\ history_from_actions (removelast classified) = Ok (out_history (fst r))
    /\ out_status (fst r) = prop latest "status"
    /\ out_status_at (fst r) = prop latest "acted_at".
Proof.
  intros Ht Ha Hl. unfold transformGovInfoBill. rewrite Ht. cbn [bind].
  rewrite Ha. cbn [bind].
  destruct (alloc classified h) as [r h1] eqn:Ealloc.
  pose proof (read_alloc classified h) as Hread. rewrite Ealloc in Hread. cbn [fst snd] in Hread.
  rewrite latest_status_eq, Hread, Hl.
  destruct (actions_for_valid_id _ _ _ _ _ Ha) as [parts Hparts].
  { intros ->. done. }
  unfold billstatus_url_for. rewrite Hparts. cbn [bind].
  rewrite read_pop, Hread.
  destruct (history_from_actions_total (removelast classified)) as [hist Hhist].
  rewrite Hhist. cbn [bind]. eexists. split; [done|].
  unfold actions_of. cbn [fst snd out_actions out_history out_status out_status_at].
  by rewrite read_pop, Hread.
Qed.

(** Witness of C9: scenario B on the sample platform. *)
Lemma latest_status_pops_witness :
  exists r,
    transformGovInfoBill utc_iso Examples.scenario_B [] = Ok r
    /\ actions_of r = removelast (Examples.classified_of Examples.scenario_B)
    /\ history_from_actions
         (removelast (Examples.classified_of Examples.scenario_B))
       = Ok (out_history (fst r))
    /\ out_status (fst r)
       = prop (default ∅ (last (Examples.classified_of Examples.scenario_B)))
           "status"
    /\ out_status_at (fst r)
       = prop (default ∅ (last (Examples.classified_of Examples.scenario_B)))
           "acted_at".
Proof.
  apply (latest_status_pops utc_iso Examples.scenario_B []
           (Examples.titles_of Examples.scenario_B)).
  - apply is_ok_eq. vm_compute. reflexivity.
  - apply is_ok_eq. vm_compute. reflexivity.
  - apply last_default. vm_compute. reflexivity.
Defined.

End Record.

(** ** The scenarios of section 8 on the code *)

Section Scenarios.
Import Js Bill Examples.

(** C2 on the code.  For scenario B the record has no status
    ([undefined]), where the specification has PASSED:BILL.  [status_at] is
    the time of the Senate passage, and that action is missing from the
    three actions of the record. *)
Lemma scenario_B_status :
  summary (transformGovInfoBill utc_iso scenario_B [])
  = Ok (JUndef, JStr "2019-02-20T00:00:00.000Z", 3).
Proof. vm_compute. reflexivity. Qed.

(** The classifier itself computes the statuses of the scenario when it is
    given the prior status: the Senate passage after PASS_OVER:HOUSE gives
    PASSED:BILL.  The replay never hands it over. *)
Remark senate_passage_after_house :
  match action_for utc_iso senate_passage with
  | Ok d =>
      match parse_bill_action d (JStr "PASS_OVER:HOUSE") "hr1234-116"
              (JStr "To do things.") with
      | Ok parsed => prop parsed "status"
      | Err _ => JUndef
      end
  | Err _ => JUndef
  end = JStr "PASSED:BILL".
Proof. vm_compute. reflexivity. Qed.

(** C6 on the code.  For scenario A the record has no status, where the
    specification has INTRODUCED, and its history is active, with no
    [active_at], where the specification has it inactive. *)
Lemma scenario_A_status :
  summary (transformGovInfoBill utc_iso scenario_A [])
  = Ok (JUndef, JStr "2019-01-03T00:00:00.000Z", 0)
  /\ history_prop (transformGovInfoBill utc_iso scenario_A []) "active"
     = Ok (JBool true)
  /\ history_prop (transformGovInfoBill utc_iso scenario_A []) "active_at"
     = Ok JUndef.
Proof. split_and!; vm_compute; reflexivity. Qed.

(** C5 on the code.  Without actions the history is active, since the scan
    returns an empty array, which is truthy.  In the activation example the
    scan stops at the sponsor's introductory remarks, whose text does not
    contain the double quotes that the pattern asks for: [active_at] is the
    time of the remarks, not of the vote.  The other two cases hold: a
    referral and a calendar placement alone are inactive, and a first action
    of another type is the activation point. *)
Lemma activation_scan_on_code :
  history_of [] "active" = Ok (JBool true)
  /\ history_of remarks_then_vote "active" = Ok (JBool true)
  /\ history_of remarks_then_vote "active_at"
     = Ok (JStr "2019-01-11T00:00:00.000Z")
  /\ history_of (take 2 remarks_then_vote) "active" = Ok (JBool false).
Proof. split_and!; vm_compute; reflexivity. Qed.

(** The last case of the scan, in general: a first action whose type is
    not referral, calendar or action is the activation point. *)
Remark activation_from_first (first : gmap string jsval)
    (rest : list (gmap string jsval)) :
  type_is "referral" first = false -> type_is "calendar" first = false ->
  type_is "action" first = false ->
  activation_from (first :: rest) = JObj first.
Proof. intros H1 H2 H3. cbn [activation_from]. by rewrite H1, H2, H3. Qed.

End Scenarios.

(** ** The matcher: groups that a match always binds *)

Section MatcherCaptures.
Import Js Regex Captures.

Lemma bound_clear_caps i gs x :
  mentions i gs = false -> bound i (clear_caps gs x) = bound i x.
Proof.
  intros Hi. unfold bound, clear_caps. cbn [m_caps].
  induction (m_caps x) as [|[j v] caps IH]; [done|].
  cbn [List.filter existsb fst].
  destruct (existsb (Nat.eqb j) gs) eqn:Ej; cbn [negb existsb fst].
  - rewrite IH. destruct (Nat.eqb_spec j i) as [->|]; [|done].
    unfold mentions in Hi. congruence.
  - by rewrite IH.
Qed.

Lemma mentions_app i a b : mentions i (a ++ b) = mentions i a || mentions i b.
Proof. apply existsb_app. Qed.

Lemma mentions_In i gs : mentions i gs = true <-> In i gs.
Proof.
  unfold mentions. rewrite existsb_exists. split.
  - intros (j & Hj & E). apply Nat.eqb_eq in E. by subst.
  - intros H. exists i. split; [done|]. apply Nat.eqb_refl.
Qed.

Lemma one_char_binding p : binding [] [] (one_char p).
Proof.
  intros x k z H. unfold one_char in H.
  destruct (m_rest x) as [|ch rest]; [done|]. destruct (p ch); [|done].
  exists (advance x rest). split; [done|]. split; [|done]. intros i Hi _. exact Hi.
Qed.

Lemma repeat_loop_binding m1 gs mand greedy c :
  binding gs mand m1 ->
  forall fuel min max x z,
    repeat_loop m1 gs greedy c fuel min max x = Some z ->
    exists y, c y = Some z
      /\ (forall i, bound i x = true -> mentions i gs = false -> bound i y = true)
      /\ ((forall i, In i mand -> bound i x = true) \/ (min <> 0 /\ max <> Some 0) ->
          forall i, In i mand -> bound i y = true).
Proof.
  intros Hm1 fuel. induction fuel as [|fuel IH]; intros min max x z H; [done|].
  cbn [repeat_loop] in H.
  assert (c x = Some z ->
          exists y, c y = Some z
            /\ (forall i, bound i x = true -> mentions i gs = false -> bound i y = true)
            /\ ((forall i, In i mand -> bound i x = true) ->
                forall i, In i mand -> bound i y = true)) as Hstop.
  { intros Hc. exists x. by split. }
  assert (m1 (clear_caps gs x)
            (fun y => if Nat.eqb min 0 && Nat.eqb (m_pos y) (m_pos x) then None
                      else repeat_loop m1 gs greedy c fuel (Nat.pred min)
                             (option_map Nat.pred max) y) = Some z ->
          exists y, c y = Some z
            /\ (forall i, bound i x = true -> mentions i gs = false -> bound i y = true)
            /\ (forall i, In i mand -> bound i y = true)) as Hiter.
  { intros Hm. apply Hm1 in Hm as (y1 & Hd & Hf1 & Hb1).
    destruct (Nat.eqb min 0 && Nat.eqb (m_pos y1) (m_pos x)); [done|].
    apply IH in Hd as (y & Hc & Hf & Hb). exists y. split; [done|]. split.
    - intros i Hi Hgs. apply Hf; [|done]. apply Hf1; [|done].
      by rewrite bound_clear_caps.
    - apply Hb. by left. }
  destruct max as [[|max]|].
  - exists x. split; [done|]. split; [done|]. intros [Hb|[_ Hmax]]; [done|done].
  - destruct (Nat.eqb_spec min 0) as [->|Hmin]; cbn [negb] in H.
    + destruct greedy.
      * destruct (m1 _ _) as [z'|] eqn:Em.
        -- injection H as ->. destruct (Hiter eq_refl) as (y & ? & ? & ?). by exists y.
        -- destruct (Hstop H) as (y & ? & ? & Hb). exists y. split; [done|]. split; [done|].
           intros [Hx|[Hc _]]; [by apply Hb|done].
      * destruct (c x) as [z'|] eqn:Ec.
        -- injection H as ->. destruct (Hstop eq_refl) as (y & ? & ? & Hb).
           exists y. split; [done|]. split; [done|].
           intros [Hx|[Hc _]]; [by apply Hb|done].
        -- destruct (Hiter H) as (y & ? & ? & ?). by exists y.
    + destruct (Hiter H) as (y & ? & ? & ?). by exists y.
  - destruct (Nat.eqb_spec min 0) as [->|Hmin]; cbn [negb] in H.
    + destruct greedy.
      * destruct (m1 _ _) as [z'|] eqn:Em.
        -- injection H as ->. destruct (Hiter eq_refl) as (y & ? & ? & ?). by exists y.
        -- destruct (Hstop H) as (y & ? & ? & Hb). exists y. split; [done|]. split; [done|].
           intros [Hx|[Hc _]]; [by apply Hb|done].
      * destruct (c x) as [z'|] eqn:Ec.
        -- injection H as ->. destruct (Hstop eq_refl) as (y & ? & ? & Hb).
           exists y. split; [done|]. split; [done|].
           intros [Hx|[Hc _]]; [by apply Hb|done].
        -- destruct (Hiter H) as (y & ? & ? & ?). by exists y.
    + destruct (Hiter H) as (y & ? & ? & ?). by exists y.
Qed.

Lemma rmatch_binding ci r : binding (groups_of r) (mandatory r) (rmatch ci r).
Proof.
  induction r as [| | | |r1 IH1 r2 IH2|r1 IH1 r2 IH2|min max greedy r1 IH1|i r1 IH1| |];
    intros x k z H; cbn [rmatch groups_of mandatory] in *.
  - exists x. by split.
  - by apply one_char_binding in H.
  - by apply one_char_binding in H.
  - by apply one_char_binding in H.
  - apply IH1 in H as (y1 & H & Hf1 & Hb1). apply IH2 in H as (y & H & Hf2 & Hb2).
    exists y. split; [done|]. split.
    + intros i Hi Hgs. rewrite mentions_app in Hgs. apply orb_false_iff in Hgs as [? ?].
      apply Hf2; [|done]. by apply Hf1.
    + intros i Hi. apply in_app_or in Hi as [Hi|Hi]; [|by apply Hb2].
      apply filter_In in Hi as [Hi Hn]. apply negb_true_iff in Hn.
      apply Hf2; [|done]. by apply Hb1.
  - assert (rmatch ci r1 x k = Some z \/ rmatch ci r2 x k = Some z) as [H1|H2].
    { destruct (rmatch ci r1 x k); [by left|by right]. }
    + apply IH1 in H1 as (y & ? & Hf & _). exists y. split; [done|]. split; [|done].
      intros i Hi Hgs. rewrite mentions_app in Hgs. apply orb_false_iff in Hgs as [? ?].
      by apply Hf.
    + apply IH2 in H2 as (y & ? & Hf & _). exists y. split; [done|]. split; [|done].
      intros i Hi Hgs. rewrite mentions_app in Hgs. apply orb_false_iff in Hgs as [? ?].
      by apply Hf.
  - apply (repeat_loop_binding _ _ (mandatory r1)) in H as (y & ? & ? & Hb); [|done].
    exists y. split; [done|]. split; [done|].
    destruct (Nat.eqb_spec min 0) as [|Hmin]; [done|].
    destruct max as [[|max]|]; [done| |]; intros i Hi; apply Hb; try done; by right.
  - apply IH1 in H as (y1 & H & Hf & Hb).
    eexists. split; [exact H|]. unfold bound, set_cap in *. cbn [m_caps existsb fst].
    split.
    + intros j Hj Hgs. unfold mentions in Hgs. cbn [existsb] in Hgs.
      apply orb_false_iff in Hgs as [_ Hgs]. rewrite (Hf j Hj Hgs). apply orb_true_r.
    + intros j [->|Hj]; [by rewrite Nat.eqb_refl|]. rewrite (Hb j Hj). apply orb_true_r.
  - destruct (Nat.eqb (m_pos x) 0); [|done]. exists x. by split.
  - destruct (m_rest x); [|done]. exists x. by split.
Qed.

Lemma search_Some ci r s : forall pos start y,
  search ci r pos s = Some (start, y) ->
  exists rest, rmatch ci r (MState start rest []) Some = Some y.
Proof.
  induction s as [|ch s IH]; intros pos start y H; cbn [search] in H.
  - destruct (rmatch ci r _ _) eqn:E; [|done]. injection H as <- <-. eauto.
  - destruct (rmatch ci r _ _) eqn:E; [injection H as <- <-; eauto|]. eauto.
Qed.

(** A capture group on the spine of a pattern is defined in every match. *)
Lemma exec_binds re s m i :
  exec re s = Some m -> binds re i = true -> exists v, group m i = Some v.
Proof.
  unfold exec, binds. intros H Hi.
  destruct (search _ _ _ _) as [[start y]|] eqn:E; [|done]. injection H as <-.
  apply search_Some in E as [rest E].
  apply rmatch_binding in E as (y' & [= <-] & _ & Hb).
  apply mentions_In in Hi. specialize (Hb i Hi).
  unfold group, bound in *. cbn [captures].
  induction (m_caps y') as [|[j v] caps IH]; [done|]. cbn [existsb find fst] in *.
  destruct (Nat.eqb j i); [eauto|]. by apply IH.
Qed.

End MatcherCaptures.

(** ** The classifier: when it throws *)

Section ClassifierOutcome.
Import Js Bill Regex Captures Outcome.

Lemma rule_house_vote_total : total rule_house_vote.
Proof.
  intros c l. unfold rule_house_vote.
  destruct (exec Patterns.house_vote_re _) as [m|] eqn:E; [|eauto].
  destruct (exec_binds _ _ _ 5 E) as [v Hv]; [by vm_compute|].
  rewrite Hv. cbn [of_opt as_string bind].
  destruct (normalize_how _ _ _). eauto.
Qed.

Lemma rule_house_pursuant_total : total rule_house_pursuant.
Proof. intros c l. unfold rule_house_pursuant. destruct (test _ _); eauto. Qed.

Lemma rule_house_table_total : total rule_house_table.
Proof.
  intros c l. unfold rule_house_table.
  destruct (exec Patterns.table_re _) as [m|] eqn:E; [|eauto].
  destruct (exec_binds _ _ _ 1 E) as [v Hv]; [by vm_compute|].
  rewrite Hv. cbn [of_opt as_string bind].
  destruct (normalize_how _ _ _). eauto.
Qed.

Lemma rule_senate_vote_total : total rule_senate_vote.
Proof.
  intros c l. unfold rule_senate_vote.
  destruct (exec Patterns.senate_vote_re _) as [m|] eqn:E; [|eauto].
  destruct (exec_binds _ _ _ 3 E) as [v Hv]; [by vm_compute|].
  rewrite Hv. cbn [of_opt as_string bind].
  destruct (if test Patterns.over_veto_re _ then _ else _).
  destruct (normalize_how _ _ _). eauto.
Qed.

Lemma rule_calendar_total : total rule_calendar.
Proof. intros c l. unfold rule_calendar. destruct (test _ _); eauto. Qed.

Lemma rule_reported_with_total re : total (rule_reported_with re).
Proof. intros c l. unfold rule_reported_with. destruct (exec _ _); eauto. Qed.

Lemma rule_hearings_total : total rule_hearings.
Proof. intros c l. unfold rule_hearings. destruct (exec _ _); eauto. Qed.

Lemma rule_topresident_total : total rule_topresident.
Proof. intros c l. unfold rule_topresident. destruct (test _ _); eauto. Qed.

Lemma rule_signed_total : total rule_signed.
Proof. intros c l. unfold rule_signed. destruct (test _ _); eauto. Qed.

Lemma rule_vetoed_total : total rule_vetoed.
Proof. intros c l. unfold rule_vetoed. do 2 (destruct (test _ _); eauto). Qed.

Lemma rule_archivist_total : total rule_archivist.
Proof. intros c l. unfold rule_archivist. destruct (test _ _); eauto. Qed.

Lemma rule_enacted_total : total rule_enacted.
Proof.
  intros c l. unfold rule_enacted.
  destruct (exec Patterns.law_re _) as [m|] eqn:E; [|eauto].
  destruct (exec_binds _ _ _ 1 E) as [v1 Hv1]; [by vm_compute|].
  destruct (exec_binds _ _ _ 2 E) as [v2 Hv2]; [by vm_compute|].
  rewrite Hv1, Hv2. cbn [of_opt as_string bind].
  destruct (_ || _); [eauto|]. destruct (_ || _); eauto.
Qed.

Lemma rule_referral_total : total rule_referral.
Proof. intros c l. unfold rule_referral. destruct (test _ _); eauto. Qed.

Lemma run_rules_total rs c :
  Forall total rs -> forall l, exists l', run_rules rs c l = Ok l'.
Proof.
  induction 1 as [|r rs Hr _ IH]; intros l; cbn [run_rules]; [eauto|].
  destruct (Hr c l) as [l1 ->]. cbn [bind]. apply IH.
Qed.

Lemma rules_before_total : Forall total rules_before.
Proof.
  unfold rules_before.
  repeat constructor;
    auto using rule_house_vote_total, rule_house_pursuant_total,
      rule_house_table_total, rule_senate_vote_total, rule_calendar_total,
      rule_hearings_total;
    apply rule_reported_with_total.
Qed.

Lemma rules_after_total : Forall total rules_after.
Proof.
  unfold rules_after.
  repeat constructor;
    auto using rule_topresident_total, rule_signed_total, rule_vetoed_total,
      rule_archivist_total, rule_enacted_total, rule_referral_total.
Qed.

(** The cascade throws exactly when the discharge pattern matches. *)
Lemma run_rules_outcome c l :
  if test Patterns.discharged_re (c_text c)
  then run_rules rules c l = Err TypeError
  else exists l', run_rules rules c l = Ok l'.
Proof.
  change rules with (rules_before ++ rule_discharged :: rules_after).
  rewrite run_rules_app.
  destruct (run_rules_total _ c rules_before_total l) as [l1 ->].
  cbn [bind run_rules]. unfold rule_discharged, test.
  destruct (exec Patterns.discharged_re (c_text c)); [done|].
  cbn [bind]. apply run_rules_total, rules_after_total.
Qed.

(** [parse_bill_action] on an action object with a text: the split of the
    bill id, the test for an amendment, and the cascade. *)
Lemma parse_bill_action_run (d : gmap string jsval) (text : string)
    (prev_status title : option string) (bill_id : string) :
  d !! "text" = Some (JStr text) ->
  parse_bill_action d (of_opt prev_status) bill_id (of_opt title)
  = (parts <- split_bill_id bill_id ;;
     if test Patterns.amdt_re text then Ok ∅
     else
       l <- run_rules rules
              (Context text (default "" prev_status) bill_id (bill_type parts)
                 (default "" title))
              initial_locals ;;
       Ok (<["status" := v_status l]> (<["action" := JObj (v_action l)]> ∅))).
Proof.
  intros Hd. unfold parse_bill_action.
  assert (as_string (or_default (of_opt prev_status) (JStr ""))
          = Ok (default "" prev_status)) as -> by (by destruct prev_status).
  assert (as_string (or_default (of_opt title) (JStr ""))
          = Ok (default "" title)) as -> by (by destruct title).
  cbn [bind]. destruct (split_bill_id bill_id) as [parts|e]; [|done].
  cbn [bind]. unfold prop. rewrite Hd. cbn [default from_option id str_of as_string bind].
  done.
Qed.

(** X1. The outcomes of [parse_bill_action] on an action object with a
    text, for a prior status and a title that are strings or [undefined]:
    the 404 object of [split_bill_id] when the bill id is not valid; the
    empty object when the text starts with an amendment number; a TypeError
    when the text matches the pattern of a committee discharge (the rule
    calls [m.group], which a match array does not have); and an object with
    an [action] and a [status] in every other case. *)
Theorem parse_bill_action_outcome (d : gmap string jsval) (text : string)
    (prev_status title : option string) (bill_id : string) :
  d !! "text" = Some (JStr text) ->
  match split_bill_id bill_id with
  | Err e =>
      parse_bill_action d (of_opt prev_status) bill_id (of_opt title) = Err e
  | Ok _ =>
      if test Patterns.amdt_re text
      then parse_bill_action d (of_opt prev_status) bill_id (of_opt title) = Ok ∅
      else if test Patterns.discharged_re text
      then parse_bill_action d (of_opt prev_status) bill_id (of_opt title)
           = Err TypeError
      else exists action status,
           parse_bill_action d (of_opt prev_status) bill_id (of_opt title)
           = Ok (<["status" := status]> (<["action" := JObj action]> ∅))
  end.
Proof.
  intros Hd. rewrite (parse_bill_action_run d text) by done.
  destruct (split_bill_id bill_id) as [parts|e]; [|done]. cbn [bind].
  destruct (test Patterns.amdt_re text); [done|].
  pose proof (run_rules_outcome
                (Context text (default "" prev_status) bill_id (bill_type parts)
                   (default "" title)) initial_locals) as H.
  cbn [c_text] in H.
  destruct (test Patterns.discharged_re text).
  - by rewrite H.
  - destruct H as [l' ->]. cbn [bind]. eauto.
Qed.

(** Witness of X1: a discharge from committee, on the bill hr1234-116. *)
Lemma parse_bill_action_outcome_witness :
  parse_bill_action discharge_action JUndef "hr1234-116" JUndef = Err TypeError.
Proof.
  pose proof (parse_bill_action_outcome discharge_action
                "Committee on the Judiciary. Discharged by Unanimous Consent."
                None None "hr1234-116" eq_refl) as H.
  vm_compute in H. exact H.
Defined.

Lemma action_for_text toISO item :
  dated toISO item = true ->
  exists d, action_for toISO item = Ok d /\ d !! "text" = Some (JStr (clean_text item)).
Proof.
  unfold dated, action_for. destruct (toISO (date_text item)) as [iso|]; [|done].
  intros _. cbn [bind]. eexists. split; [done|]. by rewrite lookup_insert_eq.
Qed.

Lemma build_dict_outcome toISO bill_id title item index :
  dated toISO item = true ->
  match split_bill_id bill_id with
  | Err e => build_dict toISO bill_id (of_opt title) item index = Err e
  | Ok _ =>
      if discharge item
      then build_dict toISO bill_id (of_opt title) item index = Err TypeError
      else exists r, build_dict toISO bill_id (of_opt title) item index = Ok r
  end.
Proof.
  intros Hd. rewrite build_dict_eq.
  destruct (action_for_text _ _ Hd) as (d & -> & Ht). cbn [bind].
  change (JStr "") with (of_opt (Some "")).
  rewrite (parse_bill_action_run d _ (Some "") title bill_id Ht).
  unfold discharge.
  destruct (split_bill_id bill_id) as [parts|e]; [|done]. cbn [bind].
  destruct (test Patterns.amdt_re (clean_text item)); cbn [negb andb bind];
    [eauto|].
  pose proof (run_rules_outcome
                (Context (clean_text item) "" bill_id (bill_type parts)
                   (default "" title)) initial_locals) as H.
  cbn [c_text default from_option id] in *.
  destruct (test Patterns.discharged_re (clean_text item)).
  - by rewrite H.
  - destruct H as [l' ->]. cbn [bind]. eauto.
Qed.

(** [map] over a callback that throws [e] on the elements for which [bad]
    holds and on no other. *)
Lemma map_index_outcome {A B} (f : A -> nat -> result B) (bad : A -> bool)
    (e : jserror) (l : list A) :
  (forall a i, In a l ->
     if bad a then f a i = Err e else exists b, f a i = Ok b) ->
  forall i,
    if existsb bad l then map_index f i l = Err e
    else exists bs, map_index f i l = Ok bs /\ List.length bs = List.length l.
Proof.
  induction l as [|a l IH]; intros Hf i; cbn [existsb map_index].
  - by exists [].
  - pose proof (Hf a i (or_introl eq_refl)) as Ha.
    destruct (bad a); cbn [orb]; [by rewrite Ha|].
    destruct Ha as [b ->]. cbn [bind].
    specialize (IH (fun a i H => Hf a i (or_intror H)) (S i)).
    destruct (existsb bad l).
    + by rewrite IH.
    + destruct IH as (bs & -> & Hlen). cbn [bind]. exists (b :: bs).
      split; [done|]. cbn. by rewrite Hlen.
Qed.

(** X2. The outcomes of [actions_for], for the actions that the
    deduplicator keeps when their dates are valid: with a bill id that is
    not valid, the 404 object as soon as one action is kept; with a valid
    one, a TypeError when a kept action is a committee discharge (and not
    an action on an amendment), and otherwise one classified action per
    kept action. *)
Theorem actions_for_outcome (toISOString : string -> option string)
    (items kept : list raw_action) (bill_id : string) (title : option string) :
  kept_actions toISOString items = Ok kept ->
  forallb (dated toISOString) kept = true ->
  match split_bill_id bill_id with
  | Err e =>
      actions_for toISOString items bill_id (of_opt title)
      = match kept with [] => Ok [] | _ => Err e end
  | Ok _ =>
      if existsb discharge kept
      then actions_for toISOString items bill_id (of_opt title) = Err TypeError
      else exists classified,
             actions_for toISOString items bill_id (of_opt title) = Ok classified
             /\ List.length classified = List.length kept
  end.
Proof.
  intros Hk Hdated.
  assert (actions_for toISOString items bill_id (of_opt title)
          = map_index (build_dict toISOString bill_id (of_opt title)) 0 kept) as ->.
  { unfold actions_for. destruct items; [|by rewrite Hk].
    cbn in Hk. by injection Hk as <-. }
  rewrite forallb_forall in Hdated.
  destruct (split_bill_id bill_id) as [parts|e] eqn:Eid.
  - apply (map_index_outcome _ discharge TypeError). intros a i Ha.
    pose proof (build_dict_outcome toISOString bill_id title a i (Hdated a Ha)) as H.
    by rewrite Eid in H.
  - destruct kept as [|a kept]; [done|]. cbn [map_index].
    pose proof (build_dict_outcome toISOString bill_id title a 0
                  (Hdated a (or_introl eq_refl))) as H.
    rewrite Eid in H. by rewrite H.
Qed.

(** Witness of X2: a bill that was discharged from committee. *)
Lemma actions_for_outcome_witness :
  actions_for utc_iso discharged_bill "hr1234-116" JUndef = Err TypeError.
Proof.
  pose proof (actions_for_outcome utc_iso discharged_bill (rev discharged_bill)
                "hr1234-116" None) as H.
  vm_compute in H. apply H; reflexivity.
Defined.

End ClassifierOutcome.

(** ** The deduplicator: what it keeps, whatever the actions are *)

Section KeptActions.
Import Js Bill.
Variable toISOString : string -> option string.

Lemma keep_action_prev item cl keep cl' :
  keep_action toISOString item cl = Ok (keep, cl') ->
  (keep = true -> truthy (of_opt (text item)) = true)
  /\ (truthy (of_opt (text item)) = false -> cl' = cl)
  /\ (truthy (of_opt (text item)) = true -> prev cl = None -> keep = true).
Proof.
  unfold keep_action. destruct (truthy (of_opt (text item))); cbn [negb].
  - intros H. split; [done|]. split; [done|]. intros _ Hp. rewrite Hp in H.
    cbn [bind] in H. by injection H as <- <-.
  - intros [= <- <-]. done.
Qed.

Lemma filter_keep_sublist items : forall cl k cl',
  filter_keep toISOString items cl = Ok (k, cl') ->
  sublist k items /\ Forall (fun a => truthy (of_opt (text a)) = true) k.
Proof.
  induction items as [|item items IH]; intros cl k cl' H; cbn [filter_keep] in H.
  - injection H as <- <-. split; constructor.
  - destruct (keep_action toISOString item cl) as [[keep cl1]|] eqn:Ek; [|done].
    cbn [bind snd fst] in H.
    destruct (filter_keep toISOString items cl1) as [[k1 cl2]|] eqn:Ef; [|done].
    cbn [bind snd fst] in H. injection H as <- <-.
    apply IH in Ef as [Hs Hf]. apply keep_action_prev in Ek as [Ht _].
    destruct keep.
    + split; [by apply sublist_skip|]. constructor; [by apply Ht|done].
    + split; [by apply sublist_cons|done].
Qed.

Lemma filter_keep_first pre : forall item rest cl k cl',
  Forall (fun a => truthy (of_opt (text a)) = false) pre ->
  truthy (of_opt (text item)) = true -> prev cl = None ->
  filter_keep toISOString (pre ++ item :: rest) cl = Ok (k, cl') ->
  exists k', k = item :: k'.
Proof.
  induction pre as [|a pre IH]; intros item rest cl k cl' Hpre Hitem Hcl H;
    cbn [app filter_keep] in H.
  - destruct (keep_action toISOString item cl) as [[keep cl1]|] eqn:Ek; [|done].
    cbn [bind snd fst] in H.
    destruct (filter_keep toISOString rest cl1) as [[k1 cl2]|] eqn:Ef; [|done].
    cbn [bind snd fst] in H. injection H as <- <-.
    apply keep_action_prev in Ek as (_ & _ & Hk). rewrite (Hk Hitem Hcl). eauto.
  - apply Forall_cons in Hpre as [Ha Hpre].
    destruct (keep_action toISOString a cl) as [[keep cl1]|] eqn:Ek; [|done].
    cbn [bind snd fst] in H.
    destruct (filter_keep toISOString (pre ++ item :: rest) cl1) as [[k1 cl2]|] eqn:Ef;
      [|done].
    cbn [bind snd fst] in H. injection H as <- <-.
    apply keep_action_prev in Ek as (Hk & Hc & _). rewrite (Hc Ha) in Ef.
    destruct keep; [by rewrite Hk in Ha|]. by eapply IH.
Qed.

(** X3. Whatever the actions are, when the deduplicator returns: the kept
    actions, read from last to first, are a sublist of the source actions
    (none is invented, repeated or moved); every kept action has a
    non-empty text; and the newest action that has a text is always kept,
    as the last one. *)
Theorem kept_actions_sublist (items kept : list raw_action) :
  kept_actions toISOString items = Ok kept ->
  sublist (rev kept) items
  /\ Forall (fun a => truthy (of_opt (text a)) = true) kept
  /\ (forall pre item rest,
        items = (pre ++ item :: rest)%list ->
        Forall (fun a => truthy (of_opt (text a)) = false) pre ->
        truthy (of_opt (text item)) = true ->
        last kept = Some item).
Proof.
  unfold kept_actions. intros H.
  destruct (filter_keep toISOString items initial_closure) as [[k cl]|] eqn:E; [|done].
  cbn [bind fst] in H. injection H as <-.
  pose proof (filter_keep_sublist _ _ _ _ E) as [Hs Hf]. split_and!.
  - by rewrite rev_involutive.
  - by apply List.Forall_rev.
  - intros pre item rest -> Hpre Hitem.
    destruct (filter_keep_first pre item rest initial_closure k cl Hpre Hitem eq_refl E)
      as [k' ->].
    cbn [rev]. apply last_snoc.
Qed.

End KeptActions.

(** Witness of X3: three actions of one day, the second without text. *)
Lemma kept_actions_sublist_witness :
  sublist (rev (take 1 Dedup.with_empty_text)) Dedup.with_empty_text
  /\ Forall (fun a => Js.truthy (Js.of_opt (Bill.text a)) = true)
       (take 1 Dedup.with_empty_text)
  /\ (forall pre item rest,
        Dedup.with_empty_text = (pre ++ item :: rest)%list ->
        Forall (fun a => Js.truthy (Js.of_opt (Bill.text a)) = false) pre ->
        Js.truthy (Js.of_opt (Bill.text item)) = true ->
        last (take 1 Dedup.with_empty_text) = Some item).
Proof.
  apply (kept_actions_sublist Bill.utc_iso Dedup.with_empty_text).
  vm_compute. reflexivity.
Defined.

(** ** The shape of a classified action *)

(** The [action] object after a rule, case by case. *)
Ltac keeps_prepare :=
  inv_ok;
  repeat match goal with
  | H : (if ?b then _ else _) = (_, _) |- _ => destruct b
  | H : (_, _) = (_, _) |- _ => injection H as <- <-
  end;
  repeat first
    [ rewrite v_action_after_vote | rewrite v_action_set_status
    | rewrite v_action_promote_reported | rewrite v_action_set_type
    | rewrite v_action_set_action | progress cbn [Bill.v_action]
    | match goal with |- context [if ?b then _ else _] => destruct b end ].

Section ActionShape.
Import Js Bill Shape.

Lemma run_rules_keeps P rs c :
  Forall (keeps P) rs ->
  forall l l', run_rules rs c l = Ok l' -> P (v_action l) -> P (v_action l').
Proof.
  induction 1 as [|r rs Hr _ IH]; intros l l' H Hl; cbn in H.
  - by injection H as <-.
  - destruct (r c l) as [l1|] eqn:E; [|done]. cbn in H.
    eapply IH; [done|]. by eapply Hr.
Qed.

Lemma parse_bill_action_keeps P d ps b t parsed :
  Forall (keeps P) rules -> P {[ "type" := JStr "action" ]} ->
  parse_bill_action d ps b t = Ok parsed ->
  parsed = ∅ \/ exists a s, parsed = <["status" := s]> (<["action" := JObj a]> ∅) /\ P a.
Proof.
  unfold parse_bill_action. intros HP H0 H. inv_ok; [by left|]. right.
  eexists _, _. split; [done|].
  eapply run_rules_keeps; [done|done|done].
Qed.

(** *** The rules write none of the properties of [action_for] *)

Section Foreign.
Variable k : string.
Hypothesis Hk : foreign k = true.

Local Abbreviation absent := (fun a : gmap string jsval => a !! k = None).

Ltac foreign_tac :=
  intros c l l' H Hl; keeps_prepare;
  repeat (rewrite lookup_insert_ne by (intros <-; by vm_compute in Hk));
  exact Hl.

Lemma rule_house_vote_foreign : keeps absent rule_house_vote.
Proof. unfold rule_house_vote. foreign_tac. Qed.
Lemma rule_house_pursuant_foreign : keeps absent rule_house_pursuant.
Proof. unfold rule_house_pursuant. foreign_tac. Qed.
Lemma rule_house_table_foreign : keeps absent rule_house_table.
Proof. unfold rule_house_table. foreign_tac. Qed.
Lemma rule_senate_vote_foreign : keeps absent rule_senate_vote.
Proof. unfold rule_senate_vote. foreign_tac. Qed.
Lemma rule_calendar_foreign : keeps absent rule_calendar.
Proof. unfold rule_calendar. foreign_tac. Qed.
Lemma rule_reported_with_foreign re : keeps absent (rule_reported_with re).
Proof. unfold rule_reported_with. foreign_tac. Qed.
Lemma rule_hearings_foreign : keeps absent rule_hearings.
Proof. unfold rule_hearings. foreign_tac. Qed.
Lemma rule_discharged_foreign : keeps absent rule_discharged.
Proof. unfold rule_discharged. foreign_tac. Qed.
Lemma rule_topresident_foreign : keeps absent rule_topresident.
Proof. unfold rule_topresident. foreign_tac. Qed.
Lemma rule_signed_foreign : keeps absent rule_signed.
Proof. unfold rule_signed. foreign_tac. Qed.
Lemma rule_vetoed_foreign : keeps absent rule_vetoed.
Proof. unfold rule_vetoed. foreign_tac. Qed.
Lemma rule_archivist_foreign : keeps absent rule_archivist.
Proof. unfold rule_archivist. foreign_tac. Qed.
Lemma rule_enacted_foreign : keeps absent rule_enacted.
Proof. unfold rule_enacted. foreign_tac. Qed.
Lemma rule_referral_foreign : keeps absent rule_referral.
Proof. unfold rule_referral. foreign_tac. Qed.

Lemma rules_foreign : Forall (keeps absent) rules.
Proof.
  unfold rules.
  repeat constructor;
    auto using rule_house_vote_foreign, rule_house_pursuant_foreign,
      rule_house_table_foreign, rule_senate_vote_foreign,
      rule_calendar_foreign, rule_hearings_foreign, rule_discharged_foreign,
      rule_topresident_foreign, rule_signed_foreign, rule_vetoed_foreign,
      rule_archivist_foreign, rule_enacted_foreign, rule_referral_foreign;
    apply rule_reported_with_foreign.
Qed.

Lemma build_dict_foreign toISO bill_id title item index r :
  build_dict toISO bill_id title item index = Ok r ->
  exists d, action_for toISO item = Ok d /\ r !! k = d !! k.
Proof.
  rewrite build_dict_eq. intros H.
  destruct (action_for toISO item) as [d|] eqn:Ea; [|done]. cbn [bind] in H.
  destruct (parse_bill_action d (JStr "") bill_id title) as [parsed|] eqn:Ep;
    [|done].
  cbn [bind] in H. injection H as <-. exists d. split; [done|].
  apply (parse_bill_action_keeps absent) in Ep as [->|(a & s & -> & Ha)].
  - done.
  - unfold prop. rewrite lookup_insert_ne by done. rewrite lookup_insert_eq.
    cbn [default]. by apply lookup_union_r.
  - apply rules_foreign.
  - apply lookup_singleton_ne. intros <-. by vm_compute in Hk.
Qed.

End Foreign.

Lemma map_index_Forall2 {A B} (f : A -> nat -> result B) (R : A -> B -> Prop) :
  (forall a i b, f a i = Ok b -> R a b) ->
  forall l i bs, map_index f i l = Ok bs -> Forall2 R l bs.
Proof.
  intros Hf l. induction l as [|a l IH]; intros i bs H; cbn in H.
  - injection H as <-. constructor.
  - inv_ok. constructor; eauto.
Qed.

Lemma actions_for_map toISO items bill_id title :
  actions_for toISO items bill_id title
  = (kept <- kept_actions toISO items ;;
     map_index (build_dict toISO bill_id title) 0 kept).
Proof. by destruct items. Qed.

(** X4. Classification leaves the fields of [action_for] alone: each
    classified action of [actions_for] comes from one kept action, in
    order, and agrees with the object that [action_for] builds for it on
    every property that is not one of the classifier's own ([type],
    [vote_type], [how], ...): in particular on [acted_at], [action_code]
    and [text]. *)
Theorem actions_for_frame (toISOString : string -> option string)
    (items kept : list raw_action) (bill_id : string) (title : jsval)
    (classified : list (gmap string jsval)) :
  kept_actions toISOString items = Ok kept ->
  actions_for toISOString items bill_id title = Ok classified ->
  Forall2 (fun item a =>
             exists d, action_for toISOString item = Ok d
               /\ (forall k, foreign k = true -> a !! k = d !! k)
               /\ a !! "acted_at" = d !! "acted_at"
               /\ a !! "action_code" = d !! "action_code"
               /\ a !! "text" = d !! "text")
          kept classified.
Proof.
  intros Hk H. rewrite actions_for_map, Hk in H. cbn [bind] in H.
  eapply map_index_Forall2; [|exact H].
  intros item i r Hr.
  destruct (build_dict_foreign "acted_at" eq_refl _ _ _ _ _ _ Hr) as (d & Hd & H1).
  exists d. split; [done|]. split_and!.
  - intros k Hk'. destruct (build_dict_foreign k Hk' _ _ _ _ _ _ Hr) as (d' & Hd' & H').
    rewrite Hd in Hd'. by injection Hd' as <-.
  - done.
  - destruct (build_dict_foreign "action_code" eq_refl _ _ _ _ _ _ Hr) as (d' & Hd' & H').
    rewrite Hd in Hd'. by injection Hd' as <-.
  - destruct (build_dict_foreign "text" eq_refl _ _ _ _ _ _ Hr) as (d' & Hd' & H').
    rewrite Hd in Hd'. by injection Hd' as <-.
Qed.

(** Witness of X4: the actions of scenario B. *)
Lemma actions_for_frame_witness :
  Forall2 (fun item a =>
             exists d, action_for utc_iso item = Ok d
               /\ (forall k, foreign k = true -> a !! k = d !! k)
               /\ a !! "acted_at" = d !! "acted_at"
               /\ a !! "action_code" = d !! "action_code"
               /\ a !! "text" = d !! "text")
          (ok_or [] (kept_actions utc_iso (actions Examples.scenario_B)))
          (ok_or []
             (actions_for utc_iso (actions Examples.scenario_B) "hr1234-116"
                (JStr "To do things."))).
Proof.
  apply (actions_for_frame utc_iso (actions Examples.scenario_B) _ "hr1234-116"
           (JStr "To do things."));
    apply is_ok_eq; vm_compute; reflexivity.
Defined.

(** *** The types of the classified actions *)

Local Abbreviation is_typed := (fun a : gmap string jsval => typed a = true).

Ltac typed_tac :=
  intros c l l' H Hl; keeps_prepare; unfold typed in *;
  repeat (rewrite lookup_insert_ne by done);
  first [ rewrite lookup_insert_eq; reflexivity | exact Hl ].

Lemma rule_house_vote_typed : keeps is_typed rule_house_vote.
Proof. unfold rule_house_vote. typed_tac. Qed.
Lemma rule_house_pursuant_typed : keeps is_typed rule_house_pursuant.
Proof. unfold rule_house_pursuant. typed_tac. Qed.
Lemma rule_house_table_typed : keeps is_typed rule_house_table.
Proof. unfold rule_house_table. typed_tac. Qed.
Lemma rule_senate_vote_typed : keeps is_typed rule_senate_vote.
Proof. unfold rule_senate_vote. typed_tac. Qed.
Lemma rule_calendar_typed : keeps is_typed rule_calendar.
Proof. unfold rule_calendar. typed_tac. Qed.
Lemma rule_reported_with_typed re : keeps is_typed (rule_reported_with re).
Proof. unfold rule_reported_with. typed_tac. Qed.
Lemma rule_hearings_typed : keeps is_typed rule_hearings.
Proof. unfold rule_hearings. typed_tac. Qed.
Lemma rule_discharged_typed : keeps is_typed rule_discharged.
Proof. unfold rule_discharged. typed_tac. Qed.
Lemma rule_topresident_typed : keeps is_typed rule_topresident.
Proof. unfold rule_topresident. typed_tac. Qed.
Lemma rule_signed_typed : keeps is_typed rule_signed.
Proof. unfold rule_signed. typed_tac. Qed.
Lemma rule_vetoed_typed : keeps is_typed rule_vetoed.
Proof. unfold rule_vetoed. typed_tac. Qed.
Lemma rule_archivist_typed : keeps is_typed rule_archivist.
Proof. unfold rule_archivist. typed_tac. Qed.
Lemma rule_enacted_typed : keeps is_typed rule_enacted.
Proof. unfold rule_enacted. typed_tac. Qed.
Lemma rule_referral_typed : keeps is_typed rule_referral.
Proof. unfold rule_referral. typed_tac. Qed.

Lemma rules_typed : Forall (keeps is_typed) rules.
Proof.
  unfold rules.
  repeat constructor;
    auto using rule_house_vote_typed, rule_house_pursuant_typed,
      rule_house_table_typed, rule_senate_vote_typed,
      rule_calendar_typed, rule_hearings_typed, rule_discharged_typed,
      rule_topresident_typed, rule_signed_typed, rule_vetoed_typed,
      rule_archivist_typed, rule_enacted_typed, rule_referral_typed;
    apply rule_reported_with_typed.
Qed.

Lemma build_dict_typed toISO bill_id title item index r :
  build_dict toISO bill_id title item index = Ok r -> typed r = true.
Proof.
  rewrite build_dict_eq. intros H.
  destruct (action_for toISO item) as [d|] eqn:Ea; [|done]. cbn [bind] in H.
  destruct (parse_bill_action d (JStr "") bill_id title) as [parsed|] eqn:Ep;
    [|done].
  cbn [bind] in H. injection H as <-.
  assert (typed d = true) as Hd.
  { unfold action_for in Ea. inv_ok. unfold typed.
    rewrite lookup_insert_ne by done. by rewrite lookup_insert_eq. }
  apply (parse_bill_action_keeps is_typed) in Ep as [->|(a & s & -> & Ha)].
  - done.
  - unfold prop. rewrite lookup_insert_ne by done. rewrite lookup_insert_eq.
    cbn [default id]. unfold typed in *.
    destruct (a !! "type") as [v|] eqn:Et; [|done].
    by rewrite (lookup_union_Some_l _ _ _ _ Et).
  - apply rules_typed.
  - done.
Qed.

(** X5. Every classified action of [actions_for] has a [type], and it is
    one of action, vote, vote-aux, calendar, reported, hearings,
    topresident, signed, vetoed, enacted and referral.  No classified
    action has the type "discharged" that the discharge rule assigns. *)
Theorem actions_for_types (toISOString : string -> option string)
    (items : list raw_action) (bill_id : string) (title : jsval)
    (classified : list (gmap string jsval)) :
  actions_for toISOString items bill_id title = Ok classified ->
  Forall (fun a => exists t, a !! "type" = Some (JStr t)
                     /\ In t action_types /\ t <> "discharged") classified.
Proof.
  intros H. rewrite actions_for_map in H. inv_ok.
  eapply map_index_Forall; [|done].
  intros item i r Hr. apply build_dict_typed in Hr. unfold typed in Hr.
  destruct (r !! "type") as [[| | |t| |]|]; try done.
  exists t. split; [done|]. apply existsb_exists in Hr as (t' & Hin & Heq).
  apply String.eqb_eq in Heq as <-. split; [done|].
  intros ->. revert Hin. cbn. intuition discriminate.
Qed.

(** Witness of X5: the actions of scenario B. *)
Lemma actions_for_types_witness :
  Forall (fun a => exists t, a !! "type" = Some (JStr t)
                     /\ In t action_types /\ t <> "discharged")
    (ok_or []
       (actions_for utc_iso (actions Examples.scenario_B) "hr1234-116"
          (JStr "To do things."))).
Proof.
  apply (actions_for_types utc_iso (actions Examples.scenario_B) "hr1234-116"
           (JStr "To do things.")).
  apply is_ok_eq. vm_compute. reflexivity.
Defined.

End ActionShape.

(** ** The history summary *)

Section HistorySummary.
Import Js Bill History.

Lemma filter_pop_existsb {A} (p : A -> bool) (l : list A) :
  match filter_pop p l with
  | Some a => existsb p l = true /\ p a = true /\ In a l
  | None => existsb p l = false
  end.
Proof.
  unfold filter_pop. destruct (last (List.filter p l)) as [a|] eqn:E.
  - apply last_Some in E as [l' E].
    assert (In a (List.filter p l)) as Hin by (rewrite E; apply in_or_app; right; by left).
    apply filter_In in Hin as [Hin Hp]. split_and!; [|done|done].
    apply existsb_exists. eauto.
  - apply last_None in E. destruct (existsb p l) eqn:Ex; [|done].
    apply existsb_exists in Ex as (a & Hin & Hp).
    assert (In a (List.filter p l)) as Hf by (by apply filter_In).
    by rewrite E in Hf.
Qed.

Lemma record_vote_ne key v h k :
  k <> key -> k <> key +:+ "_at" -> record_vote key v h !! k = h !! k.
Proof.
  intros H1 H2. unfold record_vote. destruct v; [|done].
  by rewrite !lookup_insert_ne.
Qed.

Lemma record_flag_ne key v h k :
  k <> key -> k <> key +:+ "_at" -> record_flag key v h !! k = h !! k.
Proof.
  intros H1 H2. unfold record_flag. destruct v; by rewrite !lookup_insert_ne.
Qed.

Lemma record_flag_eq key v h :
  key <> key +:+ "_at" ->
  record_flag key v h !! key
  = Some (JBool (match v with Some _ => true | None => false end)).
Proof.
  intros H. unfold record_flag. destruct v.
  - rewrite lookup_insert_ne by done. by rewrite lookup_insert_eq.
  - by rewrite lookup_insert_eq.
Qed.

Lemma is_Some_filter_pop {A} (p : A -> bool) (l : list A) :
  match filter_pop p l with Some _ => true | None => false end = existsb p l.
Proof.
  pose proof (filter_pop_existsb p l) as H.
  destruct (filter_pop p l); [by destruct H as [-> _]|done].
Qed.

Lemma history_flags (actions : list (gmap string jsval)) :
  exists h,
    history_from_actions actions = Ok h
    /\ h !! "active" = Some (JBool (truthy (activation_from actions)))
    /\ h !! "vetoed" = Some (JBool (existsb (type_is "vetoed") actions))
    /\ h !! "enacted" = Some (JBool (existsb (type_is "enacted") actions))
    /\ h !! "awaiting_signature"
       = Some (JBool (existsb (type_is "topresident") actions
                      && negb (existsb (type_is "vetoed") actions)
                      && negb (existsb (type_is "enacted") actions))).
Proof.
  unfold history_from_actions.
  set (h0 := if truthy (activation_from actions) then _ else _).
  assert (exists h, h0 = Ok h
            /\ h !! "active" = Some (JBool (truthy (activation_from actions)))
            /\ h !! "vetoed" = None /\ h !! "enacted" = None) as (h & -> & Ha & Hv & He).
  { subst h0. destruct (truthy (activation_from actions)) eqn:Et.
    - destruct (activation_from actions); try done; cbn [get bind];
        eexists; (split; [done|]); by rewrite lookup_insert_ne, lookup_insert_eq.
    - eexists. split; [done|]. by rewrite lookup_insert_eq. }
  cbn [bind]. cbv zeta.
  set (h1 := record_flag "vetoed" _ _).
  set (h2 := record_flag "enacted" _ _).
  assert (h2 !! "active" = Some (JBool (truthy (activation_from actions)))) as Hactive.
  { subst h2 h1. rewrite record_flag_ne, !record_vote_ne, record_flag_ne, !record_vote_ne by done.
    done. }
  assert (h2 !! "vetoed" = Some (JBool (existsb (type_is "vetoed") actions))) as Hvetoed.
  { subst h2 h1. rewrite record_flag_ne, !record_vote_ne by done.
    rewrite record_flag_eq by done. by rewrite is_Some_filter_pop. }
  assert (h2 !! "enacted" = Some (JBool (existsb (type_is "enacted") actions))) as Henacted.
  { subst h2. rewrite record_flag_eq by done. by rewrite is_Some_filter_pop. }
  clearbody h2. unfold prop. rewrite Hvetoed, Henacted. cbn [default from_option id truthy].
  pose proof (is_Some_filter_pop (type_is "topresident") actions) as Htp.
  destruct (filter_pop (type_is "topresident") actions) as [a|]; rewrite <- Htp;
    cbn [andb].
  - destruct (negb _ && negb _) eqn:E; eexists; (split; [done|]).
    + rewrite !(lookup_insert_ne _ "awaiting_signature_since") by done.
      rewrite !(lookup_insert_ne _ "awaiting_signature") by done.
      by rewrite lookup_insert_eq.
    + rewrite !(lookup_insert_ne _ "awaiting_signature") by done.
      by rewrite lookup_insert_eq.
  - eexists. split; [done|].
    rewrite !(lookup_insert_ne _ "awaiting_signature") by done.
    by rewrite lookup_insert_eq.
Qed.

(** X6. [history_from_actions] never throws, and its four flags are
    always booleans: [active] is the truthiness of the activation (true for
    a bill without actions, whose activation is an empty array), [vetoed]
    and [enacted] tell whether an action of that type exists, and
    [awaiting_signature] holds exactly when an action of type topresident
    exists and the bill is neither vetoed nor enacted. *)
Theorem history_from_actions_flags (actions : list (gmap string jsval)) :
  exists h,
    history_from_actions actions = Ok h
    /\ h !! "active" = Some (JBool (truthy (activation_from actions)))
    /\ h !! "vetoed" = Some (JBool (existsb (type_is "vetoed") actions))
    /\ h !! "enacted" = Some (JBool (existsb (type_is "enacted") actions))
    /\ h !! "awaiting_signature"
       = Some (JBool (existsb (type_is "topresident") actions
                      && negb (existsb (type_is "vetoed") actions)
                      && negb (existsb (type_is "enacted") actions)))
    /\ (h !! "awaiting_signature" = Some (JBool true) ->
        h !! "vetoed" = Some (JBool false) /\ h !! "enacted" = Some (JBool false))
    /\ (actions = [] -> h !! "active" = Some (JBool true)).
Proof.
  destruct (history_flags actions) as (h & Hh & Ha & Hv & He & Hs).
  exists h. split_and!; try done.
  - rewrite Hs, Hv, He. intros [= H].
    apply andb_true_iff in H as [H He']. apply andb_true_iff in H as [_ Hv'].
    apply negb_true_iff in Hv', He'. by rewrite Hv', He'.
  - intros ->. by rewrite Ha.
Qed.

Lemma filter_pop_last {A} (p : A -> bool) (l pre post : list A) (a : A) :
  l = (pre ++ a :: post)%list -> p a = true ->
  forallb (fun x => negb (p x)) post = true ->
  filter_pop p l = Some a.
Proof.
  intros -> Ha Hpost. unfold filter_pop.
  rewrite List.filter_app. cbn [List.filter]. rewrite Ha.
  assert (List.filter p post = []) as ->.
  { induction post as [|x post IH]; [done|]. cbn in *.
    apply andb_true_iff in Hpost as [Hx Hpost]. apply negb_true_iff in Hx.
    rewrite Hx. by apply IH. }
  apply last_snoc.
Qed.

Lemma filter_pop_none {A} (p : A -> bool) (l : list A) :
  existsb p l = false -> filter_pop p l = None.
Proof.
  intros H. pose proof (filter_pop_existsb p l) as H'.
  destruct (filter_pop p l); [|done]. destruct H' as [H' _]. congruence.
Qed.

Lemma record_vote_eq key v h :
  key <> key +:+ "_at" ->
  record_vote key v h !! key
  = match v with Some a => Some (prop a "result") | None => h !! key end
  /\ record_vote key v h !! (key +:+ "_at")
    = match v with
      | Some a => Some (prop a "acted_at")
      | None => h !! (key +:+ "_at")
      end.
Proof.
  intros H. unfold record_vote. destruct v; [|done].
  rewrite lookup_insert_ne by done. by rewrite !lookup_insert_eq.
Qed.

Lemma record_flag_at key v h :
  record_flag key v h !! (key +:+ "_at")
  = match v with
    | Some a => Some (prop a "acted_at")
    | None => h !! (key +:+ "_at")
    end.
Proof.
  unfold record_flag. destruct v; [by rewrite lookup_insert_eq|].
  destruct (decide (key = key +:+ "_at")) as [E|E].
  - exfalso. apply (f_equal String.length) in E. rewrite length_append in E.
    cbn in E. lia.
  - by rewrite lookup_insert_ne.
Qed.

Lemma insert_cong (k' k : string) (v : jsval) (h h' : gmap string jsval) :
  h !! k = h' !! k -> <[k' := v]> h !! k = <[k' := v]> h' !! k.
Proof.
  intros H. destruct (decide (k' = k)) as [<-|];
    [by rewrite !lookup_insert_eq|by rewrite !lookup_insert_ne].
Qed.

Lemma record_vote_cong key v h h' k :
  h !! k = h' !! k -> record_vote key v h !! k = record_vote key v h' !! k.
Proof. intros H. unfold record_vote. destruct v; [|done]. by do 2 apply insert_cong. Qed.

Lemma record_flag_cong key v h h' k :
  h !! k = h' !! k -> record_flag key v h !! k = record_flag key v h' !! k.
Proof.
  intros H. unfold record_flag. destruct v; [by do 2 apply insert_cong|by apply insert_cong].
Qed.

(** The history, read at a key other than those of the activation and of
    the signature. *)
Lemma history_lookup (actions : list (gmap string jsval)) (k : string) :
  k <> "awaiting_signature" -> k <> "awaiting_signature_since" ->
  k <> "active" -> k <> "active_at" ->
  exists h,
    history_from_actions actions = Ok h /\ h !! k = records actions ∅ !! k.
Proof.
  intros K1 K2 K3 K4. unfold history_from_actions.
  set (h0 := if truthy (activation_from actions) then _ else _).
  assert (exists h, h0 = Ok h /\ h !! k = None) as (h & -> & Hk).
  { subst h0. destruct (truthy (activation_from actions)) eqn:Et.
    - destruct (activation_from actions); try done; cbn [get bind];
        eexists; (split; [done|]); by rewrite !lookup_insert_ne.
    - eexists. split; [done|]. by rewrite lookup_insert_ne. }
  cbn [bind]. cbv zeta.
  change (record_flag "enacted" _ _) with (records actions h).
  assert (records actions h !! k = records actions ∅ !! k) as Hchain.
  { unfold records.
    repeat first [apply record_flag_cong | apply record_vote_cong]. by rewrite Hk. }
  rewrite <- Hchain. generalize (records actions h). intros h2.
  destruct (filter_pop (type_is "topresident") actions) as [a|];
    [destruct (negb _ && negb _)|]; eexists; (split; [done|]);
    by rewrite !lookup_insert_ne.
Qed.

Ltac peel_records :=
  repeat first [ rewrite record_flag_ne by done | rewrite record_vote_ne by done ].

Lemma records_vote (actions : list (gmap string jsval)) key p :
  In (key, p) votes ->
  records actions ∅ !! key
  = (fun a => prop a "result") <$> filter_pop p actions
  /\ records actions ∅ !! (key +:+ "_at")
    = (fun a => prop a "acted_at") <$> filter_pop p actions.
Proof.
  unfold votes. cbn [In].
  intros [H|[H|[H|[H|[H|[]]]]]]; injection H as <- <-; unfold records;
    cbn [String.append]; split; peel_records.
  all: match goal with
       | |- record_vote ?k ?v ?h !! _ = _ =>
           destruct (record_vote_eq k v h ltac:(done)) as [E1 E2];
           cbn [String.append] in E2; rewrite ?E1, ?E2; clear E1 E2;
           destruct v; [done|]; peel_records; done
       end.
Qed.

Lemma records_flag (actions : list (gmap string jsval)) key type :
  In (key, type) flags ->
  records actions ∅ !! (key +:+ "_at")
  = (fun a => prop a "acted_at") <$> filter_pop (type_is type) actions.
Proof.
  unfold flags. cbn [In].
  intros [H|[H|[]]]; injection H as <- <-; unfold records;
    cbn [String.append]; peel_records.
  all: match goal with
       | |- record_flag ?k ?v ?h !! _ = _ =>
           pose proof (record_flag_at k v h) as E;
           cbn [String.append] in E; rewrite E; clear E;
           destruct v; [done|]; peel_records; done
       end.
Qed.

(** X7. What the history records of the votes and of the flags: for each
    of the five vote results (House and Senate passage, Senate cloture,
    House and Senate override) the [result] and the [acted_at] of the last
    action that its filter selects, and neither key when the filter selects
    none; for [vetoed] and [enacted] the [acted_at] of the last action of
    that type.  No record overwrites another. *)
Theorem history_from_actions_records (actions : list (gmap string jsval)) :
  exists h,
    history_from_actions actions = Ok h
    /\ (forall key p, In (key, p) votes ->
          (forall pre a post,
             actions = (pre ++ a :: post)%list -> p a = true ->
             forallb (fun x => negb (p x)) post = true ->
             h !! key = Some (prop a "result")
             /\ h !! (key +:+ "_at") = Some (prop a "acted_at"))
          /\ (existsb p actions = false ->
              h !! key = None /\ h !! (key +:+ "_at") = None))
    /\ (forall key type, In (key, type) flags ->
          (forall pre a post,
             actions = (pre ++ a :: post)%list -> type_is type a = true ->
             forallb (fun x => negb (type_is type x)) post = true ->
             h !! (key +:+ "_at") = Some (prop a "acted_at"))
          /\ (existsb (type_is type) actions = false ->
              h !! (key +:+ "_at") = None)).
Proof.
  destruct (history_flags actions) as (h & Hh & _).
  assert (forall k, k <> "awaiting_signature" -> k <> "awaiting_signature_since" ->
                    k <> "active" -> k <> "active_at" ->
                    h !! k = records actions ∅ !! k) as Hl.
  { intros k ? ? ? ?. destruct (history_lookup actions k) as (h' & Hh' & Hk); try done.
    rewrite Hh in Hh'. by injection Hh' as <-. }
  exists h. split; [done|]. split.
  - intros key p Hin. destruct (records_vote actions key p Hin) as [E1 E2].
    assert (h !! key = records actions ∅ !! key
            /\ h !! (key +:+ "_at") = records actions ∅ !! (key +:+ "_at")) as [-> ->].
    { unfold votes in Hin. cbn [In] in Hin.
      destruct Hin as [H|[H|[H|[H|[H|[]]]]]]; injection H as <- <-;
        split; by apply Hl. }
    rewrite E1, E2. split.
    + intros pre a post Ha Hp Hpost. by rewrite (filter_pop_last p _ _ _ _ Ha Hp Hpost).
    + intros Hn. by rewrite (filter_pop_none p _ Hn).
  - intros key type Hin. pose proof (records_flag actions key type Hin) as E.
    assert (h !! (key +:+ "_at") = records actions ∅ !! (key +:+ "_at")) as ->.
    { unfold flags in Hin. cbn [In] in Hin.
      destruct Hin as [H|[H|[]]]; injection H as <- <-; by apply Hl. }
    rewrite E. split.
    + intros pre a post Ha Hp Hpost.
      by rewrite (filter_pop_last (type_is type) _ _ _ _ Ha Hp Hpost).
    + intros Hn. by rewrite (filter_pop_none _ _ Hn).
Qed.

End HistorySummary.

(** ** The statuses that the classifier returns *)

Section StatusVocabulary.
Import Js Bill Shape.

Lemma new_status_after_vote_ok vote_type passed chamber bill_type suspension
    amended title prev_status :
  status_ok (new_status_after_vote vote_type passed chamber bill_type suspension
               amended title prev_status) = true.
Proof.
  unfold new_status_after_vote.
  repeat match goal with |- context [if ?b then _ else _] => destruct b end;
    reflexivity.
Qed.

Local Abbreviation known := (fun v : jsval => status_ok v = true).

Lemma after_vote_known c vt pf ch su am l :
  known (v_status l) -> known (v_status (after_vote c vt pf ch su am l)).
Proof.
  intros Hl. unfold after_vote. cbn [v_status].
  destruct (truthy _); [apply new_status_after_vote_ok|done].
Qed.

Ltac known_tac :=
  intros c l l' H Hl; inv_ok;
  repeat match goal with
  | H : (if ?b then _ else _) = (_, _) |- _ => destruct b
  | H : (_, _) = (_, _) |- _ => injection H as <- <-
  end;
  try apply after_vote_known;
  unfold promote_reported, set_type, set_action, set_status;
  repeat match goal with |- context [if ?b then _ else _] => destruct b end;
  cbn [v_status];
  first [ exact Hl | reflexivity ].

Lemma rule_house_vote_known : keeps_status known rule_house_vote.
Proof. unfold rule_house_vote. known_tac. Qed.
Lemma rule_house_pursuant_known : keeps_status known rule_house_pursuant.
Proof. unfold rule_house_pursuant. known_tac. Qed.
Lemma rule_house_table_known : keeps_status known rule_house_table.
Proof. unfold rule_house_table. known_tac. Qed.
Lemma rule_senate_vote_known : keeps_status known rule_senate_vote.
Proof. unfold rule_senate_vote. known_tac. Qed.
Lemma rule_calendar_known : keeps_status known rule_calendar.
Proof. unfold rule_calendar. known_tac. Qed.
Lemma rule_reported_with_known re : keeps_status known (rule_reported_with re).
Proof. unfold rule_reported_with. known_tac. Qed.
Lemma rule_hearings_known : keeps_status known rule_hearings.
Proof. unfold rule_hearings. known_tac. Qed.
Lemma rule_discharged_known : keeps_status known rule_discharged.
Proof. unfold rule_discharged. known_tac. Qed.
Lemma rule_topresident_known : keeps_status known rule_topresident.
Proof. unfold rule_topresident. known_tac. Qed.
Lemma rule_signed_known : keeps_status known rule_signed.
Proof. unfold rule_signed. known_tac. Qed.
Lemma rule_vetoed_known : keeps_status known rule_vetoed.
Proof. unfold rule_vetoed. known_tac. Qed.
Lemma rule_archivist_known : keeps_status known rule_archivist.
Proof. unfold rule_archivist. known_tac. Qed.
Lemma rule_enacted_known : keeps_status known rule_enacted.
Proof. unfold rule_enacted. known_tac. Qed.
Lemma rule_referral_known : keeps_status known rule_referral.
Proof. unfold rule_referral. known_tac. Qed.

Lemma rules_known : Forall (keeps_status known) rules.
Proof.
  unfold rules.
  repeat constructor;
    auto using rule_house_vote_known, rule_house_pursuant_known,
      rule_house_table_known, rule_senate_vote_known,
      rule_calendar_known, rule_hearings_known, rule_discharged_known,
      rule_topresident_known, rule_signed_known, rule_vetoed_known,
      rule_archivist_known, rule_enacted_known, rule_referral_known;
    apply rule_reported_with_known.
Qed.

Lemma run_rules_known rs c :
  Forall (keeps_status known) rs ->
  forall l l', run_rules rs c l = Ok l' -> known (v_status l) -> known (v_status l').
Proof.
  induction 1 as [|r rs Hr _ IH]; intros l l' H Hl; cbn in H.
  - by injection H as <-.
  - destruct (r c l) as [l1|] eqn:E; [|done]. cbn in H.
    eapply IH; [done|]. by eapply Hr.
Qed.

(** X8. The [status] of the object that [parse_bill_action] returns is
    [undefined] or one of the thirty status codes that the rules and
    [new_status_after_vote] assign; it is never INTRODUCED, and never a
    value of another type. *)
Theorem parse_bill_action_status (d : gmap string jsval) (prev_status : jsval)
    (bill_id : string) (title : jsval) (parsed : gmap string jsval) :
  parse_bill_action d prev_status bill_id title = Ok parsed ->
  prop parsed "status" = JUndef
  \/ exists s, prop parsed "status" = JStr s /\ In s statuses /\ s <> "INTRODUCED".
Proof.
  unfold parse_bill_action. intros H. inv_ok; [by left|].
  unfold prop. rewrite lookup_insert_eq. cbn [default from_option id].
  match goal with H : run_rules _ _ _ = Ok ?l |- _ =>
    pose proof (run_rules_known _ _ rules_known _ _ H eq_refl) as Hk end.
  cbv beta in Hk. unfold status_ok in Hk.
  match goal with |- ?v = _ \/ _ => destruct v as [| | |s| |]; try done end.
  - by left.
  - right. exists s. split; [done|].
    apply existsb_exists in Hk as (s' & Hin & Heq).
    apply String.eqb_eq in Heq as <-. split; [done|].
    intros ->. revert Hin. cbn. intuition discriminate.
Qed.

(** Witness of X8: the Senate passage of scenario B after the House. *)
Lemma parse_bill_action_status_witness :
  prop (ok_or ∅ (parse_bill_action
                   {[ "text" := JStr "Passed Senate without amendment by Unanimous Consent." ]}
                   (JStr "PASS_OVER:HOUSE") "hr1234-116" JUndef)) "status" = JUndef
  \/ exists s,
       prop (ok_or ∅ (parse_bill_action
                        {[ "text" := JStr "Passed Senate without amendment by Unanimous Consent." ]}
                        (JStr "PASS_OVER:HOUSE") "hr1234-116" JUndef)) "status"
       = JStr s /\ In s statuses /\ s <> "INTRODUCED".
Proof.
  apply (parse_bill_action_status
           {[ "text" := JStr "Passed Senate without amendment by Unanimous Consent." ]}
           (JStr "PASS_OVER:HOUSE") "hr1234-116" JUndef).
  apply is_ok_eq. vm_compute. reflexivity.
Defined.

End StatusVocabulary.

(** ** The titles of a bill *)

Section TitleLists.
Import Js Bill TitleList.

Lemma title_dict_shape item t :
  title_dict item = Ok t ->
  t !! "title" = Some (of_opt (title item))
  /\ (exists ty, t !! "type" = Some (JStr ty) /\ In ty title_types)
  /\ (exists b, t !! "is_for_portion" = Some (JBool b)).
Proof.
  unfold title_dict. intros H. inv_ok;
    (split; [by rewrite lookup_insert_eq|]);
    (split; [|rewrite lookup_insert_ne by done; rewrite lookup_insert_eq; eauto]);
    rewrite !(lookup_insert_ne _ _ "type") by done; rewrite lookup_insert_eq;
    eexists; (split; [done|]); cbn; tauto.
Qed.

(** X9. [titles_for] gives one title object per title of the feed, in
    order, with the title text unchanged, a boolean [is_for_portion] and a
    [type] that is one of popular, short, official, display and
    nonbillreport; and [current_title_for] returns the text of the last
    title of the feed that is classified with the type asked for. *)
Theorem titles_for_shape (items : list raw_title) (ts : list (gmap string jsval)) :
  titles_for items = Ok ts ->
  Forall2 (fun item t =>
             title_dict item = Ok t
             /\ t !! "title" = Some (of_opt (title item))
             /\ (exists ty, t !! "type" = Some (JStr ty) /\ In ty title_types)
             /\ (exists b, t !! "is_for_portion" = Some (JBool b)))
          items ts
  /\ (forall ty pre item post t,
        items = (pre ++ item :: post)%list ->
        title_dict item = Ok t -> of_type ty t = true ->
        Forall (fun later => forall t', title_dict later = Ok t' ->
                                        of_type ty t' = false) post ->
        current_title_for ts ty = of_opt (title item))
  /\ (forall ty,
        Forall (fun item => forall t', title_dict item = Ok t' ->
                                       of_type ty t' = false) items ->
        current_title_for ts ty = JUndef).
Proof.
  intros H. unfold titles_for in H.
  assert (Forall2 (fun item t => title_dict item = Ok t) items ts) as HF.
  { eapply map_index_Forall2; [|exact H]. by intros a i b Hb. }
  split_and!.
  - eapply Forall2_impl; [exact HF|]. intros item t Ht. split; [done|].
    by apply title_dict_shape.
  - intros ty pre item post t -> Ht Hty Hpost.
    apply Forall2_app_inv_l in HF as (ts1 & ts2 & _ & HF & ->).
    apply Forall2_cons_inv_l in HF as (t' & ts3 & Ht' & HF & ->).
    rewrite Ht in Ht'. injection Ht' as <-.
    unfold current_title_for.
    rewrite (filter_pop_last (fun item => eqs (prop item "type") ty) _ ts1 ts3 t
               eq_refl Hty).
    + apply title_dict_shape in Ht as [Ht _]. unfold prop. by rewrite Ht.
    + clear -HF Hpost. induction HF as [|i t' post ts3 Hi _ IH]; [done|].
      apply Forall_cons in Hpost as [Hp Hpost]. cbn [forallb].
      unfold of_type in Hp. by rewrite (Hp _ Hi), IH.
  - intros ty Hnone. unfold current_title_for.
    rewrite (filter_pop_none (fun item => eqs (prop item "type") ty)); [done|].
    clear -HF Hnone. induction HF as [|i t' items ts Hi _ IH]; [done|].
    apply Forall_cons in Hnone as [Hp Hnone]. cbn [existsb].
    unfold of_type in Hp. by rewrite (Hp _ Hi), IH.
Qed.

(** Witness of X9: a bill with two short titles. *)
Lemma titles_for_shape_witness :
  current_title_for (ok_or [] (titles_for two_short_titles)) "short"
  = JStr "Second Act".
Proof.
  assert (titles_for two_short_titles
          = Ok (ok_or [] (titles_for two_short_titles))) as H0
    by (apply is_ok_eq; vm_compute; reflexivity).
  destruct (titles_for_shape _ _ H0) as (_ & Hlast & _).
  apply (Hlast "short" (take 2 two_short_titles)
           (RawTitle (Some "Short Titles as Passed House") (Some "Second Act"))
           (skipn 3 two_short_titles)
           (ok_or ∅ (title_dict (RawTitle (Some "Short Titles as Passed House")
                                   (Some "Second Act"))))).
  - reflexivity.
  - apply is_ok_eq. vm_compute. reflexivity.
  - vm_compute. reflexivity.
  - repeat constructor. intros t' Ht'.
    apply (f_equal (fun r => of_type "short" (ok_or ∅ r))) in Ht'.
    cbn [ok_or] in Ht'. rewrite <- Ht'. vm_compute. reflexivity.
Defined.

End TitleLists.

(** ** The sitemap differ *)

Section SitemapUpdates.
Import Js Sitemap.

Lemma differ_spec (a b : option string) : differ a b = true <-> a <> b.
Proof.
  destruct a as [x|], b as [y|]; cbn.
  - rewrite negb_true_iff, String.eqb_neq. split; [congruence|].
    intros H E. apply H. by rewrite E.
  - by split.
  - by split.
  - split; [done|]. by intros H.
Qed.

Lemma needs_update_self (server : list index) (s : index) :
  NoDup (List.map loc server) -> In s server -> needs_update server s = false.
Proof.
  intros Hnd Hin. unfold needs_update.
  apply in_split in Hin as (pre & post & ->).
  rewrite (filter_pop_last _ _ pre post s eq_refl).
  - apply not_true_iff_false. rewrite differ_spec. by intros H.
  - apply String.eqb_refl.
  - rewrite map_app in Hnd. cbn [List.map] in Hnd.
    apply NoDup_app in Hnd as (_ & _ & Hnd). apply NoDup_cons in Hnd as [Hnot _].
    apply forallb_forall. intros x Hx. apply negb_true_iff.
    apply String.eqb_neq. intros E. apply Hnot. rewrite <- E.
    apply list_elem_of_In, in_map, Hx.
Qed.

Lemma filter_sublist {A} (p : A -> bool) (l : list A) :
  sublist (List.filter p l) l.
Proof.
  induction l as [|a l IH]; cbn; [constructor|].
  destruct (p a); [by apply sublist_skip|by apply sublist_cons].
Qed.

(** X10. The entries that [processIndexUpdates] queues are a sublist of the
    server's entries, in their order; with no local sitemap every entry is
    queued; an entry is left out exactly when the last local entry with its
    [loc] has the same [lastmod]; and comparing a sitemap whose [loc]s are
    distinct with itself queues nothing. *)
Theorem updates_for_spec (server local : list index) :
  sublist (updates_for server local) server
  /\ updates_for server [] = server
  /\ (forall s, In s server ->
        (In s (updates_for server local) <->
         forall l, filter_pop (fun i => String.eqb (loc i) (loc s)) local = Some l ->
                   lastmod l <> lastmod s))
  /\ (NoDup (List.map loc server) -> updates_for server server = []).
Proof.
  unfold updates_for. split_and!.
  - apply filter_sublist.
  - induction server as [|s server IH]; [done|]. cbn. by rewrite IH.
  - intros s Hs. rewrite filter_In. unfold needs_update. split.
    + intros [_ H] l Hl. rewrite Hl in H. by apply differ_spec in H.
    + intros H. split; [done|].
      destruct (filter_pop _ local) as [l|]; [|done].
      apply differ_spec. by apply H.
  - intros Hnd.
    assert (forall l, (forall s, In s l -> needs_update server s = false) ->
                      List.filter (needs_update server) l = []) as Hall.
    { induction l as [|s l IH]; intros Hl; [done|]. cbn.
      rewrite (Hl s (or_introl eq_refl)). apply IH. intros x Hx. apply Hl. by right. }
    apply Hall. intros s Hs. by apply needs_update_self.
Qed.

End SitemapUpdates.

Section SitemapQueue.
Import Js Sitemap.
Variable md5_hex : string -> string.
Variable stringify : index -> string.
Variable rejected : list entry -> option jserror.

Local Abbreviation entry_of := (createSQSEntry md5_hex stringify).

(** The run from batch [batch], when the service accepts every batch. *)
Lemma queue_batches_accepted (keys : list index) :
  (forall b, rejected b = None) ->
  forall fuel batch q,
    1 <= fuel -> List.length keys < batch * 10 + fuel * 10 ->
    exists bs,
      queue_batches md5_hex stringify rejected fuel keys batch q
      = Some (Ok (q ++ bs)%list)
      /\ List.concat bs = List.map entry_of (List.skipn (batch * 10) keys)
      /\ Forall (fun b => 1 <= List.length b <= 10) bs
      /\ List.length keys <= batch * 10 + List.length bs * 10
      /\ (List.length bs = 0
          \/ batch * 10 + List.length bs * 10 < List.length keys + 10).
Proof.
  intros Hacc fuel. induction fuel as [|fuel IH]; intros batch q Hpos1 Hfuel; [lia|].
  cbn [queue_batches]. unfold slice, sendMessageBatch.
  replace (batch * 10 + 10 - batch * 10) with 10 by lia.
  rewrite Hacc, length_map, length_take, length_skipn.
  destruct (Nat.ltb_spec 0 (10 `min` (List.length keys - batch * 10))) as [Hpos|Hzero].
  - destruct (Nat.ltb_spec (batch * 10 + 10) (List.length keys)) as [Hmore|Hlast].
    + destruct (IH (batch + 1)
                  (q ++ [List.map entry_of (take 10 (List.skipn (batch * 10) keys))])%list)
        as (bs & -> & Hc & Hf & Hlo & Hhi); [lia|lia|].
      exists (List.map entry_of (take 10 (List.skipn (batch * 10) keys)) :: bs).
      split_and!.
      * by rewrite <- app_assoc.
      * cbn [List.concat]. rewrite Hc, <- map_app. f_equal.
        replace ((batch + 1) * 10) with (10 + batch * 10) by lia.
        rewrite <- skipn_skipn. apply firstn_skipn.
      * constructor; [|done]. rewrite length_map, length_take, length_skipn. lia.
      * cbn [List.length]. lia.
      * right. cbn [List.length]. lia.
    + exists [List.map entry_of (take 10 (List.skipn (batch * 10) keys))].
      split_and!.
      * done.
      * cbn [List.concat]. rewrite app_nil_r. f_equal. apply firstn_all2.
        rewrite length_skipn. lia.
      * constructor; [|done]. rewrite length_map, length_take, length_skipn. lia.
      * cbn [List.length]. lia.
      * right. cbn [List.length]. lia.
  - exists []. split_and!.
    + by rewrite app_nil_r.
    + cbn [List.concat]. rewrite skipn_all2; [done|]. lia.
    + done.
    + cbn [List.length]. lia.
    + by left.
Qed.

(** The run always ends within the fuel that [queueIndexUpdates] gives. *)
Lemma queue_batches_ends (keys : list index) :
  forall fuel batch q,
    1 <= fuel -> List.length keys < batch * 10 + fuel * 10 ->
    exists r, queue_batches md5_hex stringify rejected fuel keys batch q = Some r.
Proof.
  intros fuel. induction fuel as [|fuel IH]; intros batch q Hpos Hfuel; [lia|].
  cbn [queue_batches].
  destruct (Nat.ltb 0 _); [|eauto].
  destruct (sendMessageBatch _ _ _) as [q'|e]; [|eauto].
  destruct (Nat.ltb_spec (batch * 10 + 10) (List.length keys)); [|eauto].
  apply IH; lia.
Qed.

(** X11. [queueIndexUpdates] always ends, and when the queue service accepts
    every batch it has sent each entry exactly once, in the order of the
    keys, in batches of one to ten entries: as many batches as the number
    of keys divided by ten, rounded up, and none for no keys. *)
Theorem queueIndexUpdates_batches (keys : list index) (q : queue) :
  (exists r, queueIndexUpdates md5_hex stringify rejected keys q = Some r)
  /\ ((forall b, rejected b = None) ->
      exists bs,
        queueIndexUpdates md5_hex stringify rejected keys q
        = Some (Ok (q ++ bs)%list)
        /\ List.concat bs = List.map entry_of keys
        /\ Forall (fun b => 1 <= List.length b <= 10) bs
        /\ List.length keys <= List.length bs * 10 < List.length keys + 10).
Proof.
  unfold queueIndexUpdates. split.
  - apply queue_batches_ends; lia.
  - intros Hacc.
    destruct (queue_batches_accepted keys Hacc (S (List.length keys)) 0 q)
      as (bs & Hq & Hc & Hf & Hlo & Hhi); [lia|lia|].
    exists bs. split_and!; try done; lia.
Qed.

End SitemapQueue.

(** Witness of X11: twenty-five entries go out in three batches. *)
Lemma queueIndexUpdates_batches_witness :
  exists bs,
    Sitemap.queueIndexUpdates Sitemap.sample_md5 Sitemap.sample_stringify
      (fun _ => None) Sitemap.sample_sitemap []
    = Some (Js.Ok ([] ++ bs)%list)
    /\ List.concat bs
       = List.map (Sitemap.createSQSEntry Sitemap.sample_md5 Sitemap.sample_stringify)
           Sitemap.sample_sitemap
    /\ Forall (fun b => 1 <= List.length b <= 10) bs
    /\ List.length Sitemap.sample_sitemap <= List.length bs * 10
       < List.length Sitemap.sample_sitemap + 10.
Proof.
  apply (proj2 (queueIndexUpdates_batches Sitemap.sample_md5
                  Sitemap.sample_stringify (fun _ => None)
                  Sitemap.sample_sitemap [])).
  reflexivity.
Defined.

(** ** Bill ids across the tasks *)

Section BillIds.
Import Js Bill Ids Sitemap.

Lemma split_build (t n c : string) :
  lower_letters t = true -> digits n = true -> digits c = true ->
  split_bill_id (build_bill_id t n c) = Ok (BillIdParts n t c).
Proof.
  unfold lower_letters, digits, build_bill_id. intros Ht Hn Hc.
  apply andb_true_iff in Ht as [Ht1 Ht2]. apply andb_true_iff in Hn as [Hn1 Hn2].
  apply andb_true_iff in Hc as [Hc1 Hc2].
  apply negb_true_iff, String.eqb_neq in Ht1, Hn1, Hc1.
  rewrite split_bill_id_eq, bill_id_match_build by done.
  by rewrite !string_of_list_ascii_of_string.
Qed.

Lemma bill_types_lower (t : string) : In t BILL_TYPES -> lower_letters t = true.
Proof. unfold BILL_TYPES. cbn [In]. intuition (subst; reflexivity). Qed.

Lemma existsb_eqs (v : jsval) (l : list string) :
  existsb (eqs v) l = true <-> exists s, v = JStr s /\ In s l.
Proof.
  rewrite existsb_exists. split.
  - intros (s & Hs & E). destruct v; try done. cbn in E.
    apply String.eqb_eq in E as ->. eauto.
  - intros (s & -> & Hs). exists s. split; [done|]. cbn. apply String.eqb_refl.
Qed.

(** X12. [validateRecord] accepts a record exactly when its congress is
    truthy and its bill type is one of the eight strings of [BILL_TYPES],
    and rejects every other record with the 400 object, whose message names
    the bill type even when the congress is what is missing.  Every bill
    type that it accepts gives, with a number and a congress made of
    digits, a bill id that [split_bill_id] of the transformation splits back
    into the same three parts, and for which [billstatus_url_for] builds
    the address of the bill's status file. *)
Theorem validateRecord_spec :
  (forall congress bill_type,
     validateRecord congress bill_type = Ok tt
     <-> truthy congress = true /\ exists s, bill_type = JStr s /\ In s BILL_TYPES)
  /\ (forall congress bill_type,
        validateRecord congress bill_type = Ok tt
        \/ validateRecord congress bill_type
           = Err (Thrown 400 ("Invalid record: " +:+ str_of bill_type)))
  /\ (forall congress bill_type number,
        validateRecord (JStr congress) (JStr bill_type) = Ok tt ->
        digits congress = true -> digits number = true ->
        split_bill_id (build_bill_id bill_type number congress)
        = Ok (BillIdParts number bill_type congress)
        /\ billstatus_url_for (build_bill_id bill_type number congress)
           = Ok ("https://www.govinfo.gov/bulkdata/BILLSTATUS/" +:+ congress
                 +:+ "/" +:+ bill_type +:+ "/BILLSTATUS-" +:+ congress
                 +:+ bill_type +:+ number +:+ ".xml")).
Proof.
  assert (forall congress bill_type,
            validateRecord congress bill_type = Ok tt
            <-> truthy congress = true
                /\ exists s, bill_type = JStr s /\ In s BILL_TYPES) as Hiff.
  { intros congress bill_type. unfold validateRecord. rewrite <- existsb_eqs.
    destruct (truthy congress); cbn [negb orb]; [|by intuition].
    destruct (existsb (eqs bill_type) BILL_TYPES) eqn:E.
    - assert (truthy bill_type = true) as ->; [|by intuition].
      apply existsb_eqs in E as (s & -> & Hs). apply bill_types_lower in Hs.
      by destruct s.
    - rewrite orb_true_r. by intuition. }
  split_and!.
  - exact Hiff.
  - intros congress bill_type. unfold validateRecord, invalid_record.
    destruct (_ || _); [by right|by left].
  - intros congress bill_type number Hv Hc Hn.
    apply Hiff in Hv as (_ & s & [= <-] & Hs).
    assert (split_bill_id (build_bill_id bill_type number congress)
            = Ok (BillIdParts number bill_type congress)) as Hsplit
      by (apply split_build; [by apply bill_types_lower|done|done]).
    split; [done|]. unfold billstatus_url_for. rewrite Hsplit. done.
Qed.

(** Witness of X12: the House bills of the 116th Congress. *)
Lemma validateRecord_spec_witness :
  split_bill_id (build_bill_id "hr" "1234" "116") = Ok (BillIdParts "1234" "hr" "116")
  /\ billstatus_url_for (build_bill_id "hr" "1234" "116")
     = Ok ("https://www.govinfo.gov/bulkdata/BILLSTATUS/" +:+ "116"
           +:+ "/" +:+ "hr" +:+ "/BILLSTATUS-" +:+ "116"
           +:+ "hr" +:+ "1234" +:+ ".xml").
Proof.
  apply (proj2 (proj2 validateRecord_spec) "116" "hr" "1234"); reflexivity.
Defined.

End BillIds.

(** ** Related bills *)

Section RelatedBills.
Import Js Bill Ids Related.

Lemma toLowerCase_letters (s : string) :
  letters s = true -> lower_letters (toLowerCase s) = true.
Proof.
  unfold letters, lower_letters. intros H. apply andb_true_iff in H as [Hne H].
  apply andb_true_iff. split; [by destruct s|].
  clear Hne. induction s as [|c s IH]; [done|]. cbn in *.
  apply andb_true_iff in H as [Hc H]. rewrite (IH H), andb_true_r.
  unfold lower. destruct (is_upper c) eqn:Eu.
  - unfold is_upper, is_lower in *.
    apply andb_true_iff in Eu as [H1 H2]. apply Nat.leb_le in H1, H2.
    rewrite nat_ascii_embedding by lia.
    apply andb_true_iff. split; apply Nat.leb_le; lia.
  - by rewrite orb_false_r in Hc.
Qed.

Lemma replace_absent (s pat rep : string) :
  includes s pat = false -> replace s pat rep = s.
Proof.
  induction s as [|c s IH]; cbn [includes replace]; intros H;
    apply orb_false_iff in H as [-> H]; [done|]. by rewrite IH.
Qed.

Lemma letters_no_dot (s : string) : letters s = true -> includes s "." = false.
Proof.
  unfold letters. intros H. apply andb_true_iff in H as [_ H].
  induction s as [|c s IH]; [done|]. cbn in H. apply andb_true_iff in H as [Hc H].
  cbn [includes startsWith]. rewrite (IH H), orb_false_r.
  destruct (Ascii.eqb_spec "."%char c) as [<-|]; [by vm_compute in Hc|done].
Qed.

(** X13. A related bill whose type is a word of letters (HR, S, HJRES, ...)
    and whose number and congress are digits gets a [bill_id] that
    [split_bill_id] accepts and splits into the number, the lower-cased
    type and the congress; its [type] is always "bill".  [build_dict]
    throws a TypeError exactly when the type of the related bill is
    missing, or the type of its last relationship detail is. *)
Theorem related_dict_bill_id (item : raw_related) :
  (is_ok (related_dict item)
   = match rel_type item with Some _ => true | None => false end
     && match last (relationshipDetails item) with
        | Some detail =>
            match detail_type detail with Some _ => true | None => false end
        | None => true
        end)
  /\ (is_ok (related_dict item) = false -> related_dict item = Err TypeError)
  /\ (forall type number congress,
        rel_type item = Some type -> rel_number item = Some number ->
        rel_congress item = Some congress ->
        letters type = true -> digits number = true -> digits congress = true ->
        forall r, related_dict item = Ok r ->
          r !! "type" = Some (JStr "bill")
          /\ r !! "bill_id" = Some (JStr (build_bill_id (toLowerCase type) number congress))
          /\ split_bill_id (build_bill_id (toLowerCase type) number congress)
             = Ok (BillIdParts number (toLowerCase type) congress)).
Proof.
  unfold related_dict, related_bill_id. split_and!.
  - destruct (rel_type item), (last (relationshipDetails item)) as [[[t|] i]|]; done.
  - destruct (rel_type item), (last (relationshipDetails item)) as [[[t|] i]|]; done.
  - intros type number congress -> -> -> Ht Hn Hc r.
    cbn [of_opt as_string bind to_string].
    rewrite (replace_absent type) by (by apply letters_no_dot).
    intros Hr.
    assert (r !! "type" = Some (JStr "bill")
            /\ r !! "bill_id"
               = Some (JStr (build_bill_id (toLowerCase type) number congress))) as [? ?].
    { destruct (last (relationshipDetails item)) as [[[t|] i]|]; try done;
        cbn [of_opt as_string bind detail_type] in Hr; injection Hr as <-;
        rewrite ?(lookup_insert_ne _ "identified_by") by done;
        (split; [by rewrite lookup_insert_eq|]);
        rewrite !(lookup_insert_ne _ "type") by done;
        by rewrite lookup_insert_eq. }
    split_and!; try done.
    apply split_build; [by apply toLowerCase_letters|done|done].
Qed.

(** Witness of X13: a Senate companion bill. *)
Lemma related_dict_bill_id_witness :
  ok_or ∅ (related_dict companion) !! "type" = Some (JStr "bill")
  /\ ok_or ∅ (related_dict companion) !! "bill_id"
     = Some (JStr (build_bill_id (toLowerCase "S") "47" "116"))
  /\ split_bill_id (build_bill_id (toLowerCase "S") "47" "116")
     = Ok (BillIdParts "47" (toLowerCase "S") "116").
Proof.
  apply (proj2 (proj2 (related_dict_bill_id companion)) "S" "47" "116");
    reflexivity.
Defined.

(** The code removes the first dot of the type only: a type written with
    two dots gives a bill id that [split_bill_id] rejects. *)
Remark related_dict_dotted :
  ok_or ∅ (related_dict (RawRelated (Some "116") (Some "1") (Some "H.R.") []))
    !! "bill_id" = Some (JStr "hr.1-116")
  /\ split_bill_id "hr.1-116" = Err (invalid_bill_id "hr.1-116").
Proof. split; vm_compute; reflexivity. Qed.

End RelatedBills.

(** ** [transformNode] *)

Section TransformNode.
Import Js Xml.

Lemma unwrap_tree_value (v : node) :
  match v with
  | Arr l => negb (Nat.eqb (List.length l) 0) && forallb is_tree l
  | _ => false
  end = true ->
  unwrap (unwrap v) = unwrap v.
Proof.
  destruct v as [|l| |]; try done. intros H. apply andb_true_iff in H as [_ H].
  destruct l as [|x [|y l]]; [done| |done].
  cbn in H. rewrite andb_true_r in H. cbn [unwrap].
  destruct x as [|l'| |]; try done.
Qed.

(** X14. On a tree of xml2js, [transformNode] is shallow and idempotent:
    it keeps the properties and their order; a property with one child
    becomes that child, untouched, and a property with several children
    keeps its array; and a second call changes nothing, which is what lets
    the code call it again on an action each time it reads one.  On other
    values it need not be idempotent. *)
Theorem transformNode_tree (res : node) :
  is_tree res = true ->
  transformNode (transformNode res) = transformNode res
  /\ (forall o, res = Obj o ->
        exists o', transformNode res = Obj o'
          /\ List.map fst o' = List.map fst o
          /\ Forall2 (fun kv kv' =>
                        match snd kv with
                        | Arr [x] => snd kv' = x
                        | v => snd kv' = v
                        end) o o')
  /\ (forall s, res = Text s -> transformNode res = res).
Proof.
  intros Ht. split_and!.
  - destruct res as [|l|o|]; try done. cbn [transformNode is_tree] in *.
    f_equal. rewrite List.map_map. cbn [fst snd].
    induction o as [|[k v] o IH]; [done|]. cbn [forallb List.map fst snd] in *.
    apply andb_true_iff in Ht as [Hv Ht]. rewrite (IH Ht).
    by rewrite (unwrap_tree_value v Hv).
  - intros o ->. eexists. split; [done|]. split.
    + rewrite List.map_map. cbn [fst]. done.
    + clear Ht. induction o as [|[k v] o IH]; cbn [List.map]; constructor; [|done].
      cbn [fst snd]. by destruct v as [|[|x [|y l]]| |].
  - by intros s ->.
Qed.

(** Witness of X14: an action of the feed. *)
Lemma transformNode_tree_witness :
  transformNode (transformNode action_item) = transformNode action_item
  /\ (forall o, action_item = Obj o ->
        exists o', transformNode action_item = Obj o'
          /\ List.map fst o' = List.map fst o
          /\ Forall2 (fun kv kv' =>
                        match snd kv with
                        | Arr [x] => snd kv' = x
                        | v => snd kv' = v
                        end) o o')
  /\ (forall s, action_item = Text s -> transformNode action_item = action_item).
Proof. apply (transformNode_tree action_item). reflexivity. Defined.

(** An array in an array is unwrapped once per call. *)
Remark transformNode_nested :
  transformNode (transformNode (Obj [("a", Arr [Arr [Text "x"]])]))
  <> transformNode (Obj [("a", Arr [Arr [Text "x"]])]).
Proof. done. Qed.

End TransformNode.

(** ** The keys that the transformation accepts *)

Section BucketKeys.
Import Js Ids Keys.

Lemma drop_split (n : nat) (s : string) : exists a, s = a +:+ drop n s.
Proof.
  revert s. induction n as [|n IH]; intros s; [by exists ""|].
  destruct s as [|c s]; [by exists ""|]. cbn [drop].
  destruct (IH s) as [a Ha]. exists (String c a).
  change (String c s = String c (a +:+ drop n s)). by f_equal.
Qed.

Lemma endsWith_inv (s p : string) : endsWith s p = true -> exists a, s = a +:+ p.
Proof.
  unfold endsWith. intros H. apply andb_true_iff in H as [_ H].
  apply String.eqb_eq in H.
  destruct (drop_split (String.length s - String.length p) s) as [a Ha].
  exists a. by rewrite H in Ha.
Qed.

Lemma append_assoc (a b c : string) : (a +:+ b) +:+ c = a +:+ (b +:+ c).
Proof.
  induction a as [|ch a IH]; [done|].
  change (String ch ((a +:+ b) +:+ c) = String ch (a +:+ (b +:+ c))). by f_equal.
Qed.

Lemma digits_last (n : string) :
  digits n = true ->
  exists l d, list_ascii_of_string n = (l ++ [d])%list /\ Regex.is_digit d = true.
Proof.
  unfold digits. intros H. apply andb_true_iff in H as [Hne H].
  destruct (list_ascii_of_string n) as [|c l] eqn:E using rev_ind.
  - destruct n; done.
  - exists l, c. split; [done|]. rewrite forallb_app in H.
    apply andb_true_iff in H as [_ H]. cbn in H. by rewrite andb_true_r in H.
Qed.

(** X15. [isValidKey] is falsy on the key under which the sitemap of a
    bill type is stored, whatever the congress and the bill type, and true
    on the key under which the status file of a bill is stored, for every
    congress and bill type and every number made of digits: the
    transformation skips the sitemaps and handles every bill.  A key that
    is not a string and not falsy makes it throw. *)
Theorem isValidKey_keys :
  (forall congress bill_type,
     isValidKey (JStr (sitemap_key congress bill_type)) = Ok (JBool false))
  /\ (forall congress billType billNumber,
        digits billNumber = true ->
        isValidKey (JStr (bill_key congress billType billNumber)) = Ok (JBool true))
  /\ isValidKey JUndef = Ok JUndef
  /\ isValidKey (JStr "") = Ok (JStr "")
  /\ (forall n, n <> 0 -> isValidKey (JNum n) = Err TypeError).
Proof.
  split_and!.
  - intros congress bill_type. unfold isValidKey, sitemap_key.
    cbn [truthy String.append String.eqb Ascii.eqb Bool.eqb negb as_string bind].
    change (String "c" (String "o" (String "n" (String "g" (String "r"
              (String "e" (String "s" (String "s" (String "/" ?x)))))))))
      with ("congress/" +:+ x).
    rewrite <- !append_assoc.
    change "/sitemap.xml" with ("/" +:+ "sitemap.xml").
    rewrite <- append_assoc. by rewrite endsWith_append.
  - intros congress billType billNumber Hn. unfold isValidKey, bill_key.
    cbn [truthy String.append String.eqb Ascii.eqb Bool.eqb negb as_string bind].
    do 2 f_equal. apply negb_true_iff.
    destruct (endsWith _ "sitemap.xml") eqn:E; [|done]. exfalso.
    apply endsWith_inv in E as [a Ha].
    apply (f_equal list_ascii_of_string) in Ha.
    change "sitemap.xml" with ("sitema" +:+ "p" +:+ ".xml") in Ha.
    change (String "c" (String "o" (String "n" (String "g" (String "r"
              (String "e" (String "s" (String "s" (String "/" ?x)))))))))
      with ("congress/" +:+ x) in Ha.
    rewrite !list_ascii_app in Ha.
    destruct (digits_last _ Hn) as (l & d & Hl & Hd). rewrite Hl in Ha.
    rewrite !app_assoc in Ha. apply app_inv_tail in Ha.
    cbn [list_ascii_of_string] in Ha.
    apply app_inj_tail in Ha as [_ ->]. by vm_compute in Hd.
  - done.
  - done.
  - intros [|n] Hn; done.
Qed.

(** Witness of X15: the status file of H.R. 1234 of the 116th Congress. *)
Lemma isValidKey_keys_witness :
  isValidKey (JStr (bill_key "116" "HR" "1234")) = Ok (JBool true).
Proof.
  apply (proj1 (proj2 isValidKey_keys) "116" "HR" "1234"). reflexivity.
Defined.

End BucketKeys.

(** ** The matcher on literal texts and optional parts *)

Section MatcherTexts.
Import Js Regex Texts.

Lemma search_found ci r (pre : list ascii) : forall rest pos,
  rmatch ci r (MState (pos + List.length pre) rest []) Some <> None ->
  search ci r pos (pre ++ rest) <> None.
Proof.
  induction pre as [|ch pre IH]; intros rest pos H.
  - cbn [List.length app] in *. rewrite Nat.add_0_r in H. rewrite search_unfold.
    by destruct (rmatch ci r _ _).
  - cbn [app]. rewrite search_unfold.
    destruct (rmatch ci r (MState pos _ _) Some) eqn:E; [done|]. apply IH.
    cbn [List.length] in H. by replace (S pos + List.length pre)
      with (pos + S (List.length pre)) by lia.
Qed.

Lemma search_suffix ci r (l : list ascii) : forall pos start y,
  search ci r pos l = Some (start, y) ->
  exists pre rest, l = (pre ++ rest)%list
    /\ rmatch ci r (MState start rest []) Some = Some y.
Proof.
  induction l as [|ch l IH]; intros pos start y H; rewrite search_unfold in H.
  - destruct (rmatch ci r _ _) eqn:E; [|done]. injection H as <- <-.
    by exists [], [].
  - destruct (rmatch ci r _ _) eqn:E.
    + injection H as <- <-. by exists [], (ch :: l).
    + apply IH in H as (pre & rest & -> & H). by exists (ch :: pre), rest.
Qed.

Lemma rmatch_lits ci (cs : list ascii) r : forall pos l caps c,
  rmatch ci (lits cs r) (MState pos l caps) c
  = if starts_with ci cs l
    then rmatch ci r (MState (pos + List.length cs) (List.skipn (List.length cs) l) caps) c
    else None.
Proof.
  induction cs as [|a cs IH]; intros pos l caps c; cbn [lits starts_with List.length].
  - by rewrite Nat.add_0_r.
  - cbn [rmatch]. unfold one_char. cbn [m_rest].
    destruct l as [|ch l]; [done|]. destruct (char_eq ci a ch); [|done].
    unfold advance. cbn [andb m_pos m_caps skipn]. rewrite IH.
    by replace (S pos + List.length cs) with (pos + S (List.length cs)) by lia.
Qed.

Lemma repeat_optional m1 gs greedy c fuel max x :
  c x <> None -> repeat_loop m1 gs greedy c (S fuel) 0 max x <> None.
Proof.
  intros Hc. cbn [repeat_loop Nat.eqb negb].
  destruct max as [[|max]|]; [done| |];
    (destruct greedy; [by destruct (m1 _ _)|by destruct (c x)]).
Qed.

Lemma rmatch_optional ci r :
  optional r = true -> forall x c, c x <> None -> rmatch ci r x c <> None.
Proof.
  induction r as [| | | |r1 IH1 r2 IH2| |min max greedy r1 IH1| | |];
    try done; intros Ho x c Hc.
  - destruct r1 as [| | | | | |[|min] max greedy r1| | |]; try done.
    cbn [optional] in Ho. cbn [rmatch].
    replace (0 + List.length (m_rest x) + 2) with (S (List.length (m_rest x) + 1)) by lia.
    apply repeat_optional. by apply IH2.
  - destruct min; [|done]. cbn [rmatch].
    replace (0 + List.length (m_rest x) + 2) with (S (List.length (m_rest x) + 1)) by lia.
    by apply repeat_optional.
Qed.

Lemma mentions_split ci words l :
  mentions ci words l = true <->
  exists pre rest, l = (pre ++ rest)%list /\ starts_with ci words rest = true.
Proof.
  split.
  - induction l as [|ch l IH]; cbn [mentions]; intros H.
    + rewrite orb_false_r in H. by exists [], [].
    + apply orb_true_iff in H as [H|H]; [by exists [], (ch :: l)|].
      destruct (IH H) as (pre & rest & -> & Hr). by exists (ch :: pre), rest.
  - intros (pre & rest & -> & H). induction pre as [|ch pre IH]; cbn [app].
    + destruct rest; cbn [mentions]; by rewrite H.
    + cbn [mentions]. by rewrite IH, orb_true_r.
Qed.

(** A pattern that is a literal followed by optional parts matches the
    texts that contain the literal. *)
Lemma test_lits_optional (re : RegExp) (words : list ascii) (tail : regex)
    (text : string) :
  pattern re = lits words tail -> optional tail = true ->
  test re text = mentions (ignoreCase re) words (list_ascii_of_string text).
Proof.
  intros Hp Ho. unfold test, exec. cbv zeta. rewrite Hp.
  generalize (list_ascii_of_string text). intros l.
  destruct (mentions _ _ _) eqn:Em.
  - apply mentions_split in Em as (pre & rest & -> & Hs).
    destruct (search _ _ _ _) as [[start y]|] eqn:E; [done|]. exfalso.
    revert E. apply search_found. rewrite rmatch_lits, Hs.
    by apply rmatch_optional.
  - destruct (search _ _ _ _) as [[start y]|] eqn:E; [|done]. exfalso.
    apply search_suffix in E as (pre & rest & -> & E).
    rewrite rmatch_lits in E.
    assert (mentions (ignoreCase re) words (pre ++ rest) = true) as Hm.
    { apply mentions_split. exists pre, rest. split; [done|].
      by destruct (starts_with _ _ _). }
    congruence.
Qed.

Lemma test_referral (text : string) :
  test Patterns.referral_re text = says_referred text.
Proof.
  unfold says_referred.
  eapply (test_lits_optional Patterns.referral_re); [reflexivity|reflexivity].
Qed.

End MatcherTexts.

(** ** Referrals *)

Section Referrals.
Import Js Bill Regex Texts Shape Outcome.

Ltac not_referral_tac :=
  intros c l l' H Hl; keeps_prepare; unfold not_referral in *;
  repeat (rewrite lookup_insert_ne by done);
  first [ rewrite lookup_insert_eq; discriminate | exact Hl ].

Lemma rule_house_vote_not_referral : keeps not_referral rule_house_vote.
Proof. unfold rule_house_vote. not_referral_tac. Qed.
Lemma rule_house_pursuant_not_referral : keeps not_referral rule_house_pursuant.
Proof. unfold rule_house_pursuant. not_referral_tac. Qed.
Lemma rule_house_table_not_referral : keeps not_referral rule_house_table.
Proof. unfold rule_house_table. not_referral_tac. Qed.
Lemma rule_senate_vote_not_referral : keeps not_referral rule_senate_vote.
Proof. unfold rule_senate_vote. not_referral_tac. Qed.
Lemma rule_calendar_not_referral : keeps not_referral rule_calendar.
Proof. unfold rule_calendar. not_referral_tac. Qed.
Lemma rule_reported_with_not_referral re : keeps not_referral (rule_reported_with re).
Proof. unfold rule_reported_with. not_referral_tac. Qed.
Lemma rule_hearings_not_referral : keeps not_referral rule_hearings.
Proof. unfold rule_hearings. not_referral_tac. Qed.
Lemma rule_discharged_not_referral : keeps not_referral rule_discharged.
Proof. unfold rule_discharged. not_referral_tac. Qed.
Lemma rule_topresident_not_referral : keeps not_referral rule_topresident.
Proof. unfold rule_topresident. not_referral_tac. Qed.
Lemma rule_signed_not_referral : keeps not_referral rule_signed.
Proof. unfold rule_signed. not_referral_tac. Qed.
Lemma rule_vetoed_not_referral : keeps not_referral rule_vetoed.
Proof. unfold rule_vetoed. not_referral_tac. Qed.
Lemma rule_archivist_not_referral : keeps not_referral rule_archivist.
Proof. unfold rule_archivist. not_referral_tac. Qed.
Lemma rule_enacted_not_referral : keeps not_referral rule_enacted.
Proof. unfold rule_enacted. not_referral_tac. Qed.

Lemma rules_not_referral :
  Forall (keeps not_referral)
    [ rule_house_vote; rule_house_pursuant; rule_house_table; rule_senate_vote;
      rule_calendar; rule_reported; rule_reported_senate; rule_hearings;
      rule_discharged; rule_topresident; rule_signed; rule_vetoed;
      rule_archivist; rule_enacted ].
Proof.
  repeat constructor;
    auto using rule_house_vote_not_referral, rule_house_pursuant_not_referral,
      rule_house_table_not_referral, rule_senate_vote_not_referral,
      rule_calendar_not_referral, rule_hearings_not_referral,
      rule_discharged_not_referral, rule_topresident_not_referral,
      rule_signed_not_referral, rule_vetoed_not_referral,
      rule_archivist_not_referral, rule_enacted_not_referral;
    apply rule_reported_with_not_referral.
Qed.

(** X16. The referral rule is the last of the cascade and all that its
    pattern requires is the words "Referred to ", in any letter case: an
    action that is not on an amendment is classified as a referral exactly
    when its text contains these words, whatever the other rules made of
    it; and after the status INTRODUCED its status is then REFERRED. *)
Theorem parse_bill_action_referral (d : gmap string jsval) (text : string)
    (prev_status title : option string) (bill_id : string)
    (action : gmap string jsval) (status : jsval) :
  d !! "text" = Some (JStr text) ->
  parse_bill_action d (of_opt prev_status) bill_id (of_opt title)
  = Ok (<["status" := status]> (<["action" := JObj action]> ∅)) ->
  (action !! "type" = Some (JStr "referral") <-> says_referred text = true)
  /\ (says_referred text = true -> prev_status = Some "INTRODUCED" ->
      status = JStr "REFERRED").
Proof.
  intros Hd. rewrite (parse_bill_action_run d text) by done.
  destruct (split_bill_id bill_id) as [parts|e]; [|done]. cbn [bind].
  destruct (test Patterns.amdt_re text).
  { by intros [=]. }
  change rules with
    ([ rule_house_vote; rule_house_pursuant; rule_house_table; rule_senate_vote;
       rule_calendar; rule_reported; rule_reported_senate; rule_hearings;
       rule_discharged; rule_topresident; rule_signed; rule_vetoed;
       rule_archivist; rule_enacted ] ++ [rule_referral]).
  rewrite run_rules_app.
  destruct (run_rules _ _ initial_locals) as [l1|] eqn:E1; [|done].
  pose proof (run_rules_keeps not_referral _ _ rules_not_referral _ _ E1) as Hn.
  cbn [bind run_rules]. unfold rule_referral. cbn [c_text c_prev_status].
  rewrite test_referral. intros H.
  assert (forall l : locals,
            Ok (<["status" := v_status l]>
                (<["action" := JObj (v_action l)]> (∅ : gmap string jsval)))
            = Ok (<["status" := status]> (<["action" := JObj action]> ∅)) ->
            v_status l = status /\ v_action l = action) as Hinj.
  { intros l Hl.
    pose proof (f_equal (fun r => ok_or ∅ r !! "status") Hl) as Hs.
    pose proof (f_equal (fun r => ok_or ∅ r !! "action") Hl) as Ha.
    cbn [ok_or] in Hs, Ha. rewrite !lookup_insert_eq in Hs.
    rewrite !(lookup_insert_ne _ "status") in Ha by done.
    rewrite !lookup_insert_eq in Ha. split; congruence. }
  destruct (says_referred text); cbn [bind] in H; apply Hinj in H as [<- <-].
  - split.
    + split; [done|]. intros _.
      destruct (String.eqb _ "INTRODUCED"); by rewrite ?v_action_set_status, v_action_set_type, lookup_insert_eq.
    + intros _ ->. done.
  - split; [|done]. split; [|done]. intros Ht. exfalso. apply Hn; [|done].
    unfold not_referral, initial_locals. cbn [v_action].
    by rewrite lookup_singleton_eq.
Qed.

(** Witness of X16: a bill received in the Senate. *)
Lemma parse_bill_action_referral_witness :
  prop (ok_or ∅ (parse_bill_action
                   {[ "text" := JStr "Received in the Senate and Read twice and referred to the Committee on Finance." ]}
                   (JStr "INTRODUCED") "hr1234-116" JUndef)) "status"
  = JStr "REFERRED".
Proof.
  set (parsed := ok_or ∅ (parse_bill_action
                   {[ "text" := JStr "Received in the Senate and Read twice and referred to the Committee on Finance." ]}
                   (JStr "INTRODUCED") "hr1234-116" JUndef)).
  apply (parse_bill_action_referral
           {[ "text" := JStr "Received in the Senate and Read twice and referred to the Committee on Finance." ]}
           "Received in the Senate and Read twice and referred to the Committee on Finance."
           (Some "INTRODUCED") None "hr1234-116"
           (match prop parsed "action" with JObj a => a | _ => ∅ end)
           (prop parsed "status")).
  - reflexivity.
  - vm_compute. reflexivity.
  - vm_compute. reflexivity.
  - reflexivity.
Defined.

End Referrals.

(** ** Discharges and amendments, by their texts *)

Section TextShapes.
Import Js Bill Regex Texts Outcome.

Lemma char_eq_refl ci c : char_eq ci c c = true.
Proof. unfold char_eq. destruct ci; apply Ascii.eqb_refl. Qed.

Lemma starts_with_app ci (w l : list ascii) : starts_with ci w (w ++ l) = true.
Proof.
  induction w as [|c w IH]; [done|]. cbn [app starts_with].
  by rewrite char_eq_refl, IH.
Qed.

Lemma skipn_length_app {A} (w l : list A) : List.skipn (List.length w) (w ++ l) = l.
Proof. induction w as [|c w IH]; [done|]. apply IH. Qed.

(** The greedy [.*] in a group gives way until what follows matches. *)
Lemma rmatch_star_found ci i (a : list ascii) : forall b pos caps c,
  forallb (fun ch => negb (is_line_terminator ch)) a = true ->
  (forall caps', c (MState (pos + List.length a) b caps') <> None) ->
  rmatch ci (RGroup i (RRepeat 0 None true RAny)) (MState pos (a ++ b) caps) c
  <> None.
Proof.
  intros b pos caps c Ha Hc. cbn [rmatch groups_of m_rest m_pos].
  set (k := fun y : mstate =>
              c (set_cap i (take (m_pos y - pos) (a ++ b)%list) y)).
  assert (forall a' pos' caps' fuel,
            forallb (fun ch => negb (is_line_terminator ch)) a' = true ->
            List.length a' < fuel ->
            (forall caps'', k (MState (pos' + List.length a') b caps'') <> None) ->
            repeat_loop (rmatch ci RAny) [] true k fuel 0 None
              (MState pos' (a' ++ b) caps') <> None) as Hloop.
  { induction a' as [|ch a' IH]; intros pos' caps' fuel Ha' Hfuel Hk.
    - destruct fuel as [|fuel]; [cbn in Hfuel; lia|].
      apply repeat_optional. cbn [List.length] in Hk.
      rewrite Nat.add_0_r in Hk. apply Hk.
    - destruct fuel as [|fuel]; [cbn in Hfuel; lia|].
      cbn [repeat_loop Nat.eqb negb andb]. rewrite clear_caps_nil.
      cbn [rmatch]. unfold one_char. cbn [m_rest app].
      cbn [forallb] in Ha'. apply andb_true_iff in Ha' as [-> Ha'].
      unfold advance. cbn [m_pos m_caps option_map Nat.pred].
      assert (Nat.eqb (S pos') pos' = false) as -> by (apply Nat.eqb_neq; lia).
      destruct (repeat_loop _ _ _ _ _ _ _ _) eqn:E; [done|]. exfalso.
      revert E. apply IH; [done|cbn in Hfuel; lia|].
      intros caps''. cbn [List.length] in Hk.
      replace (S pos' + List.length a') with (pos' + S (List.length a')) by lia.
      apply Hk. }
  apply Hloop; [done|rewrite length_app; lia|].
  intros caps''. unfold k, set_cap. cbn [m_pos m_rest m_caps]. apply Hc.
Qed.

Lemma test_discharge (pre name post : string) :
  one_line name = true ->
  test Patterns.discharged_re (discharge_text pre name post) = true.
Proof.
  intros Hname. unfold test, exec, discharge_text. cbv zeta.
  rewrite !list_ascii_app.
  destruct (search _ _ _ _) as [[start y]|] eqn:E; [done|]. exfalso.
  revert E. apply search_found.
  assert (exists tail,
            pattern Patterns.discharged_re
            = lits (list_ascii_of_string "Committee on ")
                (RSeq (RGroup 1 (RRepeat 0 None true RAny))
                   (lits (list_ascii_of_string ". Discharged ") tail))
            /\ optional tail = true) as (tail & -> & Ho).
  { eexists. split; reflexivity. }
  rewrite rmatch_lits, starts_with_app, skipn_length_app.
  change (rmatch ?ci (RSeq ?g ?r) ?x ?k)
    with (rmatch ci g x (fun y => rmatch ci r y k)).
  apply rmatch_star_found; [done|]. intros caps'.
  rewrite rmatch_lits, starts_with_app, skipn_length_app.
  by apply rmatch_optional.
Qed.

(** X17. An action whose text contains "Committee on ", a committee name
    without a line break and ". Discharged " cannot be classified: unless
    the text starts with an amendment number, [parse_bill_action] throws a
    TypeError on it, for every valid bill id, prior status and title. *)
Theorem parse_bill_action_discharge (d : gmap string jsval)
    (pre name post : string) (prev_status title : option string)
    (bill_id : string) (parts : bill_id_parts) :
  d !! "text" = Some (JStr (discharge_text pre name post)) ->
  one_line name = true ->
  split_bill_id bill_id = Ok parts ->
  test Patterns.amdt_re (discharge_text pre name post) = false ->
  parse_bill_action d (of_opt prev_status) bill_id (of_opt title) = Err TypeError.
Proof.
  intros Hd Hname Hid Hamdt.
  rewrite (parse_bill_action_run d _ _ _ _ Hd), Hid. cbn [bind]. rewrite Hamdt.
  pose proof (run_rules_outcome
                (Context (discharge_text pre name post) (default "" prev_status)
                   bill_id (bill_type parts) (default "" title))
                initial_locals) as H.
  cbn [c_text] in H. rewrite test_discharge in H by done. by rewrite H.
Qed.

(** Witness of X17: a discharge of the Committee on Rules. *)
Lemma parse_bill_action_discharge_witness :
  parse_bill_action
    {[ "text" := JStr (discharge_text "Senate " "Rules" "by Unanimous Consent.") ]}
    (JStr "REFERRED") "s47-116" JUndef
  = Err TypeError.
Proof.
  apply (parse_bill_action_discharge _ "Senate " "Rules" "by Unanimous Consent."
           (Some "REFERRED") None "s47-116" (BillIdParts "47" "s" "116"));
    reflexivity.
Defined.

Lemma search_anchored ci r l : forall pos,
  1 <= pos -> search ci (RSeq RBol r) pos l = None.
Proof.
  induction l as [|ch l IH]; intros pos Hpos; cbn [search rmatch m_pos].
  - destruct pos; [lia|done].
  - destruct pos; [lia|]. cbn [Nat.eqb]. apply IH. lia.
Qed.

Lemma digit_set ch : xorb false (set_has true [CDigit false] ch) = is_digit ch.
Proof. destruct ch as [[] [] [] [] [] [] [] []]; reflexivity. Qed.

(** One or more characters of a class, in a group, before a continuation
    that never fails: the first character decides. *)
Lemma rmatch_plus_found ci i neg items c pos l caps :
  (forall y, c y <> None) ->
  rmatch ci (RGroup i (RRepeat 1 None true (RSet neg items))) (MState pos l caps) c
  <> None
  <-> match l with
      | ch :: _ => xorb neg (set_has ci items ch) = true
      | [] => False
      end.
Proof.
  intros Hc. cbn [rmatch groups_of m_rest m_pos].
  replace (1 + List.length l + 2) with (S (S (List.length l + 1))) by lia.
  remember (S (List.length l + 1)) as fuel eqn:Hfuel.
  cbn [repeat_loop Nat.eqb negb andb]. rewrite clear_caps_nil.
  unfold one_char. cbn [m_rest].
  destruct l as [|ch l]; [done|].
  destruct (xorb neg (set_has ci items ch)); [|done].
  split; [done|]. intros _.
  cbn [Nat.pred option_map]. subst fuel. apply repeat_optional. apply Hc.
Qed.

Lemma test_amdt (text : string) : test Patterns.amdt_re text = amendment text.
Proof.
  unfold test, exec, amendment. cbv zeta.
  generalize (list_ascii_of_string text). intros l.
  rewrite search_unfold.
  assert (exists G2,
            pattern Patterns.amdt_re
            = RSeq RBol
                (RSeq (RGroup 1 (RAlt (RChar "H") (RChar "S")))
                   (lits (list_ascii_of_string ".Amdt.") G2))
            /\ G2 = RGroup 2 (RRepeat 1 None true (RSet false [CDigit false])))
    as (G2 & Hp & HG2) by (eexists; split; reflexivity).
  change (ignoreCase Patterns.amdt_re) with true. rewrite Hp.
  change (rmatch true (RSeq RBol ?r) (MState 0 ?l ?caps) ?k)
    with (rmatch true r (MState 0 l caps) k).
  assert (match rmatch true
                  (RSeq (RGroup 1 (RAlt (RChar "H") (RChar "S")))
                     (lits (list_ascii_of_string ".Amdt.") G2))
                  (MState 0 l []) Some with
          | Some _ => true
          | None => false
          end
          = match l with
            | c1 :: rest =>
                (char_eq true "H" c1 || char_eq true "S" c1)
                && starts_with true (list_ascii_of_string ".Amdt.") rest
                && match List.skipn 6 rest with
                   | d :: _ => is_digit d
                   | [] => false
                   end
            | [] => false
            end) as Hm.
  { destruct l as [|c1 rest]; [done|].
    change (rmatch true (RSeq ?g ?r) ?x ?k)
      with (rmatch true g x (fun y => rmatch true r y k)).
    cbn [rmatch]. unfold one_char. cbn [m_rest]. unfold advance, set_cap.
    cbn [m_pos m_rest m_caps].
    rewrite !rmatch_lits.
    assert (forall caps,
              match (if starts_with true (list_ascii_of_string ".Amdt.") rest
                     then rmatch true G2
                            (MState (1 + List.length (list_ascii_of_string ".Amdt."))
                               (List.skipn (List.length (list_ascii_of_string ".Amdt.")) rest)
                               caps) Some
                     else None) with
              | Some _ => true
              | None => false
              end
              = starts_with true (list_ascii_of_string ".Amdt.") rest
                && match List.skipn 6 rest with
                   | d :: _ => is_digit d
                   | [] => false
                   end) as Hk.
    { intros caps. destruct (starts_with _ _ rest); [|done]. cbn [andb].
      change (List.length (list_ascii_of_string ".Amdt.")) with 6.
      pose proof (rmatch_plus_found true 2 false [CDigit false] Some (1 + 6)
                    (List.skipn 6 rest) caps ltac:(done)) as Hplus.
      rewrite <- HG2 in Hplus.
      destruct (List.skipn 6 rest) as [|dch l'].
      - destruct (rmatch true G2 _ _); [|done]. exfalso. by apply (proj1 Hplus).
      - rewrite digit_set in Hplus. destruct (is_digit dch).
        + destruct (rmatch true G2 _ _); [done|]. exfalso. by apply (proj2 Hplus).
        + destruct (rmatch true G2 _ _); [|done].
          assert (false = true) as Habs by (by apply (proj1 Hplus)). done. }
    destruct (char_eq true "H" c1) eqn:EH.
    - destruct (char_eq true "S" c1) eqn:ES.
      { exfalso. unfold char_eq in EH, ES. apply Ascii.eqb_eq in EH, ES.
        rewrite <- EH in ES. by vm_compute in ES. }
      cbn [orb andb].
      match goal with
      | |- context [rmatch true G2 (MState _ _ ?caps) Some] => rewrite <- (Hk caps)
      end.
      by destruct (if starts_with _ _ _ then _ else _).
    - cbn [orb]. destruct (char_eq true "S" c1); [|done]. cbn [andb].
      match goal with
      | |- context [rmatch true G2 (MState _ _ ?caps) Some] => rewrite <- (Hk caps)
      end.
      done. }
  destruct (rmatch true _ (MState 0 l []) Some) as [y|] eqn:E.
  - done.
  - rewrite <- Hm. destruct l as [|ch l]; [done|]. by rewrite search_anchored.
Qed.

Lemma amendment_clean (raw : string) :
  amendment raw = true ->
  amendment (replace_all Patterns.links_re raw "") = true.
Proof.
  unfold amendment, replace_all. cbn [list_ascii_of_string].
  rewrite list_ascii_of_string_of_list_ascii.
  change (ignoreCase Patterns.links_re) with false.
  generalize (list_ascii_of_string raw). intros l H.
  assert (forall c l' pos, Ascii.eqb "r" c = false ->
            replace_go false (pattern Patterns.links_re) [] 0 pos (c :: l')
            = c :: replace_go false (pattern Patterns.links_re) [] 0 (S pos) l')
    as Hstep.
  { intros c l' pos Hc. cbn [replace_go]. unfold Patterns.links_re, pattern.
    cbn [rmatch]. unfold one_char. cbn [m_rest char_eq]. by rewrite Hc. }
  assert (forall a c, char_eq true a c = true -> Ascii.eqb (upper a) "R" = false ->
                      Ascii.eqb "r" c = false) as Hne.
  { intros a c Hac Ha. destruct (Ascii.eqb_spec "r"%char c) as [<-|]; [|done].
    unfold char_eq in Hac. apply Ascii.eqb_eq in Hac. rewrite Hac in Ha.
    by vm_compute in Ha. }
  destruct l as [|c1 [|c2 [|c3 [|c4 [|c5 [|c6 [|c7 [|c8 l]]]]]]]];
    cbn [starts_with list_ascii_of_string skipn] in H;
    rewrite ?andb_false_r in H; try done.
  apply andb_true_iff in H as [H H8]. apply andb_true_iff in H as [H1 H].
  apply andb_true_iff in H as [H2 H]. apply andb_true_iff in H as [H3 H].
  apply andb_true_iff in H as [H4 H]. apply andb_true_iff in H as [H5 H].
  apply andb_true_iff in H as [H6 H]. apply andb_true_iff in H as [H7 _].
  assert (Ascii.eqb "r" c1 = false) as E1.
  { apply orb_true_iff in H1 as [H1|H1]; by eapply Hne. }
  assert (Ascii.eqb "r" c8 = false) as E8.
  { destruct (Ascii.eqb_spec "r"%char c8) as [<-|]; [by vm_compute in H8|done]. }
  rewrite (Hstep c1) by done.
  rewrite (Hstep c2) by (by eapply Hne).
  rewrite (Hstep c3) by (by eapply Hne).
  rewrite (Hstep c4) by (by eapply Hne).
  rewrite (Hstep c5) by (by eapply Hne).
  rewrite (Hstep c6) by (by eapply Hne).
  rewrite (Hstep c7) by (by eapply Hne).
  rewrite (Hstep c8) by done.
  cbn [starts_with list_ascii_of_string skipn].
  by rewrite H1, H2, H3, H4, H5, H6, H7, H8.
Qed.

(** X18. An action whose text starts with an amendment number (H or S,
    ".Amdt." and a digit, in any letter case) is never classified: for a
    valid bill id, [build_dict] returns the object of [action_for]
    unchanged, with the type "action" and none of the fields of a vote, a
    committee or a law, whatever the rest of the text says. *)
Theorem build_dict_amendment (toISOString : string -> option string)
    (bill_id : string) (title : option string) (item : raw_action)
    (index : nat) (parts : bill_id_parts) (d : gmap string jsval) :
  amendment (default "" (text item)) = true ->
  split_bill_id bill_id = Ok parts ->
  action_for toISOString item = Ok d ->
  build_dict toISOString bill_id (of_opt title) item index = Ok d
  /\ d !! "type" = Some (JStr "action")
  /\ d !! "vote_type" = None /\ d !! "committee" = None /\ d !! "law" = None.
Proof.
  intros Hamdt Hid Hd. rewrite build_dict_eq, Hd. cbn [bind].
  assert (d !! "text" = Some (JStr (clean_text item))
          /\ d !! "type" = Some (JStr "action")
          /\ d !! "vote_type" = None /\ d !! "committee" = None
          /\ d !! "law" = None) as (Ht & ? & ? & ? & ?).
  { unfold action_for in Hd. inv_ok. split_and!.
    - by rewrite lookup_insert_eq.
    - rewrite lookup_insert_ne by done. by rewrite lookup_insert_eq.
    - by rewrite !lookup_insert_ne.
    - by rewrite !lookup_insert_ne.
    - by rewrite !lookup_insert_ne. }
  split_and!; try done.
  change (JStr "") with (of_opt (Some "")).
  rewrite (parse_bill_action_run d _ (Some "") title bill_id Ht), Hid.
  cbn [bind]. rewrite test_amdt. unfold clean_text.
  by rewrite amendment_clean.
Qed.

(** Witness of X18: a House amendment that was agreed to by voice vote. *)
Lemma build_dict_amendment_witness :
  build_dict utc_iso "hr1234-116" JUndef
    (Examples.act "2019-02-11" None "2"
       "H.Amdt.12 On agreeing to the amendment Agreed to by voice vote.") 0
  = Ok (ok_or ∅ (action_for utc_iso
                   (Examples.act "2019-02-11" None "2"
                      "H.Amdt.12 On agreeing to the amendment Agreed to by voice vote."))).
Proof.
  apply (build_dict_amendment utc_iso "hr1234-116" None _ 0
           (BillIdParts "1234" "hr" "116")).
  - reflexivity.
  - reflexivity.
  - apply is_ok_eq. vm_compute. reflexivity.
Defined.

End TextShapes.

(** ** The fields of a vote *)

Section VoteFields.
Import Js Bill Shape.

Local Abbreviation voted := (fun a : gmap string jsval => vote_fields a = true).

Ltac voted_tac :=
  intros c l l' H Hl; keeps_prepare; unfold vote_fields in *;
  repeat first [ rewrite lookup_insert_eq | rewrite lookup_insert_ne by done ];
  first [ exact Hl | reflexivity ].

Lemma rule_house_vote_voted : keeps voted rule_house_vote.
Proof. unfold rule_house_vote. voted_tac. Qed.
Lemma rule_house_pursuant_voted : keeps voted rule_house_pursuant.
Proof. unfold rule_house_pursuant. voted_tac. Qed.
Lemma rule_house_table_voted : keeps voted rule_house_table.
Proof. unfold rule_house_table. voted_tac. Qed.
Lemma rule_senate_vote_voted : keeps voted rule_senate_vote.
Proof. unfold rule_senate_vote. voted_tac. Qed.
Lemma rule_calendar_voted : keeps voted rule_calendar.
Proof. unfold rule_calendar. voted_tac. Qed.
Lemma rule_reported_with_voted re : keeps voted (rule_reported_with re).
Proof. unfold rule_reported_with. voted_tac. Qed.
Lemma rule_hearings_voted : keeps voted rule_hearings.
Proof. unfold rule_hearings. voted_tac. Qed.
Lemma rule_discharged_voted : keeps voted rule_discharged.
Proof. unfold rule_discharged. voted_tac. Qed.
Lemma rule_topresident_voted : keeps voted rule_topresident.
Proof. unfold rule_topresident. voted_tac. Qed.
Lemma rule_signed_voted : keeps voted rule_signed.
Proof. unfold rule_signed. voted_tac. Qed.
Lemma rule_vetoed_voted : keeps voted rule_vetoed.
Proof. unfold rule_vetoed. voted_tac. Qed.
Lemma rule_archivist_voted : keeps voted rule_archivist.
Proof. unfold rule_archivist. voted_tac. Qed.
Lemma rule_enacted_voted : keeps voted rule_enacted.
Proof. unfold rule_enacted. voted_tac. Qed.
Lemma rule_referral_voted : keeps voted rule_referral.
Proof. unfold rule_referral. voted_tac. Qed.

Lemma rules_voted : Forall (keeps voted) rules.
Proof.
  unfold rules.
  repeat constructor;
    auto using rule_house_vote_voted, rule_house_pursuant_voted,
      rule_house_table_voted, rule_senate_vote_voted,
      rule_calendar_voted, rule_hearings_voted, rule_discharged_voted,
      rule_topresident_voted, rule_signed_voted, rule_vetoed_voted,
      rule_archivist_voted, rule_enacted_voted, rule_referral_voted;
    apply rule_reported_with_voted.
Qed.

Lemma build_dict_voted toISO bill_id title item index r :
  build_dict toISO bill_id title item index = Ok r -> vote_fields r = true.
Proof.
  rewrite build_dict_eq. intros H.
  destruct (action_for toISO item) as [d|] eqn:Ea; [|done]. cbn [bind] in H.
  destruct (parse_bill_action d (JStr "") bill_id title) as [parsed|] eqn:Ep;
    [|done].
  cbn [bind] in H. injection H as <-.
  assert (d !! "where" = None /\ d !! "vote_type" = None /\ d !! "result" = None)
    as (Hw & Hv & Hr).
  { unfold action_for in Ea. inv_ok. by rewrite !lookup_insert_ne. }
  apply (parse_bill_action_keeps voted) in Ep as [->|(a & s & -> & Ha)].
  - unfold prop. rewrite lookup_empty. cbn [default from_option].
    unfold vote_fields. by rewrite Hw, Hv, Hr.
  - unfold prop. rewrite lookup_insert_ne by done. rewrite lookup_insert_eq.
    cbn [default from_option id]. unfold vote_fields in *.
    assert (forall k, d !! k = None -> (a ∪ d) !! k = a !! k) as Hu.
    { intros k Hk. destruct (a !! k) as [v|] eqn:Ek.
      - by apply lookup_union_Some_l.
      - apply lookup_union_None. done. }
    by rewrite !Hu.
  - apply rules_voted.
  - done.
Qed.

(** X19. In every classified action of [actions_for] the fields of a vote
    come together: either [where], [vote_type] and [result] are all
    absent, or [where] is h or s, [vote_type] is one of vote, vote2,
    pingpong, conference, override and cloture, and [result] is pass or
    fail. *)
Theorem actions_for_vote_fields (toISOString : string -> option string)
    (items : list raw_action) (bill_id : string) (title : jsval)
    (classified : list (gmap string jsval)) :
  actions_for toISOString items bill_id title = Ok classified ->
  Forall (fun a =>
            (a !! "where" = None /\ a !! "vote_type" = None
             /\ a !! "result" = None)
            \/ (exists w vt r,
                   a !! "where" = Some (JStr w) /\ In w ["h"; "s"]
                   /\ a !! "vote_type" = Some (JStr vt)
                   /\ In vt ["vote"; "vote2"; "pingpong"; "conference";
                             "override"; "cloture"]
                   /\ a !! "result" = Some (JStr r) /\ In r ["pass"; "fail"]))
         classified.
Proof.
  intros H. rewrite actions_for_map in H. inv_ok.
  eapply map_index_Forall; [|done].
  intros item i r Hr. apply build_dict_voted in Hr. unfold vote_fields in Hr.
  destruct (r !! "where") as [[| | |w| |]|]; try done;
    destruct (r !! "vote_type") as [[| | |vt| |]|]; try done;
    destruct (r !! "result") as [[| | |res| |]|]; try done.
  - right. exists w, vt, res.
    apply andb_true_iff in Hr as [Hr H3]. apply andb_true_iff in Hr as [H1 H2].
    apply existsb_exists in H1 as (? & ? & ->%String.eqb_eq).
    apply existsb_exists in H2 as (? & ? & ->%String.eqb_eq).
    apply existsb_exists in H3 as (? & ? & ->%String.eqb_eq).
    done.
  - by left.
Qed.

(** Witness of X19: the actions of scenario B. *)
Lemma actions_for_vote_fields_witness :
  Forall (fun a =>
            (a !! "where" = None /\ a !! "vote_type" = None
             /\ a !! "result" = None)
            \/ (exists w vt r,
                   a !! "where" = Some (JStr w) /\ In w ["h"; "s"]
                   /\ a !! "vote_type" = Some (JStr vt)
                   /\ In vt ["vote"; "vote2"; "pingpong"; "conference";
                             "override"; "cloture"]
                   /\ a !! "result" = Some (JStr r) /\ In r ["pass"; "fail"]))
    (ok_or []
       (actions_for utc_iso (actions Examples.scenario_B) "hr1234-116"
          (JStr "To do things."))).
Proof.
  apply (actions_for_vote_fields utc_iso (actions Examples.scenario_B)
           "hr1234-116" (JStr "To do things.")).
  apply is_ok_eq. vm_compute. reflexivity.
Defined.

End VoteFields.

(** ** The status of the record *)

Section RecordStatus.
Import Js Bill.
Variable toISOString : string -> option string.

Lemma build_dict_latest bill_id title item index r :
  build_dict toISOString bill_id title item index = Ok r ->
  prop r "status" = JUndef
  /\ exists iso, toISOString (date_text item) = Some iso
                 /\ prop r "acted_at" = JStr iso.
Proof.
  intros Hr. split.
  - apply build_dict_no_status in Hr. unfold Inv.no_status in Hr.
    unfold prop. by rewrite Hr.
  - destruct (build_dict_foreign "acted_at" eq_refl _ _ _ _ _ _ Hr) as (d & Hd & E).
    unfold action_for in Hd.
    destruct (toISOString (date_text item)) as [iso|]; [|done].
    cbn [bind] in Hd. injection Hd as <-. exists iso. split; [done|].
    unfold prop. rewrite E. rewrite !lookup_insert_ne by done.
    by rewrite lookup_insert_eq.
Qed.

Lemma Forall2_last_pair {A B} (R : A -> B -> Prop) (l : list A) (k : list B) :
  Forall2 R l k ->
  match last l, last k with
  | Some a, Some b => R a b
  | None, None => True
  | _, _ => False
  end.
Proof.
  induction 1 as [|a b l k Hab HF IH]; [done|].
  destruct HF as [|a' b' l' k' Hab' HF']; [done|].
  by rewrite !last_cons_cons.
Qed.

(** X20. The status of a record that [transformGovInfoBill] returns: when
    the deduplicator keeps no action the status is INTRODUCED, at the date of
    introduction; when it keeps one or more, the status is [undefined] (no
    classified action has a status to read), [status_at] is the time of the
    last kept action, which is the newest action of the feed that has a
    text, and the record lists one action fewer than were kept. *)
Theorem transformGovInfoBill_status (bill : bill_node) (h : store)
    (r : bill_data * store) (kept : list raw_action) :
  transformGovInfoBill toISOString bill h = Ok r ->
  kept_actions toISOString (actions bill) = Ok kept ->
  match last kept with
  | None =>
      out_status (fst r) = JStr "INTRODUCED"
      /\ out_status_at (fst r) = of_opt (introducedDate bill)
      /\ actions_of r = []
  | Some item =>
      out_status (fst r) = JUndef
      /\ (exists iso, toISOString (date_text item) = Some iso
                      /\ out_status_at (fst r) = JStr iso)
      /\ S (List.length (actions_of r)) = List.length kept
      /\ (forall pre first rest,
            actions bill = (pre ++ first :: rest)%list ->
            Forall (fun a => truthy (of_opt (text a)) = false) pre ->
            truthy (of_opt (text first)) = true ->
            item = first)
  end.
Proof.
  unfold transformGovInfoBill. intros H Hk.
  destruct (titles_for (titles bill)) as [ts|]; [|done]. cbn [bind] in H.
  destruct (actions_for toISOString (actions bill) _ _) as [classified|] eqn:Ha;
    [|done].
  cbn [bind] in H.
  destruct (alloc classified h) as [ref h1] eqn:Ealloc.
  pose proof (read_alloc classified h) as Hread. rewrite Ealloc in Hread.
  cbn [fst snd] in Hread.
  rewrite latest_status_eq, Hread in H.
  destruct (billstatus_url_for _) as [url|]; [|by destruct (last classified)].
  assert (read ref (snd (pop ref h1)) = removelast classified) as Hpop
    by (by rewrite read_pop, Hread).
  rewrite actions_for_map, Hk in Ha. cbn [bind] in Ha.
  pose proof (map_index_Forall2 _ (fun item a =>
                 prop a "status" = JUndef
                 /\ exists iso, toISOString (date_text item) = Some iso
                                /\ prop a "acted_at" = JStr iso)
                (fun a i b Hb => build_dict_latest _ _ a i b Hb) _ _ _ Ha) as HF.
  pose proof (Forall2_length _ _ _ HF) as Hlen.
  apply Forall2_last_pair in HF.
  destruct (last kept) as [item|] eqn:Elk;
    destruct (last classified) as [latest|] eqn:Elc; try done.
  - destruct HF as [Hs Hat].
    cbn [bind] in H.
    destruct (history_from_actions _) as [hist|]; [|done].
    cbn [bind] in H. injection H as <-.
    unfold actions_of. cbn [fst snd out_status out_status_at out_actions].
    unfold pop in Hpop. cbn [snd] in Hpop.
    rewrite Hpop. split_and!; try done.
    + apply last_Some in Elc as [c' ->]. rewrite removelast_last.
      rewrite Hlen, length_app. cbn. lia.
    + intros pre first rest Hb Hpre Hfirst.
      unfold kept_actions in Hk.
      destruct (filter_keep toISOString (actions bill) initial_closure)
        as [[k cl]|] eqn:Ef; [|done].
      cbn [bind fst] in Hk. injection Hk as <-. rewrite Hb in Ef.
      destruct (filter_keep_first toISOString pre first rest initial_closure k cl
                  Hpre Hfirst eq_refl Ef) as [k' ->].
      cbn [rev] in Elk. rewrite last_snoc in Elk. by injection Elk as <-.
  - cbn [bind] in H.
    destruct (history_from_actions _) as [hist|]; [|done].
    cbn [bind] in H. injection H as <-.
    unfold actions_of. cbn [fst snd out_status out_status_at out_actions].
    unfold pop in Hpop. cbn [snd] in Hpop.
    rewrite Hpop. apply last_None in Elc. by rewrite Elc.
Qed.

End RecordStatus.

(** Witness of X20: scenario B. *)
Lemma transformGovInfoBill_status_witness :
  Bill.out_status
    (fst (Js.ok_or (Bill.BillData "" "" "" "" "" Js.JUndef 0 ∅ Js.JUndef Js.JUndef
                      [] Js.JUndef Js.JUndef Js.JUndef Js.JUndef, [])
            (Bill.transformGovInfoBill Bill.utc_iso Examples.scenario_B [])))
  = Js.JUndef.
Proof.
  pose proof (transformGovInfoBill_status Bill.utc_iso Examples.scenario_B []
                (Js.ok_or (Bill.BillData "" "" "" "" "" Js.JUndef 0 ∅ Js.JUndef
                             Js.JUndef [] Js.JUndef Js.JUndef Js.JUndef Js.JUndef, [])
                   (Bill.transformGovInfoBill Bill.utc_iso Examples.scenario_B []))
                (rev (Bill.actions Examples.scenario_B))) as H.
  cbn [last rev app Bill.actions Examples.scenario_B] in H.
  apply H.
  - apply is_ok_eq. vm_compute. reflexivity.
  - vm_compute. reflexivity.
Defined.

(** ** The pattern of the sitemap entries *)

Section IndexPattern.
Import Js Regex Texts Sources Sitemap.

Lemma parse_quant_unquantified a s :
  unquantified s = true -> parse_quant a s = Some (a, s).
Proof.
  destruct s as [|c s]; [done|].
  destruct c as [[] [] [] [] [] [] [] []]; by intros H.
Qed.

Lemma seq_nonempty t r : r <> REmpty -> seq t r = RSeq t r.
Proof. by destruct r. Qed.

Lemma lits_nonempty cs r : r <> REmpty -> lits cs r <> REmpty.
Proof. by destruct cs. Qed.

Lemma parse_alt_plain f a s g :
  plain a = true ->
  parse_alt (S (S f)) (a :: s) g
  = match parse_quant (RChar a) s with
    | Some (t, s2) =>
        match parse_alt (S f) s2 g with
        | Some (r, s3, g3) => Some (seq t r, s3, g3)
        | None => None
        end
    | None => None
    end.
Proof.
  destruct a as [[] [] [] [] [] [] [] []]; try done;
    intros _; cbn [parse_alt parse_term]; by destruct (parse_quant _ s) as [[t s2]|].
Qed.

Lemma parse_alt_escape f e s g :
  is_word e = false ->
  parse_alt (S (S f)) ("\"%char :: e :: s) g
  = match parse_quant (RChar e) s with
    | Some (t, s2) =>
        match parse_alt (S f) s2 g with
        | Some (r, s3, g3) => Some (seq t r, s3, g3)
        | None => None
        end
    | None => None
    end.
Proof.
  intros He. cbn [parse_alt parse_term].
  assert (class_escape e = None /\ char_escape e = e) as [-> ->].
  { destruct e as [[] [] [] [] [] [] [] []]; done. }
  by destruct (parse_quant _ s) as [[t s2]|].
Qed.

Lemma unescape_inv a rest cs :
  unescape (a :: rest) = Some cs ->
  (plain a = true /\ exists cs', cs = a :: cs' /\ unescape rest = Some cs')
  \/ (a = "\"%char
      /\ exists e rest' cs', rest = e :: rest' /\ is_word e = false
           /\ cs = e :: cs' /\ unescape rest' = Some cs').
Proof.
  destruct a as [[] [] [] [] [] [] [] []];
    try (cbn; done);
    try (cbn; destruct (unescape rest) as [cs'|] eqn:Hr; [|done];
         intros [= <-]; left; eauto).
  destruct rest as [|e rest']; [by cbn|]. cbn [unescape].
  destruct (is_word e) eqn:He; [done|].
  destruct (unescape rest') as [cs'|] eqn:Hr; [|done]. intros [= <-].
  right. split; [done|]. by exists e, rest', cs'.
Qed.

Lemma unescape_unquantified s cs t :
  unescape s = Some cs -> unquantified t = true -> unquantified (s ++ t) = true.
Proof.
  destruct s as [|a rest]; [done|]. intros H _.
  apply unescape_inv in H as [[Ha _]|[-> _]]; [|done].
  cbn [app unquantified]. revert Ha.
  destruct a as [[] [] [] [] [] [] [] []]; done.
Qed.

Lemma parse_alt_unescape : forall n s, List.length s <= n ->
  forall cs t g f r s2 g2,
    unescape s = Some cs -> unquantified t = true ->
    parse_alt (S f) t g = Some (r, s2, g2) -> r <> REmpty ->
    parse_alt (S f + List.length cs) (s ++ t) g = Some (lits cs r, s2, g2).
Proof.
  induction n as [|n IH]; intros s Hn cs t g f r s2 g2 Hs Ht Hp Hr.
  - destruct s; [|cbn in Hn; lia]. injection Hs as <-.
    cbn [List.length app lits]. by rewrite Nat.add_0_r.
  - destruct s as [|a rest].
    { injection Hs as <-. cbn [List.length app lits]. by rewrite Nat.add_0_r. }
    apply unescape_inv in Hs
      as [(Ha & cs' & -> & Hs)|(-> & e & rest' & cs' & -> & He & -> & Hs)].
    + cbn [app List.length lits].
      replace (S f + S (List.length cs')) with (S (S (f + List.length cs'))) by lia.
      rewrite parse_alt_plain by done.
      rewrite parse_quant_unquantified by (by eapply unescape_unquantified).
      change (S (f + List.length cs')) with (S f + List.length cs').
      rewrite (IH rest) with (r := r) (s2 := s2) (g2 := g2); try done.
      * by rewrite seq_nonempty by (by apply lits_nonempty).
      * cbn in Hn. lia.
    + cbn [app List.length lits].
      replace (S f + S (List.length cs')) with (S (S (f + List.length cs'))) by lia.
      rewrite parse_alt_escape by done.
      rewrite parse_quant_unquantified by (by eapply unescape_unquantified).
      change (S (f + List.length cs')) with (S f + List.length cs').
      rewrite (IH rest') with (r := r) (s2 := s2) (g2 := g2); try done.
      * by rewrite seq_nonempty by (by apply lits_nonempty).
      * cbn in Hn. lia.
Qed.

Lemma unescape_app : forall n s1, List.length s1 <= n ->
  forall c1 s2, unescape s1 = Some c1 ->
    unescape (s1 ++ s2) = option_map (app c1) (unescape s2).
Proof.
  induction n as [|n IH]; intros s1 Hn c1 s2 H1.
  - destruct s1; [|cbn in Hn; lia]. injection H1 as <-.
    cbn [app]. by destruct (unescape s2).
  - destruct s1 as [|a rest].
    { injection H1 as <-. cbn [app]. by destruct (unescape s2). }
    pose proof H1 as H1'.
    apply unescape_inv in H1
      as [(Ha & cs' & -> & Hs)|(-> & e & rest' & cs' & -> & He & -> & Hs)].
    + assert (unescape (a :: rest ++ s2) = option_map (cons a) (unescape (rest ++ s2)))
        as Hcons.
      { revert Ha. clear. destruct a as [[] [] [] [] [] [] [] []]; done. }
      cbn [app]. rewrite Hcons, (IH rest) with (c1 := cs'); [|cbn in Hn; lia|done].
      by destruct (unescape s2).
    + cbn [app unescape]. rewrite He.
      rewrite (IH rest') with (c1 := cs'); [|cbn in Hn; lia|done].
      by destruct (unescape s2).
Qed.

Lemma unescape_plain l : forallb plain l = true -> unescape l = Some l.
Proof.
  induction l as [|a l IH]; [done|]. cbn [forallb].
  intros [Ha Hl]%andb_true_iff.
  assert (unescape (a :: l) = option_map (cons a) (unescape l)) as ->.
  { revert Ha. clear. destruct a as [[] [] [] [] [] [] [] []]; done. }
  by rewrite IH.
Qed.

Lemma unescape_length : forall n s, List.length s <= n ->
  forall cs, unescape s = Some cs -> List.length cs <= List.length s.
Proof.
  induction n as [|n IH]; intros s Hn cs Hs.
  - destruct s; [|cbn in Hn; lia]. by injection Hs as <-.
  - destruct s as [|a rest]; [by injection Hs as <-|].
    apply unescape_inv in Hs
      as [(Ha & cs' & -> & Hs)|(-> & e & rest' & cs' & -> & He & -> & Hs)].
    + apply IH in Hs; cbn in *; lia.
    + apply IH in Hs; cbn in *; lia.
Qed.

Lemma parse_index_tail f :
  parse_alt (S (20 + f)) (list_ascii_of_string index_tail_src) 0
  = Some (index_tail, [], 1).
Proof. reflexivity. Qed.

Lemma index_source_split congress bill_type :
  list_ascii_of_string (index_source congress bill_type)
  = ((list_ascii_of_string "https:\/\/www\.govinfo\.gov\/bulkdata\/BILLSTATUS\/"
      ++ list_ascii_of_string congress
      ++ list_ascii_of_string "/"
      ++ list_ascii_of_string bill_type
      ++ list_ascii_of_string "/BILLSTATUS-"
      ++ list_ascii_of_string congress
      ++ list_ascii_of_string bill_type)
     ++ list_ascii_of_string index_tail_src)%list.
Proof.
  unfold index_source. rewrite !list_ascii_app. by rewrite <- !app_assoc.
Qed.

Lemma index_text_split congress bill_type :
  list_ascii_of_string (index_text congress bill_type)
  = (list_ascii_of_string "https://www.govinfo.gov/bulkdata/BILLSTATUS/"
     ++ list_ascii_of_string congress
     ++ list_ascii_of_string "/"
     ++ list_ascii_of_string bill_type
     ++ list_ascii_of_string "/BILLSTATUS-"
     ++ list_ascii_of_string congress
     ++ list_ascii_of_string bill_type)%list.
Proof. unfold index_text. by rewrite !list_ascii_app. Qed.

Lemma unescape_app_Some s1 c1 s2 c2 :
  unescape s1 = Some c1 -> unescape s2 = Some c2 ->
  unescape (s1 ++ s2) = Some (c1 ++ c2)%list.
Proof.
  intros H1 H2. by rewrite (unescape_app _ s1 (le_n _) c1 s2 H1), H2.
Qed.

Lemma parse_disj_alt f s g r g' :
  parse_alt f s g = Some (r, [], g') -> parse_disj (S f) s g = Some (r, [], g').
Proof. cbn [parse_disj]. by intros ->. Qed.

(** A source that is a text of plain characters and escaped punctuation
    before a tail: the pattern is the text, then the pattern of the tail. *)
Lemma parse_lits (s : string) (src cs tail : list ascii) (r : regex) (g' : nat) :
  list_ascii_of_string s = (src ++ tail)%list ->
  unescape src = Some cs ->
  unquantified tail = true ->
  (forall f, parse_alt (S (20 + f)) tail 0 = Some (r, [], g')) ->
  r <> REmpty ->
  4 <= List.length tail ->
  parse s = Some (lits cs r).
Proof.
  intros Hs Hsrc Hq Htail Hr Hlen. unfold parse. cbv zeta. rewrite Hs.
  pose proof (unescape_length _ src (le_n _) _ Hsrc) as Hcs.
  assert (4 * List.length (src ++ tail) + 8
          = S (S (20 + (4 * List.length (src ++ tail) - List.length cs - 14))
               + List.length cs)) as ->.
  { rewrite length_app. lia. }
  erewrite parse_disj_alt; [done|].
  by apply (parse_alt_unescape _ src (le_n _)).
Qed.

(** The pattern that [new RegExp] compiles for a congress and a bill type
    of plain characters: the text of the address, the number in a group,
    any character and [xml]. *)
Lemma index_re_plain congress bill_type :
  plain_text congress = true -> plain_text bill_type = true ->
  index_re congress bill_type
  = Some (MkRegExp
            (lits (list_ascii_of_string (index_text congress bill_type)) index_tail)
            false).
Proof.
  unfold plain_text, index_re. intros Hc Hb.
  erewrite parse_lits; [reflexivity|apply index_source_split| |reflexivity
                        |apply parse_index_tail|discriminate|cbn; lia].
  rewrite index_text_split.
  repeat (apply unescape_app_Some; [by (reflexivity || apply unescape_plain)|]).
  by apply unescape_plain.
Qed.

(** The greedy loop over a one-character atom takes the whole run when the
    continuation accepts what follows it. *)
Lemma repeat_loop_run (p : ascii -> bool)
    (m1 : mstate -> (mstate -> option mstate) -> option mstate)
    (c : mstate -> option mstate) (z : mstate) (rest : list ascii) :
  (forall x k, m1 x k = one_char p x k) ->
  match rest with ch :: _ => p ch = false | [] => True end ->
  forall ds fuel min pos caps,
    forallb p ds = true ->
    min <= List.length ds ->
    List.length ds + 1 <= fuel ->
    c (MState (pos + List.length ds) rest caps) = Some z ->
    repeat_loop m1 [] true c fuel min None (MState pos (ds ++ rest) caps) = Some z.
Proof.
  intros Hm1 Hrest ds.
  induction ds as [|d ds IH]; intros fuel min pos caps Hds Hmin Hfuel Hc;
    (destruct fuel as [|fuel]; [cbn in Hfuel; lia|]);
    cbn [repeat_loop]; rewrite clear_caps_nil, Hm1; unfold one_char;
    cbn [m_rest app].
  - cbn [List.length] in Hmin, Hc. rewrite Nat.add_0_r in Hc.
    assert (min = 0) as -> by lia. cbn [Nat.eqb negb].
    by destruct rest as [|ch rest]; [|rewrite Hrest].
  - cbn [forallb] in Hds. apply andb_true_iff in Hds as [-> Hds].
    unfold advance. cbn [m_pos m_caps option_map].
    assert (Nat.eqb (S pos) pos = false) as -> by (apply Nat.eqb_neq; lia).
    rewrite andb_false_r.
    rewrite IH; [by destruct (negb (Nat.eqb min 0))|done| | |].
    + cbn [List.length] in Hmin. lia.
    + cbn [List.length] in Hfuel. lia.
    + cbn [List.length] in Hc. by replace (S pos + List.length ds)
        with (pos + S (List.length ds)) by lia.
Qed.

Lemma rmatch_group_run ci i neg items (p : ascii -> bool) c z pos ds rest caps :
  (forall ch, xorb neg (set_has ci items ch) = p ch) ->
  match rest with ch :: _ => p ch = false | [] => True end ->
  forallb p ds = true -> 1 <= List.length ds ->
  c (MState (pos + List.length ds) rest ((i, ds) :: caps)) = Some z ->
  rmatch ci (RGroup i (RRepeat 1 None true (RSet neg items)))
    (MState pos (ds ++ rest) caps) c = Some z.
Proof.
  intros Hp Hrest Hds Hlen Hc. cbn [rmatch groups_of m_rest m_pos].
  apply (repeat_loop_run p); try done.
  - intros x k. cbn [rmatch]. unfold one_char. destruct (m_rest x); [done|].
    by rewrite Hp.
  - rewrite length_app. lia.
  - unfold set_cap. cbn [m_pos m_rest m_caps].
    replace (pos + List.length ds - pos) with (List.length ds) by lia.
    by rewrite take_app_length.
Qed.

Lemma set_09 ch : xorb false (set_has false [CRange "0" "9"] ch) = is_digit ch.
Proof. cbn. by rewrite !orb_false_r. Qed.

(** The end of the pattern on a number followed by [.xml]. *)
Lemma rmatch_index_tail pos ds caps :
  forallb is_digit ds = true -> 1 <= List.length ds ->
  rmatch false index_tail
    (MState pos (ds ++ list_ascii_of_string ".xml") caps) Some
  = Some (MState (pos + List.length ds + 4) [] ((1, ds) :: caps)).
Proof.
  intros Hds Hlen. unfold index_tail.
  change (rmatch false (RSeq ?r1 ?r2) ?x ?c)
    with (rmatch false r1 x (fun y => rmatch false r2 y c)).
  apply (rmatch_group_run false 1 false _ is_digit); try done.
  - apply set_09.
  - cbn. change (negb (is_line_terminator ".")) with true. unfold advance.
    cbn [m_pos m_caps]. do 2 f_equal. lia.
Qed.

(** The pattern finds the address of a bill at its start and captures the
    number. *)
Lemma exec_index_url congress bill_type number :
  Ids.digits number = true ->
  exec (MkRegExp
          (lits (list_ascii_of_string (index_text congress bill_type)) index_tail)
          false)
       (index_url congress bill_type number)
  = Some (MkMatch 0 (index_url congress bill_type number)
            [(1, list_ascii_of_string number)]).
Proof.
  unfold Ids.digits. intros [Hne Hds]%andb_true_iff.
  apply negb_true_iff, String.eqb_neq in Hne.
  unfold exec, index_url. cbn [ignoreCase pattern].
  rewrite !list_ascii_app. rewrite search_unfold, rmatch_lits.
  rewrite starts_with_app, skipn_length_app. cbn [Nat.add].
  rewrite rmatch_index_tail; [|done|by apply Nat.leb_le, nonempty_length].
  cbn [m_pos m_caps skipn]. rewrite Nat.sub_0_r. do 2 f_equal.
  rewrite <- !list_ascii_app.
  rewrite drop_0, take_ge; [by rewrite string_of_list_ascii_of_string|].
  rewrite !list_ascii_app, !length_app. cbn. lia.
Qed.

Lemma groups_of_lits cs r : groups_of (lits cs r) = groups_of r.
Proof. induction cs as [|c cs IH]; [done|]. by cbn. Qed.

Lemma mandatory_lits cs r : Captures.mandatory (lits cs r) = Captures.mandatory r.
Proof. induction cs as [|c cs IH]; [done|]. by cbn. Qed.

Lemma digits_plain (s : string) : Ids.digits s = true -> plain_text s = true.
Proof.
  unfold Ids.digits, plain_text. intros [_ H]%andb_true_iff.
  induction (list_ascii_of_string s) as [|c l IH]; [done|].
  cbn [forallb] in *. apply andb_true_iff in H as [Hc Hl].
  rewrite IH by done. rewrite andb_true_r. revert Hc. clear.
  destruct c as [[] [] [] [] [] [] [] []]; done.
Qed.

Lemma bill_types_plain (t : string) : In t BILL_TYPES -> plain_text t = true.
Proof. unfold BILL_TYPES. cbn [In]. intuition (subst; reflexivity). Qed.

Lemma billstatus_url_index (congress bill_type number : string) :
  Ids.digits congress = true -> Ids.lower_letters bill_type = true ->
  Ids.digits number = true ->
  Bill.billstatus_url_for (Bill.build_bill_id bill_type number congress)
  = Ok (index_url congress bill_type number).
Proof.
  intros Hc Hb Hn. unfold Bill.billstatus_url_for.
  rewrite split_build by done. cbn [bind Bill.id_congress Bill.bill_type Bill.bill_number].
  unfold index_url, index_text. f_equal.
  by rewrite !append_assoc.
Qed.

Lemma filter_all {A} (p : A -> bool) (l : list A) :
  forallb p l = true -> List.filter p l = l.
Proof.
  induction l as [|a l IH]; [done|]. cbn.
  intros [-> H]%andb_true_iff. by rewrite IH.
Qed.

Lemma map_index_map {A B C} (f : B -> nat -> result C) (g : A -> B) (h : A -> C)
    (l : list A) :
  (forall a i, In a l -> f (g a) i = Ok (h a)) ->
  forall i, map_index f i (List.map g l) = Ok (List.map h l).
Proof.
  induction l as [|a l IH]; intros Hf i; [done|]. cbn [map_index List.map].
  rewrite Hf by (by left). cbn [bind]. rewrite IH; [done|].
  intros b j Hb. apply Hf. by right.
Qed.

(** X21. The addresses that [billstatus_url_for] builds are the ones that
    [fetchValidIndexes] reads: for a congress of digits, a bill type of
    [BILL_TYPES] and bill numbers of digits, a sitemap of these addresses
    passes the filter entirely, and each entry comes back with its address,
    its [lastmod], the congress, the bill type and the number. *)
Theorem fetchValidIndexes_round_trip (congress bill_type : string)
    (entries : list (string * string)) :
  Ids.digits congress = true -> In bill_type BILL_TYPES ->
  Forall (fun e => Ids.digits (fst e) = true) entries ->
  Forall (fun e =>
            Bill.billstatus_url_for (Bill.build_bill_id bill_type (fst e) congress)
            = Ok (index_url congress bill_type (fst e))) entries
  /\ fetchValidIndexes congress bill_type
       (Some (List.map (fun e => UrlNode (Some [index_url congress bill_type (fst e)])
                                   (Some [snd e])) entries))
     = Some (Ok (List.map (fun e => Index (index_url congress bill_type (fst e))
                                      (Some (snd e)) (JStr congress)
                                      (JStr bill_type) (Some (fst e))) entries)).
Proof.
  intros Hc Hb He. split.
  - eapply Forall_impl; [exact He|]. intros e Hn.
    apply billstatus_url_index; [done|by apply bill_types_lower|done].
  - unfold fetchValidIndexes.
    rewrite index_re_plain by first [by apply digits_plain|by apply bill_types_plain].
    cbn [default]. set (re := MkRegExp _ false).
    rewrite filter_all.
    + f_equal. apply map_index_map.
      intros e i Hin. rewrite List.Forall_forall in He. apply He in Hin.
      unfold transformIndex. cbn [loc_node lastmod_node last bind]. subst re.
      rewrite exec_index_url by done.
      unfold matches_length. cbn [pattern]. rewrite groups_of_lits.
      cbn [index_tail groups_of List.length app Nat.leb].
      unfold group. cbn [captures find fst Nat.eqb].
      by rewrite string_of_list_ascii_of_string.
    + apply forallb_forall. intros u [e [<- Hin]]%in_map_iff.
      rewrite List.Forall_forall in He. apply He in Hin.
      unfold valid_index, test. cbn [loc_node]. subst re.
      by rewrite exec_index_url.
Qed.

(** X22. The outcomes of [fetchValidIndexes] for a congress and a bill type
    of plain characters: the pattern compiles; the call throws a TypeError
    exactly when some entry that passes the filter, which tests the first
    [loc], has no [lastmod] or a last [loc] that the pattern does not find;
    otherwise every entry that passes comes back with its last [loc], the
    last [lastmod], the congress, the bill type and a number, so the
    two-field form of [transformIndex] is never returned. *)
Theorem fetchValidIndexes_outcome (congress bill_type : string)
    (sitemap : option (list url_node)) :
  plain_text congress = true -> plain_text bill_type = true ->
  exists re, index_re congress bill_type = Some re
    /\ if existsb (broken re) (List.filter (valid_index re) (default [] sitemap))
       then fetchValidIndexes congress bill_type sitemap = Some (Err TypeError)
       else exists l,
         fetchValidIndexes congress bill_type sitemap = Some (Ok l)
         /\ Forall2 (fun u i =>
                       (exists locNode, loc_node u = Some locNode
                                        /\ last locNode = Some (loc i))
                       /\ (exists lastmodNode, lastmod_node u = Some lastmodNode
                                               /\ lastmod i = last lastmodNode)
                       /\ ix_congress i = JStr congress
                       /\ ix_bill_type i = JStr bill_type
                       /\ exists number, ix_number i = Some number)
              (List.filter (valid_index re) (default [] sitemap)) l.
Proof.
  intros Hc Hb. eexists. split; [by apply index_re_plain|].
  unfold fetchValidIndexes. rewrite index_re_plain by done.
  set (re := MkRegExp _ false). set (valid := List.filter _ _).
  assert (matches_length re = 2) as Hlen.
  { unfold matches_length. subst re. cbn [pattern]. by rewrite groups_of_lits. }
  pose proof (map_index_outcome
                (fun u (_ : nat) => transformIndex u re congress bill_type)
                (broken re) TypeError valid) as Hout.
  assert (forall u : url_node,
            if broken re u
            then transformIndex u re congress bill_type = Err TypeError
            else exists b, transformIndex u re congress bill_type = Ok b) as Hf.
  { intros u. unfold broken, transformIndex, test.
    destruct (loc_node u) as [locNode|], (lastmod_node u) as [lastmodNode|];
      cbn [bind]; try done.
    destruct (last locNode) as [l|]; [|done].
    destruct (exec re l); cbn [negb]; [|done]. rewrite Hlen. eauto. }
  specialize (Hout (fun u _ _ => Hf u) 0).
  destruct (existsb (broken re) valid).
  - by rewrite Hout.
  - destruct Hout as (l & Hl & _).
    exists l. split; [by rewrite Hl|].
    eapply map_index_Forall2; [|exact Hl].
    intros u j i. cbv beta. unfold transformIndex.
    destruct (loc_node u) as [locNode|]; [|done].
    destruct (lastmod_node u) as [lastmodNode|]; [|done]. cbn [bind].
    destruct (last locNode) as [text|] eqn:Et; [|done].
    destruct (exec re text) as [m|] eqn:E; [|done]. rewrite Hlen. cbn [Nat.leb].
    intros [= <-]. cbn [loc lastmod ix_congress ix_bill_type ix_number].
    split_and!; try done; [by exists locNode|by exists lastmodNode|].
    apply (exec_binds re text m 1 E).
    unfold Captures.binds. subst re. cbn [pattern]. by rewrite mandatory_lits.
Qed.

End IndexPattern.

(** Witness of X21: two bills of the 116th congress. *)
Lemma fetchValidIndexes_round_trip_witness :
  Sitemap.fetchValidIndexes "116" "hr"
    (Some [ Sitemap.UrlNode
              (Some ["https://www.govinfo.gov/bulkdata/BILLSTATUS/116/hr/BILLSTATUS-116hr1234.xml"])
              (Some ["2019-02-14T08:31:00Z"]);
            Sitemap.UrlNode
              (Some ["https://www.govinfo.gov/bulkdata/BILLSTATUS/116/hr/BILLSTATUS-116hr7.xml"])
              (Some ["2019-01-03T00:00:00Z"]) ])
  = Some (Js.Ok
            [ Sitemap.Index
                "https://www.govinfo.gov/bulkdata/BILLSTATUS/116/hr/BILLSTATUS-116hr1234.xml"
                (Some "2019-02-14T08:31:00Z") (Js.JStr "116") (Js.JStr "hr")
                (Some "1234");
              Sitemap.Index
                "https://www.govinfo.gov/bulkdata/BILLSTATUS/116/hr/BILLSTATUS-116hr7.xml"
                (Some "2019-01-03T00:00:00Z") (Js.JStr "116") (Js.JStr "hr")
                (Some "7") ]).
Proof.
  refine (proj2 (fetchValidIndexes_round_trip "116" "hr"
                   [("1234", "2019-02-14T08:31:00Z"); ("7", "2019-01-03T00:00:00Z")]
                   eq_refl (or_intror (or_intror (or_introl eq_refl))) _)).
  repeat constructor.
Defined.

(** Witness of X22: an entry without [lastmod] after a complete one. *)
Lemma fetchValidIndexes_outcome_witness :
  exists re, Sitemap.index_re "116" "hr" = Some re
    /\ Sitemap.fetchValidIndexes "116" "hr"
         (Some [ Sitemap.UrlNode
                   (Some ["https://www.govinfo.gov/bulkdata/BILLSTATUS/116/hr/BILLSTATUS-116hr1234.xml"])
                   (Some ["2019-02-14T08:31:00Z"]);
                 Sitemap.UrlNode
                   (Some ["https://www.govinfo.gov/bulkdata/BILLSTATUS/116/hr/BILLSTATUS-116hr7.xml"])
                   None ])
       = Some (Js.Err Js.TypeError).
Proof.
  destruct (fetchValidIndexes_outcome "116" "hr"
              (Some [ Sitemap.UrlNode
                        (Some ["https://www.govinfo.gov/bulkdata/BILLSTATUS/116/hr/BILLSTATUS-116hr1234.xml"])
                        (Some ["2019-02-14T08:31:00Z"]);
                      Sitemap.UrlNode
                        (Some ["https://www.govinfo.gov/bulkdata/BILLSTATUS/116/hr/BILLSTATUS-116hr7.xml"])
                        None ])
              eq_refl eq_refl) as (re & Hre & H).
  exists re. split; [exact Hre|].
  assert (Some re = Sitemap.index_re "116" "hr") as E by (by rewrite Hre).
  vm_compute in E. injection E as ->. exact H.
Defined.
